(** * verify_torrent.py: bencode codec, torrent metadata and file verification

    A shallow embedding of [scripts/verify_torrent.py] (class
    [TorrentVerifier]) and the properties of its fallback bencode codec,
    of the metadata extraction and of the presence/size verification pass.

    Modelling conventions.
    - Python [bytes] are [list byte]; Python [str] is a list of code points.
    - Python [int] is [Z].  The interpreter's optional limit on the number
      of digits accepted by [int()] / produced by [str()] and its recursion
      limit are interpreter settings, not part of the script: they are not
      modelled.  A computation that does not finish within its fuel is
      [Hang].
    - A Python [dict] is an association list in insertion order with
      pairwise distinct keys.
    - Exceptions are values of [exn]; [print] calls have no effect on the
      results and are left out.
    - The file system is a snapshot: one path gives one answer during a
      call.  [os.path] is [posixpath]. *)

From Stdlib Require Import String Ascii.
From Stdlib Require Import ZArith List Bool Lia Strings.Byte.
From Stdlib Require Import Permutation Sorted DecimalZ DecimalPos DecimalN.
Import ListNotations.
Open Scope Z_scope.
Set Warnings "-register-all".

(** ** Python values used by the script *)

Definition bytes := list byte.

(** Python [str]: a sequence of Unicode code points. *)
Definition str := list N.

(** [b "..."] is the bytes literal [b'...']; [u "..."] the ASCII str literal. *)
Definition b (s : string) : bytes := list_byte_of_string s.
Definition u (s : string) : str := map N_of_ascii (list_ascii_of_string s).

Definition ord (c : byte) : Z := Z.of_N (Byte.to_N c).
Definition len {A : Type} (x : list A) : Z := Z.of_nat (List.length x).

Inductive errno : Type :=
| ENOENT | EACCES | ENAMETOOLONG | EIO | ENOTDIR | EISDIR | ELOOP.

Inductive exn : Type :=
| ValueError
| IndexError
| KeyError
| TypeError
| AttributeError
| OSError (e : errno).

(** Outcome of running a piece of the script. *)
Inductive res (A : Type) : Type :=
| Done (a : A)
| Raise (e : exn)
| Hang.
Arguments Done {A} a.
Arguments Raise {A} e.
Arguments Hang {A}.

Definition bind {A B : Type} (m : res A) (k : A -> res B) : res B :=
  match m with
  | Done a => k a
  | Raise e => Raise e
  | Hang => Hang
  end.

Declare Scope res_scope.
Delimit Scope res_scope with res.
Notation "x <- m ;; k" := (bind m (fun x => k))
  (at level 61, m at next level, right associativity) : res_scope.
Notation "' p <- m ;; k" := (bind m (fun p => k))
  (at level 61, p pattern, m at next level, right associativity) : res_scope.
Open Scope res_scope.

Inductive value : Type :=
| VInt (n : Z)
| VBytes (s : bytes)
| VList (l : list value)
| VDict (d : list (bytes * value)).

(** ** Python built-ins on bytes *)

Module Py.

(** Index normalisation of slices and of [find]: a negative index counts
    from the end, and the result is clipped to [0 .. n]. *)
Definition clamp (n i : Z) : Z :=
  if i <? 0 then Z.max (i + n) 0 else Z.min i n.

(** [x[i]] *)
Definition getitem (x : bytes) (i : Z) : res byte :=
  let j := if i <? 0 then i + len x else i in
  if (j <? 0) || (len x <=? j) then Raise IndexError
  else match nth_error x (Z.to_nat j) with
       | Some c => Done c
       | None => Raise IndexError
       end.

(** [x[lo:hi]] *)
Definition slice (x : bytes) (lo hi : Z) : bytes :=
  let lo' := clamp (len x) lo in
  let hi' := clamp (len x) hi in
  firstn (Z.to_nat (hi' - lo')) (skipn (Z.to_nat lo') x).

Fixpoint index_of (c : byte) (x : bytes) : option nat :=
  match x with
  | [] => None
  | c' :: r =>
      if Byte.eqb c' c then Some O
      else match index_of c r with
           | Some k => Some (S k)
           | None => None
           end
  end.

(** [x.find(c, start)] for a one-byte needle [c] *)
Definition find (x : bytes) (c : byte) (start : Z) : Z :=
  let st := clamp (len x) start in
  match index_of c (skipn (Z.to_nat st) x) with
  | Some k => st + Z.of_nat k
  | None => -1
  end.

(** ASCII white space as skipped by [int()]: tab .. carriage return, space. *)
Definition is_space (c : byte) : bool :=
  ((9 <=? ord c) && (ord c <=? 13)) || (ord c =? 32).

Fixpoint lstrip (x : bytes) : bytes :=
  match x with
  | [] => []
  | c :: r => if is_space c then lstrip r else x
  end.

Definition rstrip (x : bytes) : bytes := rev (lstrip (rev x)).

Definition digit_val (c : byte) : option Z :=
  if (48 <=? ord c) && (ord c <=? 57) then Some (ord c - 48) else None.

(** Digits of a decimal literal, single underscores allowed between digits. *)
Fixpoint parse_digits (x : bytes) (acc : Z) (after_underscore : bool)
  : option Z :=
  match x with
  | [] => if after_underscore then None else Some acc
  | c :: r =>
      if Byte.eqb c "_"%byte then
        if after_underscore then None else parse_digits r acc true
      else match digit_val c with
           | Some d => parse_digits r (10 * acc + d) false
           | None => None
           end
  end.

(** [int(x)] for a bytes object [x], base 10:
    white space, an optional sign, digits, white space. *)
Definition int (x : bytes) : res Z :=
  let y := rstrip (lstrip x) in
  let '(sign, z) :=
    match y with
    | c :: r => if Byte.eqb c "+"%byte then (1, r)
                else if Byte.eqb c "-"%byte then (-1, r)
                else (1, y)
    | [] => (1, y)
    end in
  match z with
  | [] => Raise ValueError
  | c :: _ =>
      if Byte.eqb c "_"%byte then Raise ValueError
      else match parse_digits z 0 false with
           | Some n => Done (sign * n)
           | None => Raise ValueError
           end
  end.

Fixpoint bytes_of_uint (d : Decimal.uint) : bytes :=
  match d with
  | Decimal.Nil => []
  | Decimal.D0 r => "0"%byte :: bytes_of_uint r
  | Decimal.D1 r => "1"%byte :: bytes_of_uint r
  | Decimal.D2 r => "2"%byte :: bytes_of_uint r
  | Decimal.D3 r => "3"%byte :: bytes_of_uint r
  | Decimal.D4 r => "4"%byte :: bytes_of_uint r
  | Decimal.D5 r => "5"%byte :: bytes_of_uint r
  | Decimal.D6 r => "6"%byte :: bytes_of_uint r
  | Decimal.D7 r => "7"%byte :: bytes_of_uint r
  | Decimal.D8 r => "8"%byte :: bytes_of_uint r
  | Decimal.D9 r => "9"%byte :: bytes_of_uint r
  end.

(** [str(n).encode()] for an int [n] *)
Definition str_int (n : Z) : bytes :=
  match Z.to_int n with
  | Decimal.Pos d => bytes_of_uint d
  | Decimal.Neg d => "-"%byte :: bytes_of_uint d
  end.

Fixpoint bytes_eqb (x y : bytes) : bool :=
  match x, y with
  | [], [] => true
  | c :: x', d :: y' => Byte.eqb c d && bytes_eqb x' y'
  | _, _ => false
  end.

(** [x <= y] on bytes: lexicographic on the unsigned byte values. *)
Fixpoint bytes_leb (x y : bytes) : bool :=
  match x, y with
  | [], _ => true
  | _ :: _, [] => false
  | c :: x', d :: y' =>
      if ord c <? ord d then true
      else if ord d <? ord c then false
      else bytes_leb x' y'
  end.

Fixpoint insert_sorted (k : bytes) (l : list bytes) : list bytes :=
  match l with
  | [] => [k]
  | k' :: r => if bytes_leb k k' then k :: l else k' :: insert_sorted k r
  end.

(** [sorted(keys)] *)
Fixpoint sorted (l : list bytes) : list bytes :=
  match l with
  | [] => []
  | k :: r => insert_sorted k (sorted r)
  end.

(** [sub in x] for bytes objects *)
Fixpoint is_prefix (sub x : bytes) : bool :=
  match sub, x with
  | [], _ => true
  | c :: sub', d :: x' => Byte.eqb c d && is_prefix sub' x'
  | _ :: _, [] => false
  end.

Fixpoint contains (x sub : bytes) : bool :=
  is_prefix sub x ||
  match x with
  | [] => false
  | _ :: x' => contains x' sub
  end.

End Py.

(** ** Python dict as an insertion-ordered association list *)

Definition dict (V : Type) := list (bytes * V).

Fixpoint dict_get {V : Type} (d : dict V) (k : bytes) : option V :=
  match d with
  | [] => None
  | (k', v) :: r => if Py.bytes_eqb k' k then Some v else dict_get r k
  end.

(** [d[k] = v]: an existing key keeps its position. *)
Fixpoint dict_set {V : Type} (d : dict V) (k : bytes) (v : V) : dict V :=
  match d with
  | [] => [(k, v)]
  | (k', v') :: r =>
      if Py.bytes_eqb k' k then (k', v) :: r else (k', v') :: dict_set r k v
  end.

Definition dict_keys {V : Type} (d : dict V) : list bytes := map fst d.

Definition dict_mem {V : Type} (d : dict V) (k : bytes) : bool :=
  match dict_get d k with Some _ => true | None => false end.

(** ** The fallback codec *)

Definition encode_bytes (s : bytes) : bytes :=
  Py.str_int (len s) ++ b ":" ++ s.

(** [_encode_bencode]; the [str] branch and the final [TypeError] are not
    reachable for the four shapes the decoder produces. *)
Fixpoint _encode_bencode (obj : value) : bytes :=
  match obj with
  | VBytes s => Py.str_int (len s) ++ b ":" ++ s
  | VInt n => b "i" ++ Py.str_int n ++ b "e"
  | VList l => b "l" ++ concat (map _encode_bencode l) ++ b "e"
  | VDict d =>
      let encoded : dict bytes :=
        map (fun kv => (fst kv, _encode_bencode (snd kv))) d in
      let items :=
        map (fun key =>
               encode_bytes key ++
               match dict_get encoded key with
               | Some e => e
               | None => []
               end)
            (Py.sorted (dict_keys d)) in
      b "d" ++ concat items ++ b "e"
  end.

Definition decode_string (x : bytes) (i : Z) : res (value * Z) :=
  let colon := Py.find x ":"%byte i in
  if colon =? -1 then Raise ValueError
  else
    length <- Py.int (Py.slice x i colon) ;;
    let start := colon + 1 in
    let end_ := start + length in
    if end_ >? len x then Raise ValueError
    else Done (VBytes (Py.slice x start end_), end_).

Definition decode_int (x : bytes) (i : Z) : res (value * Z) :=
  let i := i + 1 in
  let end_ := Py.find x "e"%byte i in
  if end_ =? -1 then Raise ValueError
  else
    n <- Py.int (Py.slice x i end_) ;;
    Done (VInt n, end_ + 1).

Definition key_of (v : value) : bytes :=
  match v with VBytes s => s | _ => [] end.

(** [decode], with the two [while] loops of [decode_list] and
    [decode_dict]; every call and every loop iteration uses one unit of
    fuel. *)
Fixpoint decode (fuel : nat) (x : bytes) (i : Z) {struct fuel}
  : res (value * Z) :=
  match fuel with
  | O => Hang
  | S fuel' =>
      if i >=? len x then Raise ValueError
      else
        c <- Py.getitem x i ;;
        if ord c =? ord "d"%byte then
          '(d, j) <- decode_dict_loop fuel' x (i + 1) [] ;;
          Done (VDict d, j + 1)
        else if ord c =? ord "l"%byte then
          '(l, j) <- decode_list_loop fuel' x (i + 1) [] ;;
          Done (VList l, j + 1)
        else if ord c =? ord "i"%byte then decode_int x i
        else if (48 <=? ord c) && (ord c <=? 57) then decode_string x i
        else Raise ValueError
  end
with decode_list_loop (fuel : nat) (x : bytes) (i : Z) (result : list value)
       {struct fuel} : res (list value * Z) :=
  match fuel with
  | O => Hang
  | S fuel' =>
      if i <? len x then
        c <- Py.getitem x i ;;
        if negb (ord c =? ord "e"%byte) then
          '(item, i) <- decode fuel' x i ;;
          decode_list_loop fuel' x i (result ++ [item])
        else Done (result, i)
      else Done (result, i)
  end
with decode_dict_loop (fuel : nat) (x : bytes) (i : Z) (result : dict value)
       {struct fuel} : res (dict value * Z) :=
  match fuel with
  | O => Hang
  | S fuel' =>
      if i <? len x then
        c <- Py.getitem x i ;;
        if negb (ord c =? ord "e"%byte) then
          '(key, i) <- decode_string x i ;;
          '(val, i) <- decode fuel' x i ;;
          decode_dict_loop fuel' x i (dict_set result (key_of key) val)
        else Done (result, i)
      else Done (result, i)
  end.

(** [decode_list] and [decode_dict] as [decode] runs them (lemma
    [decode_dispatch]). *)
Definition decode_list (fuel : nat) (x : bytes) (i : Z) : res (value * Z) :=
  '(l, j) <- decode_list_loop fuel x (i + 1) [] ;;
  Done (VList l, j + 1).

Definition decode_dict (fuel : nat) (x : bytes) (i : Z) : res (value * Z) :=
  '(d, j) <- decode_dict_loop fuel x (i + 1) [] ;;
  Done (VDict d, j + 1).

(** [_decode_bencode(data)]: [Done None] is the Python result [None]. *)
Definition _decode_bencode (fuel : nat) (data : bytes) : res (option value) :=
  match decode fuel data 0 with
  | Done (result, _) => Done (Some result)
  | Raise _ => Done None
  | Hang => Hang
  end.

(** ** Text decoding: [bytes.decode('utf-8', errors='ignore')] *)

Module Utf8.

Definition is_cont (c : Z) : bool := (128 <=? c) && (c <? 192).

(** One step of the decoder on the remaining input: the decoded code point
    (or [None] for an ignored malformed sequence) and the number of bytes
    consumed.  A truncated sequence at the end of the input consumes all
    that is left. *)
Definition step (x : list Z) : option Z * nat :=
  match x with
  | [] => (None, O)
  | c :: r =>
      if c <? 128 then (Some c, 1%nat)
      else if c <? 224 then
        if c <? 194 then (None, 1%nat)
        else match r with
             | [] => (None, 1%nat)
             | c2 :: _ =>
                 if negb (is_cont c2) then (None, 1%nat)
                 else (Some ((c - 192) * 64 + (c2 - 128)), 2%nat)
             end
      else if c <? 240 then
        match r with
        | [] => (None, 1%nat)
        | c2 :: r2 =>
            if negb (is_cont c2)
               || (if c2 <? 160 then c =? 224 else c =? 237)
            then (None, 1%nat)
            else match r2 with
                 | [] => (None, 2%nat)
                 | c3 :: _ =>
                     if negb (is_cont c3) then (None, 2%nat)
                     else (Some ((c - 224) * 4096 + (c2 - 128) * 64
                                 + (c3 - 128)), 3%nat)
                 end
        end
      else if c <? 245 then
        match r with
        | [] => (None, 1%nat)
        | c2 :: r2 =>
            if negb (is_cont c2)
               || (if c2 <? 144 then c =? 240 else c =? 244)
            then (None, 1%nat)
            else match r2 with
                 | [] => (None, 2%nat)
                 | c3 :: r3 =>
                     if negb (is_cont c3) then (None, 2%nat)
                     else match r3 with
                          | [] => (None, 3%nat)
                          | c4 :: _ =>
                              if negb (is_cont c4) then (None, 3%nat)
                              else (Some ((c - 240) * 262144
                                          + (c2 - 128) * 4096
                                          + (c3 - 128) * 64
                                          + (c4 - 128)), 4%nat)
                          end
                 end
        end
      else (None, 1%nat)
  end.

Fixpoint loop (fuel : nat) (x : list Z) : str :=
  match fuel, x with
  | S fuel', _ :: _ =>
      let '(o, n) := step x in
      match o with
      | Some cp => Z.to_N cp :: loop fuel' (skipn n x)
      | None => loop fuel' (skipn n x)
      end
  | _, _ => []
  end.

Definition decode_ignore (s : bytes) : str :=
  loop (List.length s) (map ord s).

End Utf8.

(** ** Operations of the script on decoded values *)

(** [not v] is [negb (truthy v)]. *)
Definition truthy (v : value) : bool :=
  match v with
  | VInt n => negb (n =? 0)
  | VBytes s => match s with [] => false | _ => true end
  | VList l => match l with [] => false | _ => true end
  | VDict d => match d with [] => false | _ => true end
  end.

(** [k in v] for a bytes key [k] *)
Definition py_contains (v : value) (k : bytes) : res bool :=
  match v with
  | VDict d => Done (dict_mem d k)
  | VList l =>
      Done (existsb (fun e => match e with
                              | VBytes s => Py.bytes_eqb s k
                              | _ => false
                              end) l)
  | VBytes s => Done (Py.contains s k)
  | VInt _ => Raise TypeError
  end.

(** [v[k]] for a bytes key [k] *)
Definition py_subscript (v : value) (k : bytes) : res value :=
  match v with
  | VDict d => match dict_get d k with
               | Some w => Done w
               | None => Raise KeyError
               end
  | _ => Raise TypeError
  end.

(** [v.get(k, default)] *)
Definition py_get (v : value) (k : bytes) (default : value) : res value :=
  match v with
  | VDict d => match dict_get d k with
               | Some w => Done w
               | None => Done default
               end
  | _ => Raise AttributeError
  end.

(** [v.decode('utf-8', errors='ignore')] *)
Definition py_decode (v : value) : res str :=
  match v with
  | VBytes s => Done (Utf8.decode_ignore s)
  | _ => Raise AttributeError
  end.

(** The elements a [for] loop over [v] visits. *)
Definition py_iter (v : value) : res (list value) :=
  match v with
  | VList l => Done l
  | VDict d => Done (map VBytes (dict_keys d))
  | VBytes s => Done (map (fun c => VInt (ord c)) s)
  | VInt _ => Raise TypeError
  end.

(** [a += x]; on a list this extends the list object itself, which no
    property below depends on: they start from [total_size = 0]. *)
Definition py_iadd (a x : value) : res value :=
  match a, x with
  | VInt n, VInt m => Done (VInt (n + m))
  | VBytes s, VBytes t => Done (VBytes (s ++ t))
  | VList l, _ => items <- py_iter x ;; Done (VList (l ++ items))
  | _, _ => Raise TypeError
  end.

(** [n != v] for an int [n] *)
Definition py_ne_int (n : Z) (v : value) : bool :=
  match v with
  | VInt m => negb (n =? m)
  | _ => true
  end.

Fixpoint mapM {A B : Type} (f : A -> res B) (l : list A) : res (list B) :=
  match l with
  | [] => Done []
  | a :: r => y <- f a ;; ys <- mapM f r ;; Done (y :: ys)
  end.

(** ** The file system as the script observes it *)

Record filesystem : Type := {
  fs_stat : str -> errno + Z;       (* size of what the path names *)
  fs_read : str -> errno + bytes    (* open(path, 'rb').read() *)
}.

Module os.

Definition sep : N := 47%N.

Definition has_nul (p : str) : bool := existsb (N.eqb 0%N) p.

Definition stat (fs : filesystem) (p : str) : res Z :=
  if has_nul p then Raise ValueError
  else match fs_stat fs p with
       | inl e => Raise (OSError e)
       | inr n => Done n
       end.

End os.

Module os_path.

Definition startswith_sep (p : str) : bool :=
  match p with c :: _ => N.eqb c os.sep | [] => false end.

Definition endswith_sep (p : str) : bool :=
  match rev p with c :: _ => N.eqb c os.sep | [] => false end.

(** [os.path.join(a, *p)] of posixpath *)
Fixpoint join (a : str) (p : list str) : str :=
  match p with
  | [] => a
  | c :: r =>
      let path :=
        if startswith_sep c then c
        else if match a with [] => true | _ => endswith_sep a end
             then a ++ c
             else a ++ [os.sep] ++ c in
      join path r
  end.

(** [os.path.exists]: any failure of [os.stat] reads as [False]. *)
Definition exists_ (fs : filesystem) (p : str) : bool :=
  match os.stat fs p with
  | Done _ => true
  | _ => false
  end.

Definition getsize (fs : filesystem) (p : str) : res Z := os.stat fs p.

End os_path.

Definition open_read (fs : filesystem) (p : str) : res bytes :=
  if os.has_nul p then Raise ValueError
  else match fs_read fs p with
       | inl e => Raise (OSError e)
       | inr data => Done data
       end.

(** ** [hashlib.sha1(data).hexdigest()] *)

Module hashlib.

Definition w32 (x : Z) : Z := x mod 4294967296.

Definition rotl (n x : Z) : Z :=
  Z.lor (w32 (Z.shiftl x n)) (Z.shiftr x (32 - n)).

Definition be_bytes (count : nat) (x : Z) : list Z :=
  map (fun k => Z.shiftr x (8 * Z.of_nat k) mod 256) (rev (seq 0 count)).

Definition pad (msg : bytes) : list Z :=
  map ord msg ++ [128] ++ repeat 0 (Z.to_nat ((55 - len msg) mod 64))
      ++ be_bytes 8 (8 * len msg).

Fixpoint words (fuel : nat) (x : list Z) : list Z :=
  match fuel, x with
  | S fuel', b0 :: b1 :: b2 :: b3 :: r =>
      (((b0 * 256 + b1) * 256 + b2) * 256 + b3) :: words fuel' r
  | _, _ => []
  end.

Fixpoint chunks (fuel : nat) (w : list Z) : list (list Z) :=
  match fuel, w with
  | S fuel', _ :: _ => firstn 16 w :: chunks fuel' (skipn 16 w)
  | _, _ => []
  end.

Fixpoint schedule (n : nat) (w : list Z) : list Z :=
  match n with
  | O => w
  | S n' =>
      let t := List.length w in
      let at_ k := nth (t - k) w 0 in
      schedule n'
        (w ++ [rotl 1 (Z.lxor (Z.lxor (at_ 3%nat) (at_ 8%nat))
                              (Z.lxor (at_ 14%nat) (at_ 16%nat)))])
  end.

Definition state : Type := Z * Z * Z * Z * Z.

Definition round (s : state) (tw : nat * Z) : state :=
  let '(a, b_, c, d, e) := s in
  let '(t, w) := tw in
  let '(f, k) :=
    if (t <? 20)%nat
    then (Z.lor (Z.land b_ c) (Z.land (Z.lxor b_ 4294967295) d), 1518500249)
    else if (t <? 40)%nat
    then (Z.lxor (Z.lxor b_ c) d, 1859775393)
    else if (t <? 60)%nat
    then (Z.lor (Z.lor (Z.land b_ c) (Z.land b_ d)) (Z.land c d), 2400959708)
    else (Z.lxor (Z.lxor b_ c) d, 3395469782) in
  (w32 (rotl 5 a + f + e + k + w), a, rotl 30 b_, c, d).

Definition compress (h : state) (block : list Z) : state :=
  let w := schedule 64 block in
  let '(a, b_, c, d, e) := fold_left round (combine (seq 0 80) w) h in
  let '(h0, h1, h2, h3, h4) := h in
  (w32 (h0 + a), w32 (h1 + b_), w32 (h2 + c), w32 (h3 + d), w32 (h4 + e)).

Definition init : state :=
  (1732584193, 4023233417, 2562383102, 271733878, 3285377520).

Definition hex_digit (d : Z) : N :=
  Z.to_N (if d <? 10 then 48 + d else 87 + d).

Definition hex_word (w : Z) : str :=
  map (fun k => hex_digit (Z.shiftr w (4 * Z.of_nat k) mod 16))
      (rev (seq 0 8)).

Definition sha1_hexdigest (data : bytes) : str :=
  let p := pad data in
  let ws := words (List.length p) p in
  let '(h0, h1, h2, h3, h4) :=
    fold_left compress (chunks (List.length ws) ws) init in
  hex_word h0 ++ hex_word h1 ++ hex_word h2 ++ hex_word h3 ++ hex_word h4.

End hashlib.

(** ** The verifier object *)

(** An element of [self.files]. *)
Module file_info.
Record t : Type := mk {
  path : str;
  length : value;
  piece_length : value
}.
End file_info.

(** The optional [bencodepy] library ([HAS_BENCODE]); when it is absent the
    fallback codec above is used. *)
Record bencodepy : Type := {
  bencodepy_decode : bytes -> res value;
  bencodepy_encode : value -> res bytes
}.

(** The attributes of a [TorrentVerifier]; [None] is Python's [None]. *)
Record TorrentVerifier : Type := {
  torrent_path : str;
  torrent_data : option value;
  info : option value;
  info_hash : option str;
  files : list file_info.t;
  total_size : value
}.

(** [TorrentVerifier(torrent_path)] *)
Definition __init__ (torrent_path : str) : TorrentVerifier :=
  {| torrent_path := torrent_path;
     torrent_data := None;
     info := None;
     info_hash := None;
     files := [];
     total_size := VInt 0 |}.

Definition set_torrent_data (v : option value) (self : TorrentVerifier) :=
  {| torrent_path := torrent_path self; torrent_data := v;
     info := info self; info_hash := info_hash self;
     files := files self; total_size := total_size self |}.

Definition set_info (v : option value) (self : TorrentVerifier) :=
  {| torrent_path := torrent_path self; torrent_data := torrent_data self;
     info := v; info_hash := info_hash self;
     files := files self; total_size := total_size self |}.

Definition set_info_hash (h : option str) (self : TorrentVerifier) :=
  {| torrent_path := torrent_path self; torrent_data := torrent_data self;
     info := info self; info_hash := h;
     files := files self; total_size := total_size self |}.

Definition files_append (f : file_info.t) (self : TorrentVerifier) :=
  {| torrent_path := torrent_path self; torrent_data := torrent_data self;
     info := info self; info_hash := info_hash self;
     files := files self ++ [f]; total_size := total_size self |}.

Definition set_total_size (v : value) (self : TorrentVerifier) :=
  {| torrent_path := torrent_path self; torrent_data := torrent_data self;
     info := info self; info_hash := info_hash self;
     files := files self; total_size := v |}.

(** Methods run on [self] and may raise after having changed it. *)
Definition meth (A : Type) : Type :=
  TorrentVerifier -> res A * TorrentVerifier.

Definition ret {A : Type} (a : A) : meth A := fun self => (Done a, self).

Definition bind_meth {A B : Type} (m : meth A) (k : A -> meth B) : meth B :=
  fun self =>
    match m self with
    | (Done a, self') => k a self'
    | (Raise e, self') => (Raise e, self')
    | (Hang, self') => (Hang, self')
    end.

Definition lift {A : Type} (r : res A) : meth A := fun self => (r, self).
Definition read {A : Type} (f : TorrentVerifier -> A) : meth A :=
  fun self => (Done (f self), self).
Definition update (f : TorrentVerifier -> TorrentVerifier) : meth unit :=
  fun self => (Done tt, f self).

(** [try: m  except Exception: return a] *)
Definition try_except {A : Type} (m : meth A) (a : A) : meth A :=
  fun self =>
    match m self with
    | (Raise _, self') => (Done a, self')
    | r => r
    end.

Declare Scope meth_scope.
Delimit Scope meth_scope with meth.
Notation "x <- m ;; k" := (bind_meth m (fun x => k))
  (at level 61, m at next level, right associativity) : meth_scope.
Notation "m ;; k" := (bind_meth m (fun _ => k))
  (at level 61, right associativity) : meth_scope.

Fixpoint for_each {A : Type} (l : list A) (body : A -> meth unit)
  : meth unit :=
  match l with
  | [] => ret tt
  | a :: r => (body a ;; for_each r body)%meth
  end.

(** [self.info] as an object: [None] supports none of the operations. *)
Definition the (v : option value) : res value :=
  match v with
  | Some w => Done w
  | None => Raise TypeError
  end.

(** The body of the [for] loop over [info[b'files']]. *)
Definition extract_entry (info : value) (base_path : str)
  (file_info : value) : meth unit :=
  (entry <- lift (parts <- py_subscript file_info (b "path") ;;
                  parts <- py_iter parts ;;
                  path_parts <- mapM py_decode parts ;;
                  let full_path := os_path.join base_path path_parts in
                  length <- py_subscript file_info (b "length") ;;
                  piece_length <- py_get info (b "piece length") (VInt 0) ;;
                  Done (file_info.mk full_path length piece_length))%res ;;
   update (files_append entry) ;;
   length <- lift (py_subscript file_info (b "length")) ;;
   total <- read total_size ;;
   total <- lift (py_iadd total length) ;;
   update (set_total_size total))%meth.

Definition _extract_file_info : meth unit :=
  (info <- (fun self => (the (info self), self)) ;;
   has_files <- lift (py_contains info (b "files")) ;;
   if negb has_files then
     (* single-file mode *)
     entry <- lift (name <- py_get info (b "name") (VBytes []) ;;
                    path <- py_decode name ;;
                    length <- py_get info (b "length") (VInt 0) ;;
                    piece_length <- py_get info (b "piece length") (VInt 0) ;;
                    Done (file_info.mk path length piece_length))%res ;;
     update (files_append entry) ;;
     length <- lift (py_get info (b "length") (VInt 0)) ;;
     update (set_total_size length)
   else
     (* multi-file mode *)
     base_path <- lift (name <- py_get info (b "name") (VBytes []) ;;
                        py_decode name)%res ;;
     file_list <-
       lift (fl <- py_subscript info (b "files") ;; py_iter fl)%res ;;
     for_each file_list (extract_entry info base_path))%meth.

(** The three lists of the dict returned by [verify_files_exist]. *)
Module report.
Record missing_t : Type := mk_missing {
  m_path : str;
  m_expected_size : value
}.
Record size_mismatch_t : Type := mk_size_mismatch {
  s_path : str;
  s_expected_size : value;
  s_actual_size : Z
}.
Record valid_t : Type := mk_valid {
  v_path : str;
  v_size : value
}.
Record t : Type := mk {
  missing : list missing_t;
  size_mismatch : list size_mismatch_t;
  valid : list valid_t
}.
End report.

(** The body of the [for] loop of [verify_files_exist] on the results
    collected so far. *)
Definition verify_one (fs : filesystem) (base_dir : str)
  (results : report.t) (file_info : file_info.t) : res report.t :=
  let file_path := os_path.join base_dir [file_info.path file_info] in
  if negb (os_path.exists_ fs file_path) then
    Done (report.mk
            (report.missing results
               ++ [report.mk_missing file_path (file_info.length file_info)])
            (report.size_mismatch results)
            (report.valid results))
  else
    actual_size <- os_path.getsize fs file_path ;;
    if py_ne_int actual_size (file_info.length file_info) then
      Done (report.mk
              (report.missing results)
              (report.size_mismatch results
                 ++ [report.mk_size_mismatch file_path
                       (file_info.length file_info) actual_size])
              (report.valid results))
    else
      Done (report.mk
              (report.missing results)
              (report.size_mismatch results)
              (report.valid results
                 ++ [report.mk_valid file_path
                       (file_info.length file_info)])).

Fixpoint verify_loop (fs : filesystem) (base_dir : str)
  (l : list file_info.t) (results : report.t) : res report.t :=
  match l with
  | [] => Done results
  | file_info :: r =>
      results <- verify_one fs base_dir results file_info ;;
      verify_loop fs base_dir r results
  end.

Definition verify_files_exist (fs : filesystem) (self : TorrentVerifier)
  (base_dir : str) : res report.t :=
  verify_loop fs base_dir (files self) (report.mk [] [] []).

Definition load_torrent_try (fuel : nat) (HAS_BENCODE : option bencodepy)
  (fs : filesystem) : meth bool :=
  (path <- read torrent_path ;;
   if negb (os_path.exists_ fs path) then ret false
   else
     data <- lift (open_read fs path) ;;
     decoded <- lift (match HAS_BENCODE with
                      | Some lib => (v <- bencodepy_decode lib data ;;
                                     Done (Some v))%res
                      | None => _decode_bencode fuel data
                      end) ;;
     update (set_torrent_data decoded) ;;
     match decoded with
     | None => ret false
     | Some torrent_data =>
         if negb (truthy torrent_data) then ret false
         else
           has_info <- lift (py_contains torrent_data (b "info")) ;;
           if negb has_info then ret false
           else
             info <- lift (py_subscript torrent_data (b "info")) ;;
             update (set_info (Some info)) ;;
             info_bencoded <-
               lift (match HAS_BENCODE with
                     | Some lib => bencodepy_encode lib info
                     | None => Done (_encode_bencode info)
                     end) ;;
             update (set_info_hash
                       (Some (hashlib.sha1_hexdigest info_bencoded))) ;;
             _extract_file_info ;;
             ret true
     end)%meth.

Definition load_torrent (fuel : nat) (HAS_BENCODE : option bencodepy)
  (fs : filesystem) : meth bool :=
  try_except (load_torrent_try fuel HAS_BENCODE fs) false.

(** ** Trackers and the magnet link *)

Fixpoint str_eqb (x y : str) : bool :=
  match x, y with
  | [], [] => true
  | c :: x', d :: y' => N.eqb c d && str_eqb x' y'
  | _, _ => false
  end.

(** [s in l] for a list of str *)
Definition str_in (s : str) (l : list str) : bool := existsb (str_eqb s) l.

Fixpoint foldM {A B : Type} (f : B -> A -> res B) (l : list A) (acc : B)
  : res B :=
  match l with
  | [] => Done acc
  | a :: r => acc' <- f acc a ;; foldM f r acc'
  end.

(** The body of the loop over one tracker group. *)
Definition add_tracker (trackers : list str) (tracker : value)
  : res (list str) :=
  if truthy tracker then
    tracker_str <- py_decode tracker ;;
    if negb (str_in tracker_str trackers)
    then Done (trackers ++ [tracker_str])
    else Done trackers
  else Done trackers.

Definition add_tracker_group (trackers : list str) (tracker_group : value)
  : res (list str) :=
  items <- py_iter tracker_group ;;
  foldM add_tracker items trackers.

(** The block that builds [trackers]; [get_tracker_list] and
    [generate_magnet_link] both contain it, word for word. *)
Definition collect_trackers (torrent_data : option value)
  : res (list str) :=
  torrent_data <- the torrent_data ;;
  has_announce <- py_contains torrent_data (b "announce") ;;
  trackers <-
    (if has_announce then
       announce <- py_subscript torrent_data (b "announce") ;;
       if truthy announce then
         s <- py_decode announce ;; Done [s]
       else Done []
     else Done []) ;;
  has_list <- py_contains torrent_data (b "announce-list") ;;
  if has_list then
    groups <- py_subscript torrent_data (b "announce-list") ;;
    groups <- py_iter groups ;;
    foldM add_tracker_group groups trackers
  else Done trackers.

Definition get_tracker_list (self : TorrentVerifier) : res (list str) :=
  collect_trackers (torrent_data self).

Module posixpath.

(** [p.rfind('/')] *)
Fixpoint rfind_sep (p : str) : Z :=
  match p with
  | [] => -1
  | c :: r =>
      let k := rfind_sep r in
      if k >=? 0 then k + 1
      else if N.eqb c os.sep then 0 else -1
  end.

Fixpoint lstrip_sep (p : str) : str :=
  match p with
  | [] => []
  | c :: r => if N.eqb c os.sep then lstrip_sep r else p
  end.

(** [p.rstrip('/')] *)
Definition rstrip_sep (p : str) : str := rev (lstrip_sep (rev p)).

(** [os.path.dirname(p)] *)
Definition dirname (p : str) : str :=
  let i := rfind_sep p + 1 in
  let head := firstn (Z.to_nat i) p in
  if match head with [] => false | _ => true end
     && negb (forallb (N.eqb os.sep) head)
  then rstrip_sep head
  else head.

End posixpath.

Definition generate_magnet_link (self : TorrentVerifier) : res str :=
  match info_hash self with
  | None => Done []
  | Some [] => Done []
  | Some info_hash =>
      let name :=
        match files self with
        | [] => u "unknown"
        | first :: more =>
            let name := file_info.path first in
            match more with
            | [] => name
            | _ :: _ =>
                if existsb (N.eqb os.sep) name
                then posixpath.dirname name else name
            end
        end in
      trackers <- collect_trackers (torrent_data self) ;;
      let magnet := u "magnet:?xt=urn:btih:" ++ info_hash in
      let magnet := magnet ++ (u "&dn=" ++ name) in
      Done (fold_left (fun magnet tracker => magnet ++ (u "&tr=" ++ tracker))
                      (firstn 5 trackers) magnet)
  end.

(** ** Notions used to state the properties *)

(** [x < y] on bytes. *)
Fixpoint bytes_ltb (x y : bytes) : bool :=
  match x, y with
  | _, [] => false
  | [], _ :: _ => true
  | c :: x', d :: y' =>
      if ord c <? ord d then true
      else if ord d <? ord c then false
      else bytes_ltb x' y'
  end.

Fixpoint ascending (l : list bytes) : bool :=
  match l with
  | [] => true
  | k :: r =>
      match r with
      | [] => true
      | k' :: _ => bytes_ltb k k' && ascending r
      end
  end.

Fixpoint distinct (l : list bytes) : bool :=
  match l with
  | [] => true
  | k :: r => negb (existsb (Py.bytes_eqb k) r) && distinct r
  end.

Definition leb_rel (x y : bytes) : Prop := Py.bytes_leb x y = true.

(** The invariant of Python dicts: no key occurs twice, at any depth. *)
Fixpoint well_formed (v : value) : bool :=
  match v with
  | VInt _ | VBytes _ => true
  | VList l => forallb well_formed l
  | VDict d =>
      distinct (dict_keys d) && forallb (fun kv => well_formed (snd kv)) d
  end.

(** A value is in canonical form when every dictionary in it lists its
    keys in strictly ascending byte order. *)
Fixpoint canonical (v : value) : bool :=
  match v with
  | VInt _ | VBytes _ => true
  | VList l => forallb canonical l
  | VDict d =>
      ascending (dict_keys d) && forallb (fun kv => canonical (snd kv)) d
  end.

(** The bencode grammar, written out for a value in canonical form:
    [i<digits>e], [<length>:<bytes>], [l<value>*e], [d(<key><value>)*e],
    decimal numbers without leading zeros and without [-0]. *)
Fixpoint canonical_encoding (v : value) : bytes :=
  match v with
  | VInt n => b "i" ++ Py.str_int n ++ b "e"
  | VBytes s => Py.str_int (len s) ++ b ":" ++ s
  | VList l => b "l" ++ concat (map canonical_encoding l) ++ b "e"
  | VDict d =>
      b "d"
        ++ concat (map (fun kv => (Py.str_int (len (fst kv)) ++ b ":"
                                     ++ fst kv)
                                    ++ canonical_encoding (snd kv)) d)
        ++ b "e"
  end.

(** Fuel that suffices to decode the encoding of a value. *)
Fixpoint size (v : value) : nat :=
  match v with
  | VInt _ | VBytes _ => 1
  | VList l => 2 + fold_right (fun x n => 1 + size x + n) 0 l
  | VDict d => 2 + fold_right (fun kv n => 1 + size (snd kv) + n) 0 d
  end%nat.

(** Fuel for the loop of [decode_list] or [decode_dict] over the items. *)
Definition loop_size {A : Type} (item : A -> value) (l : list A) : nat :=
  (1 + fold_right (fun x n => 1 + size (item x) + n) 0 l)%nat.

(** The encoding of [v], wherever it stands in a buffer, decodes to [v]
    and leaves the cursor right behind it. *)
Definition decodes_in_place (v : value) : Prop :=
  forall (pre rest : bytes) (fuel : nat),
    (size v <= fuel)%nat ->
    decode fuel (pre ++ canonical_encoding v ++ rest) (len pre)
    = Done (v, len pre + len (canonical_encoding v)).

(** The items of a dictionary as they stand in its encoding. *)
Definition encode_item (kv : bytes * value) : bytes :=
  (Py.str_int (len (fst kv)) ++ b ":" ++ fst kv)
    ++ canonical_encoding (snd kv).

(** What may follow the last item of a list or dictionary for its loop to
    stop: the closing [e], or the end of the buffer. *)
Definition closes (rest : bytes) : Prop :=
  rest = [] \/ exists r, rest = "e"%byte :: r.

(** Decoding followed by re-encoding; [_encode_bencode(None)] raises. *)
Definition reencode (fuel : nat) (data : bytes) : res bytes :=
  r <- _decode_bencode fuel data ;;
  match r with
  | Some v => Done (_encode_bencode v)
  | None => Raise TypeError
  end.

Fixpoint all2 {A : Type} (p : A -> A -> bool) (l l' : list A) : bool :=
  match l, l' with
  | [], [] => true
  | x :: r, y :: r' => p x y && all2 p r r'
  | _, _ => false
  end.

(** Python's [==] on decoded values: dictionaries are equal when they have
    the same keys with equal values, whatever the insertion order. *)
Fixpoint py_eq (v w : value) : bool :=
  match v, w with
  | VInt n, VInt m => n =? m
  | VBytes s, VBytes t => Py.bytes_eqb s t
  | VList l, VList l' => all2 py_eq l l'
  | VDict d, VDict d' =>
      (List.length d =? List.length d')%nat &&
      forallb (fun kv => match dict_get d' (fst kv) with
                         | Some y => py_eq (snd kv) y
                         | None => false
                         end) d
  | _, _ => false
  end.

(** A decimal digit, and the number a digit sequence denotes. *)
Definition is_digit (c : byte) : bool := (48 <=? ord c) && (ord c <=? 57).

Fixpoint uint_val (d : Decimal.uint) (acc : Z) : Z :=
  match d with
  | Decimal.Nil => acc
  | Decimal.D0 r => uint_val r (10 * acc + 0)
  | Decimal.D1 r => uint_val r (10 * acc + 1)
  | Decimal.D2 r => uint_val r (10 * acc + 2)
  | Decimal.D3 r => uint_val r (10 * acc + 3)
  | Decimal.D4 r => uint_val r (10 * acc + 4)
  | Decimal.D5 r => uint_val r (10 * acc + 5)
  | Decimal.D6 r => uint_val r (10 * acc + 6)
  | Decimal.D7 r => uint_val r (10 * acc + 7)
  | Decimal.D8 r => uint_val r (10 * acc + 8)
  | Decimal.D9 r => uint_val r (10 * acc + 9)
  end.

(** The sum of the [length] fields, when they are all integers. *)
Fixpoint sum_lengths (l : list file_info.t) : option Z :=
  match l with
  | [] => Some 0
  | f :: r =>
      match file_info.length f, sum_lengths r with
      | VInt n, Some m => Some (n + m)
      | _, _ => None
      end
  end.

(** How [verify_files_exist] classifies one entry. *)
Inductive verdict : Type := Missing | SizeMismatch (actual : Z) | Valid.

Definition classify (fs : filesystem) (base_dir : str) (f : file_info.t)
  : verdict :=
  match os.stat fs (os_path.join base_dir [file_info.path f]) with
  | Done n => if py_ne_int n (file_info.length f)
              then SizeMismatch n else Valid
  | _ => Missing
  end.

Definition is_missing (v : verdict) : bool :=
  match v with Missing => true | _ => false end.
Definition is_size_mismatch (v : verdict) : bool :=
  match v with SizeMismatch _ => true | _ => false end.
Definition is_valid (v : verdict) : bool :=
  match v with Valid => true | _ => false end.

(** The three lists a pass over [l] adds to the report, in the order of
    [l]. *)
Definition missing_of (fs : filesystem) (base_dir : str)
  (l : list file_info.t) : list report.missing_t :=
  map (fun f => report.mk_missing (os_path.join base_dir [file_info.path f])
                                  (file_info.length f))
      (filter (fun f => is_missing (classify fs base_dir f)) l).

Definition size_mismatch_of (fs : filesystem) (base_dir : str)
  (l : list file_info.t) : list report.size_mismatch_t :=
  flat_map (fun f => match classify fs base_dir f with
                     | SizeMismatch n =>
                         [report.mk_size_mismatch
                            (os_path.join base_dir [file_info.path f])
                            (file_info.length f) n]
                     | _ => []
                     end) l.

Definition valid_of (fs : filesystem) (base_dir : str)
  (l : list file_info.t) : list report.valid_t :=
  map (fun f => report.mk_valid (os_path.join base_dir [file_info.path f])
                                (file_info.length f))
      (filter (fun f => is_valid (classify fs base_dir f)) l).

(** An entry is listed in a sequence of the report. *)
Definition in_missing (r : report.t) (base_dir : str) (f : file_info.t)
  : Prop :=
  In (report.mk_missing (os_path.join base_dir [file_info.path f])
                        (file_info.length f)) (report.missing r).

Definition in_size_mismatch (r : report.t) (base_dir : str)
  (f : file_info.t) : Prop :=
  exists n,
    In (report.mk_size_mismatch (os_path.join base_dir [file_info.path f])
                                (file_info.length f) n)
       (report.size_mismatch r).

Definition in_valid (r : report.t) (base_dir : str) (f : file_info.t)
  : Prop :=
  In (report.mk_valid (os_path.join base_dir [file_info.path f])
                      (file_info.length f)) (report.valid r).

Definition report_size (r : report.t) : nat :=
  (List.length (report.missing r) + List.length (report.size_mismatch r)
   + List.length (report.valid r))%nat.

(** [d.get(k, default)] on the association list. *)
Definition get_default (d : dict value) (k : bytes) (default : value)
  : value :=
  match dict_get d k with
  | Some w => w
  | None => default
  end.

(** [total_size] is the sum of the [length] fields of [files]. *)
Definition total_is_sum (self : TorrentVerifier) : Prop :=
  exists n, sum_lengths (files self) = Some n /\ total_size self = VInt n.

(** Two states of the verifier that differ at most in [files] and
    [total_size]. *)
Definition same_torrent (self self' : TorrentVerifier) : Prop :=
  torrent_path self' = torrent_path self /\
  torrent_data self' = torrent_data self /\
  info self' = info self /\
  info_hash self' = info_hash self.

(** The state in which [load_torrent] calls [_extract_file_info]. *)
Definition loaded (root info : value) (info_bencoded : bytes)
  (self : TorrentVerifier) : TorrentVerifier :=
  set_info_hash (Some (hashlib.sha1_hexdigest info_bencoded))
    (set_info (Some info) (set_torrent_data (Some root) self)).

(** The dictionary that assigning the items one after the other builds. *)
Definition assign_all {V : Type} (items : list (bytes * V)) (acc : dict V)
  : dict V :=
  fold_left (fun acc kv => dict_set acc (fst kv) (snd kv)) items acc.

(** What the items of an encoding build: here a [VDict] stands for the
    sequence of items as written, in which a key may occur twice. *)
Fixpoint rebuilt (v : value) : value :=
  match v with
  | VInt _ | VBytes _ => v
  | VList l => VList (map rebuilt l)
  | VDict d =>
      VDict (assign_all (map (fun kv => (fst kv, rebuilt (snd kv))) d) [])
  end.

(** [v], wherever its encoding stands in a buffer, decodes to [w]. *)
Definition decodes_to (v w : value) : Prop :=
  forall (pre rest : bytes) (fuel : nat),
    (size v <= fuel)%nat ->
    decode fuel (pre ++ canonical_encoding v ++ rest) (len pre)
    = Done (w, len pre + len (canonical_encoding v)).

(** The items of a dictionary sorted by key. *)
Fixpoint insert_item (kv : bytes * value) (l : dict value) : dict value :=
  match l with
  | [] => [kv]
  | kv' :: r =>
      if Py.bytes_leb (fst kv) (fst kv') then kv :: l
      else kv' :: insert_item kv r
  end.

Fixpoint sort_items (l : dict value) : dict value :=
  match l with
  | [] => []
  | kv :: r => insert_item kv (sort_items r)
  end.

(** The value with every dictionary in ascending key order. *)
Fixpoint normalize (v : value) : value :=
  match v with
  | VInt _ | VBytes _ => v
  | VList l => VList (map normalize l)
  | VDict d =>
      VDict (sort_items (map (fun kv => (fst kv, normalize (snd kv))) d))
  end.

(** A list of str without its repetitions, in first-seen order. *)
Definition dedup_onto (acc : list str) (l : list str) : list str :=
  fold_left (fun acc s => if str_in s acc then acc else acc ++ [s]) l acc.

Definition dedup (l : list str) : list str := dedup_onto [] l.

(** A lowercase hexadecimal digit. *)
Definition is_hex (c : N) : bool :=
  ((48 <=? c) && (c <=? 57) || (97 <=? c) && (c <=? 102))%N.

(** The first bytes [decode] knows: [d], [l], [i] and the digits. *)
Definition is_marker (c : byte) : bool :=
  (ord c =? 100) || (ord c =? 108) || (ord c =? 105) || is_digit c.


(** [e] is the entry that the element [file_info] of [info[b'files']]
    describes under [base_path]. *)
Definition describes (info : value) (base_path : str) (file_info : value)
  (e : file_info.t) : Prop :=
  exists parts n,
    (p <- py_subscript file_info (b "path") ;;
     p <- py_iter p ;; mapM py_decode p) = Done parts /\
    file_info.path e = os_path.join base_path parts /\
    py_subscript file_info (b "length") = Done (VInt n) /\
    file_info.length e = VInt n /\
    py_get info (b "piece length") (VInt 0)
    = Done (file_info.piece_length e).

Definition nonempty {A : Type} (l : list A) : bool :=
  match l with [] => false | _ :: _ => true end.

(** ** Sample inputs *)

(** A file system on which every path is refused with "permission
    denied". *)
Definition locked_fs : filesystem :=
  {| fs_stat := fun _ => inl EACCES; fs_read := fun _ => inl EACCES |}.

(** A file system holding one readable torrent file of the given content
    and nothing else. *)
Definition torrent_fs (path : str) (content : bytes) : filesystem :=
  {| fs_stat := fun p => if list_eq_dec N.eq_dec p path
                         then inr (len content) else inl ENOENT;
     fs_read := fun p => if list_eq_dec N.eq_dec p path
                         then inr content else inl ENOENT |}.

Definition one_entry (path : str) (length : Z) : TorrentVerifier :=
  files_append (file_info.mk path (VInt length) (VInt 0))
               (__init__ (u "x.torrent")).

(** The same single-file torrent with the keys of [info] in the two
    possible orders, and one whose [length] is a byte string. *)
Definition torrent_sorted : bytes := b "d4:infod6:lengthi5e4:name1:aee".
Definition torrent_unsorted : bytes := b "d4:infod4:name1:a6:lengthi5eee".
Definition torrent_text_length : bytes := b "d4:infod6:length3:abc4:name1:aee".

(** [TorrentVerifier(path).load_torrent()] with the fallback codec on a
    file system holding just that torrent. *)
Definition load_sample (content : bytes) : res bool * TorrentVerifier :=
  load_torrent 10 None (torrent_fs (u "x.torrent") content)
               (__init__ (u "x.torrent")).

(** * Properties *)

(** Unfolds the plumbing of methods, so that a run reads as a cascade of
    matches on the results of its steps. *)
Ltac run_meth := unfold bind_meth, lift, read, update, ret, the.

(** ** The model on known values *)

Section KnownValues.

Example int_sign_space_underscore : Py.int (b " +1_0 ") = Done 10.
Proof. reflexivity. Qed.

Example int_leading_zeros : Py.int (b "007") = Done 7.
Proof. reflexivity. Qed.

Example int_empty : Py.int [] = Raise ValueError.
Proof. reflexivity. Qed.

Example int_double_underscore : Py.int (b "1__0") = Raise ValueError.
Proof. reflexivity. Qed.

Example slice_negative : Py.slice (b "abcdef") 4 (-3) = [].
Proof. reflexivity. Qed.

Example find_from : Py.find (b "1:a:b") ":"%byte 2 = 3.
Proof. reflexivity. Qed.

Example sorted_keys :
  Py.sorted [b "name"; b "length"; b "files"] = [b "files"; b "length"; b "name"].
Proof. reflexivity. Qed.

Example sha1_empty :
  hashlib.sha1_hexdigest [] = u "da39a3ee5e6b4b0d3255bfef95601890afd80709".
Proof. vm_compute. reflexivity. Qed.

Example sha1_abc :
  hashlib.sha1_hexdigest (b "abc")
  = u "a9993e364706816aba3e25717850c26c9cd0d89d".
Proof. vm_compute. reflexivity. Qed.

Example sha1_two_blocks :
  hashlib.sha1_hexdigest
    (b "abcdbcdecdefdefgefghfghighijhijkijkljklmklmnlmnomnopnopq")
  = u "84983e441c3bd26ebaae4aa1f95129e5e54670f1".
Proof. vm_compute. reflexivity. Qed.

Example utf8_two_bytes :
  Utf8.decode_ignore [Byte.xc3; Byte.xa9] = [233%N].
Proof. reflexivity. Qed.

Example utf8_ignores_malformed :
  Utf8.decode_ignore [Byte.x41; Byte.xff; Byte.xc3; Byte.x42] = u "AB".
Proof. reflexivity. Qed.

Example join_relative :
  os_path.join (u "pkg") [u "sub"; u "b.bin"] = u "pkg/sub/b.bin".
Proof. reflexivity. Qed.

Example join_absolute : os_path.join (u "pkg") [u "/etc"; u "x"] = u "/etc/x".
Proof. reflexivity. Qed.

Example decode_unsorted_keys :
  _decode_bencode 6 (b "d4:name1:a6:lengthi5ee")
  = Done (Some (VDict [(b "name", VBytes (b "a")); (b "length", VInt 5)])).
Proof. reflexivity. Qed.

Example decode_duplicate_key :
  _decode_bencode 6 (b "d1:ai1e1:bi2e1:ai3ee")
  = Done (Some (VDict [(b "a", VInt 3); (b "b", VInt 2)])).
Proof. reflexivity. Qed.

Example encode_sorts_keys :
  _encode_bencode (VDict [(b "name", VBytes (b "a")); (b "length", VInt 5)])
  = b "d6:lengthi5e4:name1:ae".
Proof. reflexivity. Qed.

(** [decode] hands over to the function of the first byte. *)
Lemma decode_dispatch (fuel : nat) (x : bytes) (i : Z) :
  decode (S fuel) x i =
  if i >=? len x then Raise ValueError
  else
    c <- Py.getitem x i ;;
    if ord c =? ord "d"%byte then decode_dict fuel x i
    else if ord c =? ord "l"%byte then decode_list fuel x i
    else if ord c =? ord "i"%byte then decode_int x i
    else if (48 <=? ord c) && (ord c <=? 57) then decode_string x i
    else Raise ValueError.
Proof. reflexivity. Qed.

End KnownValues.

(** ** Buffers: indexing, slicing and searching *)

Section Buffers.

Lemma len_nonneg {A : Type} (x : list A) : 0 <= len x.
Proof. unfold len. lia. Qed.

Lemma len_app {A : Type} (x y : list A) : len (x ++ y) = len x + len y.
Proof. unfold len. rewrite length_app. lia. Qed.

Lemma len_cons {A : Type} (a : A) (x : list A) : len (a :: x) = 1 + len x.
Proof. unfold len. simpl List.length. lia. Qed.

Lemma len_nil {A : Type} : len (@nil A) = 0.
Proof. reflexivity. Qed.

Lemma ord_inj (c d : byte) : ord c = ord d -> c = d.
Proof.
  unfold ord. intros H. apply N2Z.inj in H.
  assert (E : Some c = Some d)
    by (rewrite <- (Byte.of_to_N c), <- (Byte.of_to_N d), H; reflexivity).
  now inversion E.
Qed.

Lemma byte_eqb_refl (c : byte) : Byte.eqb c c = true.
Proof. now apply Byte.byte_dec_lb. Qed.

Lemma byte_eqb_ord (c d : byte) : Byte.eqb c d = (ord c =? ord d).
Proof.
  destruct (Byte.eqb c d) eqn:E.
  - apply Byte.byte_dec_bl in E. subst. symmetry. apply Z.eqb_refl.
  - symmetry. apply Z.eqb_neq. intros H. apply ord_inj in H. subst.
    rewrite byte_eqb_refl in E. discriminate.
Qed.

Lemma clamp_id (n i : Z) : 0 <= i <= n -> Py.clamp n i = i.
Proof. unfold Py.clamp. intros H. destruct (Z.ltb_spec i 0); lia. Qed.

Lemma to_nat_len {A : Type} (x : list A) : Z.to_nat (len x) = List.length x.
Proof. unfold len. apply Nat2Z.id. Qed.

Lemma getitem_at (pre : bytes) (c : byte) (rest : bytes) :
  Py.getitem (pre ++ c :: rest) (len pre) = Done c.
Proof.
  unfold Py.getitem.
  pose proof (len_nonneg pre) as Hp. pose proof (len_nonneg rest) as Hr.
  destruct (Z.ltb_spec (len pre) 0); [lia|].
  rewrite len_app, len_cons.
  destruct (Z.ltb_spec (len pre) 0); [lia|].
  destruct (Z.leb_spec (len pre + (1 + len rest)) (len pre)); [lia|].
  simpl. rewrite to_nat_len, nth_error_app2 by lia.
  now rewrite Nat.sub_diag.
Qed.

Lemma slice_at (pre mid rest : bytes) :
  Py.slice (pre ++ mid ++ rest) (len pre) (len pre + len mid) = mid.
Proof.
  unfold Py.slice.
  pose proof (len_nonneg pre). pose proof (len_nonneg mid).
  pose proof (len_nonneg rest).
  rewrite !clamp_id by (rewrite !len_app; lia).
  replace (len pre + len mid - len pre) with (len mid) by lia.
  rewrite !to_nat_len, skipn_app, Nat.sub_diag, skipn_all. simpl.
  now rewrite firstn_app, Nat.sub_diag, firstn_all, firstn_O, app_nil_r.
Qed.

Lemma index_of_app (c : byte) (mid rest : bytes) :
  Py.index_of c mid = None ->
  Py.index_of c (mid ++ c :: rest) = Some (List.length mid).
Proof.
  induction mid as [|a mid IH]; simpl.
  - now rewrite byte_eqb_refl.
  - destruct (Byte.eqb a c); [discriminate|].
    destruct (Py.index_of c mid); [discriminate|].
    intros _. now rewrite IH.
Qed.

Lemma find_at (pre mid : bytes) (c : byte) (rest : bytes) :
  Py.index_of c mid = None ->
  Py.find (pre ++ mid ++ c :: rest) c (len pre) = len pre + len mid.
Proof.
  intros H. unfold Py.find.
  pose proof (len_nonneg pre). pose proof (len_nonneg mid).
  pose proof (len_nonneg rest).
  rewrite clamp_id by (rewrite !len_app, len_cons; lia).
  rewrite to_nat_len, skipn_app, Nat.sub_diag, skipn_all. simpl.
  rewrite index_of_app by assumption. reflexivity.
Qed.

Lemma index_of_none (c : byte) (x : bytes) :
  Forall (fun a => a <> c) x -> Py.index_of c x = None.
Proof.
  induction 1 as [|a x Ha _ IH]; simpl; [reflexivity|].
  rewrite IH. destruct (Byte.eqb a c) eqn:E; [|reflexivity].
  apply Byte.byte_dec_bl in E. contradiction.
Qed.

End Buffers.

(** ** Decimal numbers: [int(str(n)) == n] *)

Section Decimal.

Lemma bytes_of_uint_digits (d : Decimal.uint) :
  Forall (fun c => is_digit c = true) (Py.bytes_of_uint d).
Proof. induction d; simpl; constructor; auto. Qed.

Lemma parse_digits_uint (d : Decimal.uint) (acc : Z) :
  Py.parse_digits (Py.bytes_of_uint d) acc false = Some (uint_val d acc).
Proof. revert acc. induction d; intros acc; simpl; auto. Qed.

Lemma uint_val_acc (d : Decimal.uint) (acc : positive) :
  uint_val d (Z.pos acc) = Z.pos (Pos.of_uint_acc d acc).
Proof.
  revert acc. induction d; intros acc; cbn [uint_val Pos.of_uint_acc]; auto;
    rewrite <- IHd; f_equal; lia.
Qed.

Lemma uint_val_of_uint (d : Decimal.uint) : uint_val d 0 = Z.of_uint d.
Proof.
  unfold Z.of_uint.
  induction d; simpl; auto; apply uint_val_acc.
Qed.

Lemma strip_digits (x : bytes) :
  Forall (fun c => Py.is_space c = false) x ->
  Py.rstrip (Py.lstrip x) = x.
Proof.
  intros H.
  assert (L : forall y, Forall (fun c => Py.is_space c = false) y ->
                        Py.lstrip y = y).
  { intros y Hy. destruct Hy as [|c y Hc Hy]; simpl; [reflexivity|].
    now rewrite Hc. }
  rewrite (L x H). unfold Py.rstrip.
  rewrite L by (apply Forall_rev; assumption).
  apply rev_involutive.
Qed.

Lemma digit_not_space (c : byte) : is_digit c = true -> Py.is_space c = false.
Proof.
  unfold is_digit, Py.is_space. intros H.
  apply andb_true_iff in H. destruct H as [H1 H2].
  apply Z.leb_le in H1. apply Z.leb_le in H2.
  destruct (Z.leb_spec 9 (ord c)), (Z.leb_spec (ord c) 13),
    (Z.eqb_spec (ord c) 32); simpl; try reflexivity; lia.
Qed.

Lemma digit_not (c d : byte) :
  is_digit c = true -> is_digit d = false -> Byte.eqb c d = false.
Proof.
  intros Hc Hd. destruct (Byte.eqb c d) eqn:E; [|reflexivity].
  apply Byte.byte_dec_bl in E. subst. congruence.
Qed.

Lemma to_uint_cons (p : positive) :
  exists c r, Py.bytes_of_uint (Pos.to_uint p) = c :: r.
Proof.
  pose proof (DecimalPos.Unsigned.to_uint_nonnil p) as H.
  destruct (Pos.to_uint p); simpl; eauto. contradiction.
Qed.

Lemma int_of_digits (d : Decimal.uint) :
  d <> Decimal.Nil -> Py.int (Py.bytes_of_uint d) = Done (Z.of_uint d).
Proof.
  intros Hd. unfold Py.int.
  pose proof (bytes_of_uint_digits d) as Hdig.
  rewrite strip_digits
    by (eapply Forall_impl; [|exact Hdig]; apply digit_not_space).
  pose proof (parse_digits_uint d 0) as Hp.
  destruct (Py.bytes_of_uint d) as [|c r] eqn:E.
  - destruct d; simpl in E; try discriminate. contradiction.
  - inversion Hdig as [|? ? Hc _]; subst.
    rewrite !(digit_not c) by (assumption || reflexivity).
    rewrite Hp, uint_val_of_uint. f_equal; lia.
Qed.

Lemma int_of_neg_digits (d : Decimal.uint) :
  d <> Decimal.Nil ->
  Py.int ("-"%byte :: Py.bytes_of_uint d) = Done (- Z.of_uint d).
Proof.
  intros Hd. unfold Py.int.
  pose proof (bytes_of_uint_digits d) as Hdig.
  rewrite strip_digits.
  2:{ constructor; [reflexivity|].
      eapply Forall_impl; [|exact Hdig]. apply digit_not_space. }
  pose proof (parse_digits_uint d 0) as Hp.
  change (Byte.eqb "-" "+") with false. change (Byte.eqb "-" "-") with true.
  cbv iota.
  destruct (Py.bytes_of_uint d) as [|c r] eqn:E.
  - destruct d; simpl in E; try discriminate. contradiction.
  - inversion Hdig as [|? ? Hc _]; subst.
    rewrite !(digit_not c) by (assumption || reflexivity).
    rewrite Hp, uint_val_of_uint. f_equal; lia.
Qed.

(** [int(str(n)) == n] *)
Lemma int_str_int (n : Z) : Py.int (Py.str_int n) = Done n.
Proof.
  pose proof (DecimalZ.of_to n) as H. unfold Py.str_int.
  destruct n as [|p|p]; simpl in *.
  - reflexivity.
  - rewrite int_of_digits by apply DecimalPos.Unsigned.to_uint_nonnil.
    f_equal. exact H.
  - rewrite int_of_neg_digits by apply DecimalPos.Unsigned.to_uint_nonnil.
    f_equal. exact H.
Qed.

(** [str] writes numbers in normal form: no leading zero and no [-0]. *)
Lemma str_int_normal (n : Z) :
  Decimal.norm (Z.to_int n) = Z.to_int n /\
  Py.str_int n = match Decimal.norm (Z.to_int n) with
                 | Decimal.Pos d => Py.bytes_of_uint d
                 | Decimal.Neg d => "-"%byte :: Py.bytes_of_uint d
                 end.
Proof.
  assert (E : Decimal.norm (Z.to_int n) = Z.to_int n).
  { rewrite <- (DecimalZ.to_of (Z.to_int n)), DecimalZ.of_to. reflexivity. }
  split; [exact E|]. now rewrite E.
Qed.

(** A decimal literal contains neither [:] nor [e]. *)
Lemma str_int_index_of (n : Z) (c : byte) :
  is_digit c = false -> c <> "-"%byte -> Py.index_of c (Py.str_int n) = None.
Proof.
  intros Hc Hm. apply index_of_none. unfold Py.str_int.
  assert (D : forall d, Forall (fun a => a <> c) (Py.bytes_of_uint d)).
  { intros d. eapply Forall_impl; [|apply bytes_of_uint_digits].
    intros a Ha ->. congruence. }
  destruct (Z.to_int n); [apply D|].
  constructor; [congruence|apply D].
Qed.

(** The literal of a non-negative number starts with a digit. *)
Lemma str_int_nonneg_head (n : Z) :
  0 <= n -> exists c r, Py.str_int n = c :: r /\ is_digit c = true.
Proof.
  intros Hn. unfold Py.str_int. destruct n as [|p|p]; simpl; [| |lia].
  - exists "0"%byte, []. split; reflexivity.
  - destruct (to_uint_cons p) as (c & r & E).
    exists c, r. split; [assumption|].
    pose proof (bytes_of_uint_digits (Pos.to_uint p)) as H.
    rewrite E in H. now inversion H.
Qed.

End Decimal.

(** ** The order on keys and [sorted] *)

Section KeyOrder.

Lemma bytes_eqb_eq (x y : bytes) : Py.bytes_eqb x y = true <-> x = y.
Proof.
  revert y. induction x as [|c x IH]; intros [|d y]; simpl;
    try (split; [discriminate|discriminate]); [tauto|].
  rewrite andb_true_iff, IH. split.
  - intros [H ->]. apply Byte.byte_dec_bl in H. now subst.
  - intros H. inversion H; subst. split; [apply byte_eqb_refl|reflexivity].
Qed.

Lemma bytes_eqb_refl (x : bytes) : Py.bytes_eqb x x = true.
Proof. now apply bytes_eqb_eq. Qed.

Lemma bytes_eqb_neq (x y : bytes) : Py.bytes_eqb x y = false <-> x <> y.
Proof.
  rewrite <- bytes_eqb_eq. destruct (Py.bytes_eqb x y); split; congruence.
Qed.

Ltac order_cases :=
  repeat match goal with
         | |- context [?a <? ?b] => destruct (Z.ltb_spec a b)
         | H : context [?a <? ?b] |- _ => destruct (Z.ltb_spec a b)
         end; try discriminate; try reflexivity; try lia.

Lemma bytes_ltb_irrefl (x : bytes) : bytes_ltb x x = false.
Proof. induction x as [|c x IH]; simpl; [reflexivity|]. now order_cases. Qed.

Lemma bytes_ltb_trans (x y z : bytes) :
  bytes_ltb x y = true -> bytes_ltb y z = true -> bytes_ltb x z = true.
Proof.
  revert y z. induction x as [|c x IH]; intros [|d y] [|e z]; simpl;
    try discriminate; try reflexivity.
  intros H1 H2. order_cases. eapply IH; eassumption.
Qed.

Lemma bytes_ltb_leb (x y : bytes) :
  bytes_ltb x y = true -> Py.bytes_leb x y = true.
Proof.
  revert y. induction x as [|c x IH]; intros [|d y]; simpl;
    try discriminate; try reflexivity.
  intros H. order_cases. now apply IH.
Qed.

Lemma bytes_ltb_neq (x y : bytes) : bytes_ltb x y = true -> x <> y.
Proof. intros H ->. rewrite bytes_ltb_irrefl in H. discriminate. Qed.

Lemma bytes_leb_total (x y : bytes) :
  Py.bytes_leb x y = true \/ Py.bytes_leb y x = true.
Proof.
  revert y. induction x as [|c x IH]; intros [|d y]; simpl; auto.
  order_cases; auto.
Qed.

Lemma bytes_leb_trans (x y z : bytes) :
  Py.bytes_leb x y = true -> Py.bytes_leb y z = true ->
  Py.bytes_leb x z = true.
Proof.
  revert y z. induction x as [|c x IH]; intros [|d y] [|e z]; simpl;
    try discriminate; try reflexivity.
  intros H1 H2. order_cases. eapply IH; eassumption.
Qed.

Lemma bytes_leb_antisym (x y : bytes) :
  Py.bytes_leb x y = true -> Py.bytes_leb y x = true -> x = y.
Proof.
  revert y. induction x as [|c x IH]; intros [|d y]; simpl;
    try discriminate; try reflexivity.
  intros H1 H2. order_cases.
  assert (c = d) by (apply ord_inj; lia). subst. f_equal. now apply IH.
Qed.

Lemma sorted_ascending (l : list bytes) :
  ascending l = true -> Py.sorted l = l.
Proof.
  induction l as [|k r IH]; simpl; [reflexivity|].
  destruct r as [|k' r']; [reflexivity|].
  intros H. apply andb_true_iff in H. destruct H as [H1 H2].
  rewrite IH by assumption. simpl.
  now rewrite bytes_ltb_leb.
Qed.

Lemma ascending_tail (k : bytes) (r : list bytes) :
  ascending (k :: r) = true -> ascending r = true.
Proof.
  simpl. destruct r; [reflexivity|].
  intros H. now apply andb_true_iff in H.
Qed.

Lemma ascending_head_lt (k : bytes) (r : list bytes) :
  ascending (k :: r) = true -> Forall (fun k' => bytes_ltb k k' = true) r.
Proof.
  revert k. induction r as [|k' r IH]; intros k H; constructor.
  - simpl in H. now apply andb_true_iff in H.
  - simpl in H. apply andb_true_iff in H. destruct H as [H1 H2].
    eapply Forall_impl; [|apply IH, H2].
    intros a Ha. eapply bytes_ltb_trans; eassumption.
Qed.

Lemma existsb_eqb_false (k : bytes) (l : list bytes) :
  existsb (Py.bytes_eqb k) l = false <-> ~ In k l.
Proof.
  induction l as [|a l IH]; simpl; [tauto|].
  rewrite orb_false_iff, IH, bytes_eqb_neq. intuition congruence.
Qed.

Lemma distinct_NoDup (l : list bytes) : distinct l = true <-> NoDup l.
Proof.
  induction l as [|k r IH]; simpl.
  - split; [constructor|reflexivity].
  - rewrite andb_true_iff, negb_true_iff, existsb_eqb_false, IH.
    split; [intros []; now constructor|now inversion 1].
Qed.

Lemma ascending_distinct (l : list bytes) :
  ascending l = true -> distinct l = true.
Proof.
  induction l as [|k r IH]; [reflexivity|].
  intros H. cbn [distinct]. apply andb_true_iff. split.
  - apply negb_true_iff, existsb_eqb_false. intros Hin.
    pose proof (ascending_head_lt _ _ H) as F.
    rewrite Forall_forall in F. apply F in Hin.
    rewrite bytes_ltb_irrefl in Hin. discriminate.
  - apply IH. eapply ascending_tail, H.
Qed.

(** [sorted] returns an ordered rearrangement of its argument. *)
Lemma insert_sorted_perm (k : bytes) (l : list bytes) :
  Permutation (k :: l) (Py.insert_sorted k l).
Proof.
  induction l as [|a l IH]; simpl; [reflexivity|].
  destruct (Py.bytes_leb k a); [reflexivity|].
  rewrite perm_swap. now constructor.
Qed.

Lemma sorted_perm (l : list bytes) : Permutation l (Py.sorted l).
Proof.
  induction l as [|k r IH]; simpl; [constructor|].
  rewrite <- insert_sorted_perm. now constructor.
Qed.

Lemma insert_sorted_ordered (k : bytes) (l : list bytes) :
  StronglySorted leb_rel l -> StronglySorted leb_rel (Py.insert_sorted k l).
Proof.
  induction 1 as [|a l Hl IH Ha]; simpl.
  - repeat constructor.
  - destruct (Py.bytes_leb k a) eqn:E.
    + constructor; [now constructor|]. constructor; [exact E|].
      eapply Forall_impl; [|exact Ha].
      intros c Hc. eapply bytes_leb_trans; eassumption.
    + constructor; [assumption|].
      rewrite <- insert_sorted_perm. constructor; [|assumption].
      destruct (bytes_leb_total k a); [congruence|assumption].
Qed.

Lemma sorted_ordered (l : list bytes) : StronglySorted leb_rel (Py.sorted l).
Proof.
  induction l; simpl; [constructor|now apply insert_sorted_ordered].
Qed.

Lemma ordered_perm_unique (l l' : list bytes) :
  StronglySorted leb_rel l -> StronglySorted leb_rel l' ->
  Permutation l l' -> l = l'.
Proof.
  intros Hl. revert l'. induction Hl as [|a l Hl IH Ha]; intros l' Hl' P.
  - apply Permutation_nil in P. now subst.
  - destruct Hl' as [|a' l' Hl' Ha'].
    + apply Permutation_sym, Permutation_nil in P. discriminate.
    + assert (a = a').
      { assert (I1 : In a (a' :: l'))
          by (eapply Permutation_in; [exact P|now left]).
        assert (I2 : In a' (a :: l))
          by (eapply Permutation_in;
              [apply Permutation_sym; exact P|now left]).
        rewrite Forall_forall in Ha, Ha'.
        destruct I1 as [->|I1]; [reflexivity|].
        destruct I2 as [->|I2]; [reflexivity|].
        apply bytes_leb_antisym; [apply Ha, I2|apply Ha', I1]. }
      subst. f_equal. apply IH; [assumption|].
      eapply Permutation_cons_inv, P.
Qed.

(** Sorting forgets the insertion order. *)
Lemma sorted_permutation (l l' : list bytes) :
  Permutation l l' -> Py.sorted l = Py.sorted l'.
Proof.
  intros P. apply ordered_perm_unique; try apply sorted_ordered.
  rewrite <- !sorted_perm. exact P.
Qed.

End KeyOrder.

(** ** Dictionaries *)

Section Dictionaries.

Context {V : Type}.

Lemma dict_get_in (d : dict V) (k : bytes) (v : V) :
  distinct (dict_keys d) = true -> In (k, v) d -> dict_get d k = Some v.
Proof.
  induction d as [|[k' v'] r IH]; simpl; [contradiction|].
  intros H [E|Hin].
  - inversion E; subst. now rewrite bytes_eqb_refl.
  - apply andb_true_iff in H. destruct H as [H1 H2].
    apply negb_true_iff, existsb_eqb_false in H1.
    destruct (Py.bytes_eqb k' k) eqn:E.
    + apply bytes_eqb_eq in E. subst. exfalso. apply H1.
      change k with (fst (k, v)). now apply in_map.
    + now apply IH.
Qed.

Lemma dict_get_some_in (d : dict V) (k : bytes) (v : V) :
  dict_get d k = Some v -> In (k, v) d.
Proof.
  induction d as [|[k' v'] r IH]; simpl; [discriminate|].
  destruct (Py.bytes_eqb k' k) eqn:E.
  - apply bytes_eqb_eq in E. intros H. inversion H; subst. now left.
  - intros H. right. now apply IH.
Qed.

Lemma dict_get_none (d : dict V) (k : bytes) :
  dict_get d k = None <-> ~ In k (dict_keys d).
Proof.
  induction d as [|[k' v'] r IH]; simpl; [tauto|].
  destruct (Py.bytes_eqb k' k) eqn:E.
  - apply bytes_eqb_eq in E. subst. split; [discriminate|tauto].
  - apply bytes_eqb_neq in E. rewrite IH. tauto.
Qed.

(** Storing under a key that is not there appends the item. *)
Lemma dict_set_new (d : dict V) (k : bytes) (v : V) :
  ~ In k (dict_keys d) -> dict_set d k v = d ++ [(k, v)].
Proof.
  induction d as [|[k' v'] r IH]; simpl; [reflexivity|].
  intros H. destruct (Py.bytes_eqb k' k) eqn:E.
  - apply bytes_eqb_eq in E. tauto.
  - rewrite IH by tauto. reflexivity.
Qed.

Lemma dict_set_keys (d : dict V) (k : bytes) (v : V) :
  dict_keys (dict_set d k v) =
  if existsb (Py.bytes_eqb k) (dict_keys d) then dict_keys d
  else dict_keys d ++ [k].
Proof.
  induction d as [|[k' v'] r IH]; simpl; [reflexivity|].
  destruct (Py.bytes_eqb k' k) eqn:E.
  - apply bytes_eqb_eq in E. subst. now rewrite bytes_eqb_refl.
  - assert (E' : Py.bytes_eqb k k' = false).
    { apply bytes_eqb_neq. apply bytes_eqb_neq in E. congruence. }
    rewrite E'. simpl. rewrite IH.
    now destruct (existsb (Py.bytes_eqb k) (dict_keys r)).
Qed.

Lemma distinct_app_one (l : list bytes) (k : bytes) :
  distinct l = true -> ~ In k l -> distinct (l ++ [k]) = true.
Proof.
  rewrite !distinct_NoDup. intros H Hk.
  apply NoDup_rev in H. rewrite <- (rev_involutive (l ++ [k])).
  apply NoDup_rev. rewrite rev_app_distr. simpl.
  constructor; [now rewrite <- in_rev|assumption].
Qed.

(** Storing an item keeps the keys pairwise distinct. *)
Lemma dict_set_distinct (d : dict V) (k : bytes) (v : V) :
  distinct (dict_keys d) = true ->
  distinct (dict_keys (dict_set d k v)) = true.
Proof.
  intros H. rewrite dict_set_keys.
  destruct (existsb (Py.bytes_eqb k) (dict_keys d)) eqn:E; [assumption|].
  apply distinct_app_one; [assumption|]. now apply existsb_eqb_false.
Qed.

Lemma dict_set_in (d : dict V) (k : bytes) (v : V) (kv : bytes * V) :
  In kv (dict_set d k v) -> In kv d \/ kv = (k, v).
Proof.
  induction d as [|[k' v'] r IH]; simpl.
  - intros [<-|[]]. now right.
  - destruct (Py.bytes_eqb k' k) eqn:E.
    + apply bytes_eqb_eq in E. subst. intros [<-|H]; auto.
    + intros [<-|H]; auto. destruct (IH H); auto.
Qed.

End Dictionaries.

(** ** Induction on values *)

Lemma value_induction (P : value -> Prop) :
  (forall n, P (VInt n)) ->
  (forall s, P (VBytes s)) ->
  (forall l, Forall P l -> P (VList l)) ->
  (forall d, Forall (fun kv => P (snd kv)) d -> P (VDict d)) ->
  forall v, P v.
Proof.
  intros Hint Hbytes Hlist Hdict.
  fix IH 1. intros [n|s|l|d].
  - apply Hint.
  - apply Hbytes.
  - apply Hlist. induction l as [|x l IHl]; constructor; [apply IH|exact IHl].
  - apply Hdict. induction d as [|[k x] d IHd]; constructor;
      [apply IH|exact IHd].
Qed.

(** ** The encoder *)

Section Encoder.

(** The loop of [_encode_bencode] over [sorted(obj.keys())], with
    [obj[key]] looked up in [obj]. *)
Lemma _encode_bencode_dict (d : dict value) :
  _encode_bencode (VDict d) =
  b "d"
    ++ concat (map (fun key =>
                      _encode_bencode (VBytes key) ++
                      match dict_get d key with
                      | Some v => _encode_bencode v
                      | None => []
                      end) (Py.sorted (dict_keys d)))
    ++ b "e".
Proof.
  cbn [_encode_bencode]. do 3 f_equal.
  apply map_ext. intros key. unfold encode_bytes. f_equal.
  induction d as [|[k v] r IH]; simpl; [reflexivity|].
  destruct (Py.bytes_eqb k key); [reflexivity|exact IH].
Qed.

Lemma encode_items_in_order (d : dict value) (f : value -> bytes) :
  distinct (dict_keys d) = true ->
  map (fun key => _encode_bencode (VBytes key) ++
                  match dict_get d key with
                  | Some v => f v
                  | None => []
                  end) (dict_keys d)
  = map (fun kv => _encode_bencode (VBytes (fst kv)) ++ f (snd kv)) d.
Proof.
  intros H. unfold dict_keys. rewrite map_map. apply map_ext_in.
  intros [k v] Hin. simpl. now rewrite (dict_get_in d k v).
Qed.

(** On a value in canonical form the encoder writes the grammar out. *)
Lemma _encode_bencode_canonical (v : value) :
  canonical v = true -> _encode_bencode v = canonical_encoding v.
Proof.
  induction v as [n|s|l IH|d IH] using value_induction; intros C.
  - reflexivity.
  - reflexivity.
  - cbn [_encode_bencode canonical_encoding]. do 3 f_equal.
    cbn [canonical] in C. rewrite forallb_forall in C.
    rewrite Forall_forall in IH. apply map_ext_in. intros x Hx. auto.
  - cbn [canonical] in C. apply andb_true_iff in C. destruct C as [A C].
    rewrite _encode_bencode_dict.
    rewrite sorted_ascending by assumption.
    rewrite encode_items_in_order by now apply ascending_distinct.
    cbn [canonical_encoding]. do 3 f_equal.
    rewrite forallb_forall in C. rewrite Forall_forall in IH.
    apply map_ext_in. intros kv Hkv. cbn [_encode_bencode].
    rewrite <- !app_assoc. do 3 f_equal. now apply IH, C.
Qed.

End Encoder.

(** ** The decoder on encoded values *)

Section Decoder.

Lemma decode_int_at (pre : bytes) (n : Z) (rest : bytes) :
  decode_int (pre ++ "i"%byte :: Py.str_int n ++ "e"%byte :: rest) (len pre)
  = Done (VInt n, len pre + 2 + len (Py.str_int n)).
Proof.
  unfold decode_int.
  change (pre ++ "i"%byte :: Py.str_int n ++ "e"%byte :: rest)
    with (pre ++ ["i"%byte] ++ Py.str_int n ++ "e"%byte :: rest).
  rewrite app_assoc.
  replace (len pre + 1) with (len (pre ++ ["i"%byte]))
    by (rewrite len_app; reflexivity).
  rewrite find_at by (apply str_int_index_of; [reflexivity|discriminate]).
  pose proof (len_nonneg (pre ++ ["i"%byte])).
  pose proof (len_nonneg (Py.str_int n)).
  destruct (Z.eqb_spec (len (pre ++ ["i"%byte]) + len (Py.str_int n)) (-1));
    [lia|].
  rewrite slice_at, int_str_int. cbn [bind].
  rewrite len_app. do 2 f_equal. change (len ["i"%byte]) with 1. lia.
Qed.

Lemma decode_string_at (pre s rest : bytes) :
  decode_string (pre ++ Py.str_int (len s) ++ ":"%byte :: s ++ rest)
                (len pre)
  = Done (VBytes s, len pre + len (Py.str_int (len s)) + 1 + len s).
Proof.
  unfold decode_string.
  rewrite find_at by (apply str_int_index_of; [reflexivity|discriminate]).
  pose proof (len_nonneg pre). pose proof (len_nonneg s).
  pose proof (len_nonneg rest).
  pose proof (len_nonneg (Py.str_int (len s))).
  destruct (Z.eqb_spec (len pre + len (Py.str_int (len s))) (-1)); [lia|].
  rewrite slice_at, int_str_int. cbn [bind].
  destruct (Z.gtb_spec (len pre + len (Py.str_int (len s)) + 1 + len s)
              (len (pre ++ Py.str_int (len s) ++ ":"%byte :: s ++ rest))) as [G|G].
  - rewrite !len_app, len_cons, len_app in G. lia.
  - do 2 f_equal.
    replace (pre ++ Py.str_int (len s) ++ ":"%byte :: s ++ rest)
      with ((pre ++ Py.str_int (len s) ++ [":"%byte]) ++ s ++ rest)
      by (now rewrite <- !app_assoc).
    replace (len pre + len (Py.str_int (len s)) + 1)
      with (len (pre ++ Py.str_int (len s) ++ [":"%byte]))
      by (rewrite !len_app, len_cons, len_nil; lia).
    now rewrite slice_at.
Qed.

(** An encoding starts with its tag, never with [e]. *)
Lemma canonical_encoding_head (v : value) :
  exists c r, canonical_encoding v = c :: r /\ (ord c =? ord "e"%byte) = false.
Proof.
  destruct v as [n|s|l|d]; cbn [canonical_encoding].
  - now exists "i"%byte, (Py.str_int n ++ b "e").
  - destruct (str_int_nonneg_head (len s) (len_nonneg s)) as (c & r & E & D).
    exists c, (r ++ b ":" ++ s). rewrite E. split; [reflexivity|].
    unfold is_digit in D. apply andb_true_iff in D. destruct D as [_ D].
    apply Z.leb_le in D. apply Z.eqb_neq. change (ord "e"%byte) with 101. lia.
  - now exists "l"%byte, (concat (map canonical_encoding l) ++ b "e").
  - now eexists "d"%byte, _.
Qed.

Lemma encode_item_head (kv : bytes * value) :
  exists c r, encode_item kv = c :: r /\ (ord c =? ord "e"%byte) = false.
Proof.
  destruct (canonical_encoding_head (VBytes (fst kv))) as (c & r & E & D).
  exists c, (r ++ canonical_encoding (snd kv)).
  unfold encode_item. cbn [canonical_encoding] in E. now rewrite E.
Qed.

(** The loop of [decode_list] over encoded items. *)
Lemma decode_list_loop_items (l : list value) :
  Forall decodes_in_place l ->
  forall (pre rest : bytes) (acc : list value) (fuel : nat),
    closes rest ->
    (loop_size (fun x => x) l <= fuel)%nat ->
    decode_list_loop fuel
      (pre ++ concat (map canonical_encoding l) ++ rest) (len pre) acc
    = Done (acc ++ l, len pre + len (concat (map canonical_encoding l))).
Proof.
  unfold loop_size.
  induction 1 as [|x l Hx _ IH]; intros pre rest acc fuel Hrest Hfuel;
    (destruct fuel as [|fuel]; [cbn in Hfuel; lia|]);
    cbn [map concat fold_right] in *.
  - cbn [decode_list_loop]. rewrite app_nil_r, Z.add_0_r. cbn [app].
    destruct Hrest as [->|[r ->]].
    + now rewrite app_nil_r, Z.ltb_irrefl.
    + rewrite getitem_at. cbn [bind].
      change (negb (ord "e"%byte =? ord "e"%byte)) with false.
      now destruct (_ <? _).
  - destruct (canonical_encoding_head x) as (c & r & E & D).
    set (tail := concat (map canonical_encoding l)) in *.
    set (buf := pre ++ (canonical_encoding x ++ tail) ++ rest).
    assert (Hbuf : buf = pre ++ canonical_encoding x ++ tail ++ rest)
      by (unfold buf; now rewrite <- app_assoc).
    assert (Hlt : (len pre <? len buf) = true).
    { apply Z.ltb_lt. rewrite Hbuf, E, len_app. cbn [app]. rewrite len_cons.
      pose proof (len_nonneg (r ++ tail ++ rest)). lia. }
    assert (Hget : Py.getitem buf (len pre) = Done c)
      by (rewrite Hbuf, E; apply getitem_at).
    assert (Hdec : decode fuel buf (len pre)
                   = Done (x, len (pre ++ canonical_encoding x)))
      by (rewrite Hbuf, len_app; apply Hx; lia).
    assert (Hloop : decode_list_loop fuel buf
                      (len (pre ++ canonical_encoding x)) (acc ++ [x])
                    = Done ((acc ++ [x]) ++ l,
                            len (pre ++ canonical_encoding x) + len tail)).
    { rewrite Hbuf, app_assoc. apply IH; [assumption|lia]. }
    cbn [decode_list_loop]. rewrite Hlt, Hget. cbn [bind]. rewrite D.
    cbn [negb]. rewrite Hdec. cbn [bind]. rewrite Hloop.
    rewrite <- app_assoc. cbn [app]. rewrite !len_app. do 2 f_equal. lia.
Qed.

(** The loop of [decode_dict] over encoded items with fresh keys. *)
Lemma decode_dict_loop_items (d : dict value) :
  Forall (fun kv => decodes_in_place (snd kv)) d ->
  forall (pre rest : bytes) (acc : dict value) (fuel : nat),
    closes rest ->
    distinct (dict_keys (acc ++ d)) = true ->
    (loop_size snd d <= fuel)%nat ->
    decode_dict_loop fuel
      (pre ++ concat (map encode_item d) ++ rest) (len pre) acc
    = Done (acc ++ d, len pre + len (concat (map encode_item d))).
Proof.
  unfold loop_size.
  induction 1 as [|[k v] d Hv _ IH]; intros pre rest acc fuel Hrest Hk Hfuel;
    (destruct fuel as [|fuel]; [cbn in Hfuel; lia|]);
    cbn [map concat fold_right snd] in *.
  - cbn [decode_dict_loop]. rewrite app_nil_r, Z.add_0_r. cbn [app].
    destruct Hrest as [->|[r ->]].
    + now rewrite app_nil_r, Z.ltb_irrefl.
    + rewrite getitem_at. cbn [bind].
      change (negb (ord "e"%byte =? ord "e"%byte)) with false.
      now destruct (_ <? _).
  - destruct (encode_item_head (k, v)) as (c & r & E & D).
    set (tail := concat (map encode_item d)) in *.
    set (buf := pre ++ (encode_item (k, v) ++ tail) ++ rest).
    set (pre' := pre ++ Py.str_int (len k) ++ ":"%byte :: k).
    assert (Hbuf : buf = pre ++ encode_item (k, v) ++ tail ++ rest)
      by (unfold buf; now rewrite <- app_assoc).
    assert (Hbuf1 : buf = pre ++ Py.str_int (len k) ++ ":"%byte :: k
                            ++ canonical_encoding v ++ tail ++ rest).
    { rewrite Hbuf. unfold encode_item. cbn [fst snd].
      rewrite <- !app_assoc. reflexivity. }
    assert (Hbuf2 : buf = pre' ++ canonical_encoding v ++ tail ++ rest).
    { rewrite Hbuf1. unfold pre'. rewrite <- !app_assoc. reflexivity. }
    assert (Hpre' : len pre + len (Py.str_int (len k)) + 1 + len k = len pre')
      by (unfold pre'; rewrite !len_app, len_cons; lia).
    assert (Hlt : (len pre <? len buf) = true).
    { apply Z.ltb_lt. rewrite Hbuf, E, len_app. cbn [app]. rewrite len_cons.
      pose proof (len_nonneg (r ++ tail ++ rest)). lia. }
    assert (Hget : Py.getitem buf (len pre) = Done c)
      by (rewrite Hbuf, E; apply getitem_at).
    assert (Hkey : decode_string buf (len pre) = Done (VBytes k, len pre'))
      by (rewrite Hbuf1, <- Hpre'; apply decode_string_at).
    assert (Hdec : decode fuel buf (len pre')
                   = Done (v, len (pre' ++ canonical_encoding v)))
      by (rewrite Hbuf2, len_app; apply Hv; lia).
    assert (Hnew : ~ In k (dict_keys acc)).
    { unfold dict_keys in *. rewrite map_app in Hk. cbn [map fst] in Hk.
      apply distinct_NoDup, NoDup_remove_2 in Hk.
      intros Hin. apply Hk, in_or_app. now left. }
    assert (Hloop : decode_dict_loop fuel buf
                      (len (pre' ++ canonical_encoding v)) (acc ++ [(k, v)])
                    = Done ((acc ++ [(k, v)]) ++ d,
                            len (pre' ++ canonical_encoding v) + len tail)).
    { rewrite Hbuf2, app_assoc. apply IH; [assumption| |lia].
      now rewrite <- app_assoc. }
    cbn [decode_dict_loop]. rewrite Hlt, Hget. cbn [bind]. rewrite D.
    cbn [negb]. rewrite Hkey. cbn [bind key_of]. rewrite Hdec. cbn [bind].
    rewrite dict_set_new by assumption. rewrite Hloop.
    rewrite <- app_assoc. cbn [app]. do 2 f_equal.
    rewrite !len_app, <- Hpre'. unfold encode_item. cbn [fst snd].
    rewrite !len_app. change (len (b ":")) with 1. lia.
Qed.

(** Every value in canonical form decodes in place. *)
Lemma canonical_decodes_in_place (v : value) :
  canonical v = true -> decodes_in_place v.
Proof.
  induction v as [n|s|l IH|d IH] using value_induction;
    intros C pre rest fuel Hfuel;
    (destruct fuel as [|fuel]; [cbn in Hfuel; lia|]).
  - cbn [canonical_encoding]. rewrite <- !app_assoc.
    change (pre ++ b "i" ++ Py.str_int n ++ b "e" ++ rest)
      with (pre ++ "i"%byte :: Py.str_int n ++ "e"%byte :: rest).
    cbn [decode]. rewrite getitem_at.
    destruct (Z.geb_spec (len pre)
                (len (pre ++ "i"%byte :: Py.str_int n ++ "e"%byte :: rest)))
      as [G|G].
    { rewrite len_app, len_cons in G.
      pose proof (len_nonneg (Py.str_int n ++ "e"%byte :: rest)). lia. }
    cbn [bind].
    change (ord "i"%byte =? ord "d"%byte) with false.
    change (ord "i"%byte =? ord "l"%byte) with false.
    change (ord "i"%byte =? ord "i"%byte) with true. cbv iota.
    rewrite decode_int_at. do 2 f_equal.
    rewrite !len_app. change (len (b "i")) with 1. change (len (b "e")) with 1.
    lia.
  - cbn [canonical_encoding]. rewrite <- !app_assoc.
    change (pre ++ Py.str_int (len s) ++ b ":" ++ s ++ rest)
      with (pre ++ Py.str_int (len s) ++ ":"%byte :: s ++ rest).
    destruct (str_int_nonneg_head (len s) (len_nonneg s)) as (c & r & E & D).
    cbn [decode].
    assert (Hget : Py.getitem
                     (pre ++ Py.str_int (len s) ++ ":"%byte :: s ++ rest)
                     (len pre) = Done c)
      by (rewrite E; apply getitem_at).
    rewrite Hget.
    destruct (Z.geb_spec (len pre)
                (len (pre ++ Py.str_int (len s) ++ ":"%byte :: s ++ rest)))
      as [G|G].
    { rewrite E, len_app in G. cbn [app] in G. rewrite len_cons in G.
      pose proof (len_nonneg (r ++ ":"%byte :: s ++ rest)). lia. }
    cbn [bind]. unfold is_digit in D. rewrite D.
    apply andb_true_iff in D. destruct D as [D1 D2].
    apply Z.leb_le in D1. apply Z.leb_le in D2.
    change (ord "d"%byte) with 100. change (ord "l"%byte) with 108.
    change (ord "i"%byte) with 105.
    destruct (Z.eqb_spec (ord c) 100); [lia|].
    destruct (Z.eqb_spec (ord c) 108); [lia|].
    destruct (Z.eqb_spec (ord c) 105); [lia|].
    rewrite decode_string_at. do 2 f_equal.
    rewrite !len_app. change (len (b ":")) with 1. lia.
  - cbn [canonical] in C. rewrite forallb_forall in C.
    assert (F : Forall decodes_in_place l).
    { rewrite Forall_forall in *. intros x Hx. apply IH; auto. }
    cbn [canonical_encoding]. set (body := concat (map canonical_encoding l)).
    set (buf := pre ++ (b "l" ++ body ++ b "e") ++ rest).
    assert (Hbuf : buf = (pre ++ b "l") ++ body ++ "e"%byte :: rest)
      by (unfold buf; now rewrite <- !app_assoc).
    assert (Hget : Py.getitem buf (len pre) = Done "l"%byte).
    { unfold buf. rewrite <- !app_assoc. apply getitem_at. }
    assert (Hlen : (len pre >=? len buf) = false).
    { unfold buf. rewrite !len_app. change (len (b "l")) with 1.
      pose proof (len_nonneg body). pose proof (len_nonneg rest).
      pose proof (len_nonneg (b "e")).
      destruct (Z.geb_spec (len pre)
                  (len pre + (1 + (len body + len (b "e")) + len rest)));
        [lia|reflexivity]. }
    assert (Hloop : decode_list_loop fuel buf (len pre + 1) []
                    = Done ([] ++ l, len (pre ++ b "l") + len body)).
    { rewrite Hbuf.
      replace (len pre + 1) with (len (pre ++ b "l"))
        by (rewrite len_app; reflexivity).
      apply decode_list_loop_items; [assumption|right; eauto|].
      cbn [size] in Hfuel. unfold loop_size. lia. }
    cbn [decode]. rewrite Hlen, Hget. cbn [bind].
    change (ord "l"%byte =? ord "d"%byte) with false.
    change (ord "l"%byte =? ord "l"%byte) with true. cbv iota.
    rewrite Hloop. cbn [bind app]. do 2 f_equal.
    rewrite !len_app. change (len (b "l")) with 1. change (len (b "e")) with 1.
    lia.
  - cbn [canonical] in C. apply andb_true_iff in C. destruct C as [A C].
    rewrite forallb_forall in C.
    assert (F : Forall (fun kv => decodes_in_place (snd kv)) d).
    { rewrite Forall_forall in *. intros x Hx. apply IH; auto. }
    change (canonical_encoding (VDict d))
      with (b "d" ++ concat (map encode_item d) ++ b "e").
    set (body := concat (map encode_item d)).
    set (buf := pre ++ (b "d" ++ body ++ b "e") ++ rest).
    assert (Hbuf : buf = (pre ++ b "d") ++ body ++ "e"%byte :: rest)
      by (unfold buf; now rewrite <- !app_assoc).
    assert (Hget : Py.getitem buf (len pre) = Done "d"%byte).
    { unfold buf. rewrite <- !app_assoc. apply getitem_at. }
    assert (Hlen : (len pre >=? len buf) = false).
    { unfold buf. rewrite !len_app. change (len (b "d")) with 1.
      pose proof (len_nonneg body). pose proof (len_nonneg rest).
      pose proof (len_nonneg (b "e")).
      destruct (Z.geb_spec (len pre)
                  (len pre + (1 + (len body + len (b "e")) + len rest)));
        [lia|reflexivity]. }
    assert (Hloop : decode_dict_loop fuel buf (len pre + 1) []
                    = Done ([] ++ d, len (pre ++ b "d") + len body)).
    { rewrite Hbuf.
      replace (len pre + 1) with (len (pre ++ b "d"))
        by (rewrite len_app; reflexivity).
      apply decode_dict_loop_items; [assumption|right; eauto| |].
      - now apply ascending_distinct.
      - cbn [size] in Hfuel. unfold loop_size. lia. }
    cbn [decode]. rewrite Hlen, Hget. cbn [bind].
    change (ord "d"%byte =? ord "d"%byte) with true. cbv iota.
    rewrite Hloop. cbn [bind app]. do 2 f_equal.
    rewrite !len_app. change (len (b "d")) with 1. change (len (b "e")) with 1.
    lia.
Qed.

End Decoder.

(** ** Round trip of the fallback codec *)

Section RoundTrip.

Lemma _decode_bencode_prefix (v : value) (rest : bytes) (fuel : nat) :
  canonical v = true -> (size v <= fuel)%nat ->
  _decode_bencode fuel (canonical_encoding v ++ rest) = Done (Some v).
Proof.
  intros C Hfuel. unfold _decode_bencode.
  pose proof (canonical_decodes_in_place v C [] rest fuel Hfuel) as H.
  cbn [app] in H. change (len []) with 0 in H. now rewrite H.
Qed.

(** A list or dictionary whose closing [e] is missing at the end of the
    buffer decodes to the items read so far. *)
Lemma _decode_bencode_open_list (l : list value) (fuel : nat) :
  canonical (VList l) = true -> (size (VList l) <= fuel)%nat ->
  _decode_bencode fuel (b "l" ++ concat (map canonical_encoding l))
  = Done (Some (VList l)).
Proof.
  intros C Hfuel. cbn [canonical] in C. rewrite forallb_forall in C.
  destruct fuel as [|fuel]; [cbn in Hfuel; lia|].
  assert (F : Forall decodes_in_place l).
  { apply Forall_forall. intros x Hx. apply canonical_decodes_in_place; auto. }
  pose proof (decode_list_loop_items l F (b "l") [] [] fuel) as H.
  rewrite app_nil_r in H. unfold _decode_bencode. cbn [decode].
  change (0 + 1) with (len (b "l")). rewrite H.
  - reflexivity.
  - now left.
  - cbn [size] in Hfuel. unfold loop_size. lia.
Qed.

Lemma _decode_bencode_open_dict (d : dict value) (fuel : nat) :
  canonical (VDict d) = true -> (size (VDict d) <= fuel)%nat ->
  _decode_bencode fuel (b "d" ++ concat (map encode_item d))
  = Done (Some (VDict d)).
Proof.
  intros C Hfuel. cbn [canonical] in C. apply andb_true_iff in C.
  destruct C as [A C]. rewrite forallb_forall in C.
  destruct fuel as [|fuel]; [cbn in Hfuel; lia|].
  assert (F : Forall (fun kv => decodes_in_place (snd kv)) d).
  { apply Forall_forall. intros x Hx. apply canonical_decodes_in_place; auto. }
  pose proof (decode_dict_loop_items d F (b "d") [] [] fuel) as H.
  rewrite app_nil_r in H. unfold _decode_bencode. cbn [decode].
  change (0 + 1) with (len (b "d")). rewrite H.
  - reflexivity.
  - now left.
  - now apply ascending_distinct.
  - cbn [size] in Hfuel. unfold loop_size. lia.
Qed.

(** C1: for every value in canonical form, decoding its canonical encoding
    with the fallback decoder gives the value back, and re-encoding the
    result with the fallback encoder reproduces the bytes exactly. *)
Theorem decode_encode_roundtrip (v : value) (fuel : nat) :
  canonical v = true -> (size v <= fuel)%nat ->
  _decode_bencode fuel (canonical_encoding v) = Done (Some v) /\
  reencode fuel (canonical_encoding v) = Done (canonical_encoding v).
Proof.
  intros C Hfuel.
  pose proof (_decode_bencode_prefix v [] fuel C Hfuel) as H.
  rewrite app_nil_r in H. split; [exact H|].
  unfold reencode. rewrite H. cbn [bind].
  now rewrite _encode_bencode_canonical.
Qed.

Lemma decode_encode_roundtrip_witness :
  let v := VDict [(b "info", VDict [(b "length", VInt 5);
                                    (b "name", VBytes (b "a.txt"));
                                    (b "pieces", VList [VInt (-3)])])] in
  canonical v = true /\ (size v <= 20)%nat /\
  canonical_encoding v
  = b "d4:infod6:lengthi5e4:name5:a.txt6:piecesli-3eeee" /\
  reencode 20 (canonical_encoding v) = Done (canonical_encoding v).
Proof.
  intros v.
  assert (C : canonical v = true) by reflexivity.
  assert (S : (size v <= 20)%nat) by (vm_compute; lia).
  split; [exact C|]. split; [exact S|]. split; [reflexivity|].
  exact (proj2 (decode_encode_roundtrip v 20 C S)).
Defined.

(** C3, as the code has it: [i-0e] is accepted and read as the integer 0
    ([int()] takes [-0]), also inside a list; [5:ab], whose declared
    length overruns the buffer, makes [_decode_bencode] return [None]. *)
Theorem malformed_inputs (fuel : nat) :
  _decode_bencode (S fuel) (b "i-0e") = Done (Some (VInt 0)) /\
  _decode_bencode (S (S (S fuel))) (b "li-0ee") = Done (Some (VList [VInt 0])) /\
  _decode_bencode (S fuel) (b "5:ab") = Done None.
Proof. repeat split. Qed.

(** Negative zero is not a decode failure. *)
Lemma negative_zero_accepted :
  _decode_bencode 1 (b "i-0e") = Done (Some (VInt 0)) /\
  _decode_bencode 1 (b "i-0e") <> Done None.
Proof. split; [reflexivity|discriminate]. Qed.

(** C7, as the code has it: bytes that follow a complete top-level value
    are ignored: [_decode_bencode] drops the end position and returns the
    value. *)
Theorem trailing_bytes_ignored (v : value) (rest : bytes) (fuel : nat) :
  canonical v = true -> (size v <= fuel)%nat ->
  _decode_bencode fuel (canonical_encoding v ++ rest) = Done (Some v).
Proof. apply _decode_bencode_prefix. Qed.

Lemma trailing_bytes_ignored_witness :
  canonical_encoding (VList [VInt 1; VBytes (b "ab")]) ++ b "xyz"
  = b "li1e2:abexyz" /\
  _decode_bencode 6 (b "li1e2:abexyz")
  = Done (Some (VList [VInt 1; VBytes (b "ab")])).
Proof.
  split; [reflexivity|].
  apply (trailing_bytes_ignored (VList [VInt 1; VBytes (b "ab")]) (b "xyz") 6).
  - reflexivity.
  - vm_compute. lia.
Defined.

(** Trailing bytes, an unterminated list and an unterminated dictionary
    all decode to a value. *)
Lemma trailing_and_unterminated_input_decodes :
  _decode_bencode 3 (b "i1exyz") = Done (Some (VInt 1)) /\
  _decode_bencode 3 (b "li1e") = Done (Some (VList [VInt 1])) /\
  _decode_bencode 3 (b "d") = Done (Some (VDict [])).
Proof. repeat split. Qed.

End RoundTrip.

(** ** The verification pass *)

Section Verification.

Variable fs : filesystem.
Variable base_dir : str.

Lemma verify_one_classify (r : report.t) (f : file_info.t) :
  verify_one fs base_dir r f =
  Done (report.mk
          (report.missing r ++ missing_of fs base_dir [f])
          (report.size_mismatch r ++ size_mismatch_of fs base_dir [f])
          (report.valid r ++ valid_of fs base_dir [f])).
Proof.
  unfold verify_one, os_path.exists_, os_path.getsize, missing_of,
    size_mismatch_of, valid_of, classify.
  cbn [filter flat_map map].
  destruct (os.stat fs (os_path.join base_dir [file_info.path f]))
    as [n|e|]; cbn [negb bind is_missing is_valid map app];
    [|rewrite !app_nil_r; reflexivity..].
  destruct (py_ne_int n (file_info.length f));
    cbn [is_missing is_valid map app]; rewrite !app_nil_r; reflexivity.
Qed.

Lemma filter_cons_app {A : Type} (p : A -> bool) (a : A) (l : list A) :
  filter p (a :: l) = filter p [a] ++ filter p l.
Proof. simpl. now destruct (p a). Qed.

Lemma verify_loop_classify (l : list file_info.t) (r : report.t) :
  verify_loop fs base_dir l r =
  Done (report.mk
          (report.missing r ++ missing_of fs base_dir l)
          (report.size_mismatch r ++ size_mismatch_of fs base_dir l)
          (report.valid r ++ valid_of fs base_dir l)).
Proof.
  revert r. induction l as [|f l IH]; intros r.
  - cbn. rewrite !app_nil_r. now destruct r.
  - cbn [verify_loop]. rewrite verify_one_classify. cbn [bind].
    rewrite IH. cbn [report.missing report.size_mismatch report.valid].
    unfold missing_of, valid_of, size_mismatch_of.
    rewrite (filter_cons_app
               (fun f => is_missing (classify fs base_dir f)) f l),
      (filter_cons_app (fun f => is_valid (classify fs base_dir f)) f l).
    rewrite !map_app, <- !app_assoc. cbn [flat_map]. now rewrite app_nil_r.
Qed.

Lemma report_size_classify (l : list file_info.t) :
  (List.length (missing_of fs base_dir l)
   + List.length (size_mismatch_of fs base_dir l)
   + List.length (valid_of fs base_dir l) = List.length l)%nat.
Proof.
  unfold missing_of, size_mismatch_of, valid_of.
  induction l as [|f l IH]; [reflexivity|].
  cbn [filter flat_map]. rewrite length_app.
  destruct (classify fs base_dir f); cbn [is_missing is_valid map List.length];
    rewrite ?length_map in *; cbn [List.length app]; lia.
Qed.

Lemma classify_ext (f g : file_info.t) :
  os_path.join base_dir [file_info.path f]
  = os_path.join base_dir [file_info.path g] ->
  file_info.length f = file_info.length g ->
  classify fs base_dir f = classify fs base_dir g.
Proof. unfold classify. now intros -> ->. Qed.

Lemma in_missing_iff (l : list file_info.t) (f : file_info.t) :
  In f l ->
  In (report.mk_missing (os_path.join base_dir [file_info.path f])
                        (file_info.length f)) (missing_of fs base_dir l)
  <-> classify fs base_dir f = Missing.
Proof.
  intros Hf. unfold missing_of. rewrite in_map_iff. split.
  - intros (g & E & Hg). apply filter_In in Hg. destruct Hg as [Hg Hc].
    inversion E as [[E1 E2]].
    rewrite <- (classify_ext g f E1 E2).
    now destruct (classify fs base_dir g).
  - intros Hc. exists f. split; [reflexivity|].
    apply filter_In. now rewrite Hc.
Qed.

Lemma in_valid_iff (l : list file_info.t) (f : file_info.t) :
  In f l ->
  In (report.mk_valid (os_path.join base_dir [file_info.path f])
                      (file_info.length f)) (valid_of fs base_dir l)
  <-> classify fs base_dir f = Valid.
Proof.
  intros Hf. unfold valid_of. rewrite in_map_iff. split.
  - intros (g & E & Hg). apply filter_In in Hg. destruct Hg as [Hg Hc].
    inversion E as [[E1 E2]].
    rewrite <- (classify_ext g f E1 E2).
    now destruct (classify fs base_dir g).
  - intros Hc. exists f. split; [reflexivity|].
    apply filter_In. now rewrite Hc.
Qed.

Lemma in_size_mismatch_iff (l : list file_info.t) (f : file_info.t)
  (n : Z) :
  In f l ->
  In (report.mk_size_mismatch (os_path.join base_dir [file_info.path f])
                              (file_info.length f) n)
     (size_mismatch_of fs base_dir l)
  <-> classify fs base_dir f = SizeMismatch n.
Proof.
  intros Hf. unfold size_mismatch_of. rewrite in_flat_map. split.
  - intros (g & Hg & Hin).
    destruct (classify fs base_dir g) eqn:Hc; try contradiction.
    destruct Hin as [E|[]]. inversion E as [[E1 E2 E3]].
    rewrite <- (classify_ext g f E1 E2), Hc. now subst.
  - intros Hc. exists f. split; [assumption|]. rewrite Hc. now left.
Qed.

(** C5: the report partitions the entries: the pass returns, the three
    sequences list the entries of each class in descriptor order, their
    lengths add up to the number of entries, and every entry is listed in
    exactly one of them. *)
Theorem verify_files_exist_partition (self : TorrentVerifier) :
  exists r,
    verify_files_exist fs self base_dir = Done r /\
    report.missing r = missing_of fs base_dir (files self) /\
    report.size_mismatch r = size_mismatch_of fs base_dir (files self) /\
    report.valid r = valid_of fs base_dir (files self) /\
    report_size r = List.length (files self) /\
    forall f, In f (files self) ->
      (in_missing r base_dir f /\ ~ in_size_mismatch r base_dir f
       /\ ~ in_valid r base_dir f) \/
      (~ in_missing r base_dir f /\ in_size_mismatch r base_dir f
       /\ ~ in_valid r base_dir f) \/
      (~ in_missing r base_dir f /\ ~ in_size_mismatch r base_dir f
       /\ in_valid r base_dir f).
Proof.
  eexists. split.
  { unfold verify_files_exist. apply verify_loop_classify. }
  cbn [report.missing report.size_mismatch report.valid app].
  repeat (split; [reflexivity|]). split.
  { unfold report_size.
    cbn [report.missing report.size_mismatch report.valid].
    apply report_size_classify. }
  intros f Hf. unfold in_missing, in_size_mismatch, in_valid.
  cbn [report.missing report.size_mismatch report.valid].
  rewrite (in_missing_iff _ _ Hf), (in_valid_iff _ _ Hf).
  assert (M : (exists n,
                 In (report.mk_size_mismatch
                       (os_path.join base_dir [file_info.path f])
                       (file_info.length f) n)
                    (size_mismatch_of fs base_dir (files self)))
              <-> exists n, classify fs base_dir f = SizeMismatch n).
  { split; intros [n H]; exists n;
      now apply (in_size_mismatch_iff (files self) f n Hf). }
  rewrite M.
  destruct (classify fs base_dir f) as [|n|].
  - left. repeat split; [intros [? ?]|]; discriminate.
  - right; left. repeat split; [discriminate|now exists n|discriminate].
  - right; right. repeat split; [discriminate|intros [? ?]; discriminate].
Qed.

(** C4, as the code has it: [os.path.exists] reads every failure of
    [os.stat] as "no such file", so an entry whose path cannot be examined
    (permission denied, name too long, I/O error) is listed under
    [missing]; the pass does not stop there and classifies every entry. *)
Theorem stat_failure_is_missing (self : TorrentVerifier)
  (f : file_info.t) (e : exn) :
  In f (files self) ->
  os.stat fs (os_path.join base_dir [file_info.path f]) = Raise e ->
  exists r,
    verify_files_exist fs self base_dir = Done r /\
    in_missing r base_dir f /\
    report_size r = List.length (files self).
Proof.
  intros Hf Hstat. eexists. split; [|split].
  - unfold verify_files_exist. apply verify_loop_classify.
  - unfold in_missing. cbn [report.missing app].
    apply in_missing_iff; [assumption|].
    unfold classify. now rewrite Hstat.
  - unfold report_size.
    cbn [report.missing report.size_mismatch report.valid app].
    apply report_size_classify.
Qed.

End Verification.

Lemma stat_failure_is_missing_witness :
  os.stat locked_fs (os_path.join (u ".") [u "a.txt"])
  = Raise (OSError EACCES) /\
  exists r,
    verify_files_exist locked_fs (one_entry (u "a.txt") 5) (u ".") = Done r /\
    in_missing r (u ".") (file_info.mk (u "a.txt") (VInt 5) (VInt 0)) /\
    report_size r = 1%nat.
Proof.
  split; [reflexivity|].
  apply (stat_failure_is_missing locked_fs (u ".") (one_entry (u "a.txt") 5)
           (file_info.mk (u "a.txt") (VInt 5) (VInt 0)) (OSError EACCES)).
  - simpl. left. reflexivity.
  - reflexivity.
Defined.

(** An entry that cannot be examined for lack of permission is reported
    as missing, not as a failure of its own. *)
Lemma permission_denied_reported_missing :
  os.stat locked_fs (u "./a.txt") = Raise (OSError EACCES) /\
  verify_files_exist locked_fs (one_entry (u "a.txt") 5) (u ".")
  = Done (report.mk [report.mk_missing (u "./a.txt") (VInt 5)] [] []).
Proof. split; reflexivity. Qed.

(** ** Extraction of the file list *)

Section Extraction.

(** C8: for [files = [{path: [sub, b.bin], length: 10}]] and
    [name = pkg], extraction yields the single entry [pkg/sub/b.bin] of
    expected length 10, and when nothing exists at that path under the
    verification root the entry is reported as missing. *)
Theorem multi_file_example (d fd : dict value) (self : TorrentVerifier)
  (fs : filesystem) (base_dir : str) :
  info self = Some (VDict d) ->
  files self = [] ->
  total_size self = VInt 0 ->
  dict_get d (b "files") = Some (VList [VDict fd]) ->
  dict_get d (b "name") = Some (VBytes (b "pkg")) ->
  dict_get fd (b "path")
  = Some (VList [VBytes (b "sub"); VBytes (b "b.bin")]) ->
  dict_get fd (b "length") = Some (VInt 10) ->
  os_path.exists_ fs (os_path.join base_dir [u "pkg/sub/b.bin"]) = false ->
  exists self',
    _extract_file_info self = (Done tt, self') /\
    files self'
    = [file_info.mk (u "pkg/sub/b.bin") (VInt 10)
                    (get_default d (b "piece length") (VInt 0))] /\
    total_size self' = VInt 10 /\
    verify_files_exist fs self' base_dir
    = Done (report.mk
              [report.mk_missing (os_path.join base_dir [u "pkg/sub/b.bin"])
                                 (VInt 10)]
              [] []).
Proof.
  intros Hinfo Hfiles Htotal Hf Hname Hpath Hlen Hmissing.
  set (entry := file_info.mk (u "pkg/sub/b.bin") (VInt 10)
                  (get_default d (b "piece length") (VInt 0))).
  assert (Hbody : extract_entry (VDict d) (u "pkg") (VDict fd) self
                  = (Done tt, set_total_size (VInt 10)
                                (files_append entry self))).
  { unfold extract_entry. run_meth. cbn [py_subscript py_get].
    rewrite Hpath, Hlen. cbn [bind py_iter mapM py_decode].
    fold (get_default d (b "piece length") (VInt 0)).
    replace (match dict_get d (b "piece length") with
             | Some w => Done w
             | None => Done (VInt 0)
             end) with (Done (get_default d (b "piece length") (VInt 0)))
      by (unfold get_default; now destruct (dict_get d (b "piece length"))).
    cbn [bind total_size files_append]. rewrite Htotal. reflexivity. }
  exists (set_total_size (VInt 10) (files_append entry self)).
  split; [|split; [|split]].
  - unfold _extract_file_info. run_meth. rewrite Hinfo.
    cbn [py_contains]. unfold dict_mem.
    rewrite Hf. cbn [negb py_get bind py_subscript].
    rewrite Hname, Hf. cbn [py_decode bind py_iter for_each].
    change (Utf8.decode_ignore (b "pkg")) with (u "pkg").
    unfold bind_meth. rewrite Hbody. reflexivity.
  - cbn [files set_total_size files_append]. now rewrite Hfiles.
  - reflexivity.
  - unfold verify_files_exist. cbn [files set_total_size files_append].
    rewrite Hfiles. cbn [app verify_loop]. unfold verify_one.
    cbn [file_info.path file_info.length entry]. rewrite Hmissing.
    reflexivity.
Qed.

Lemma multi_file_example_witness :
  let d := [(b "files",
             VList [VDict [(b "length", VInt 10);
                           (b "path", VList [VBytes (b "sub");
                                             VBytes (b "b.bin")])]]);
            (b "name", VBytes (b "pkg"))] in
  let self := set_info (Some (VDict d)) (__init__ (u "x.torrent")) in
  exists self',
    _extract_file_info self = (Done tt, self') /\
    files self' = [file_info.mk (u "pkg/sub/b.bin") (VInt 10) (VInt 0)] /\
    total_size self' = VInt 10 /\
    verify_files_exist locked_fs self' (u ".")
    = Done (report.mk [report.mk_missing (u "./pkg/sub/b.bin") (VInt 10)]
                      [] []).
Proof.
  intros d self.
  apply (multi_file_example d
           [(b "length", VInt 10);
            (b "path", VList [VBytes (b "sub"); VBytes (b "b.bin")])]
           self locked_fs (u ".")); reflexivity.
Defined.

(** C9: in single-file mode no missing key makes the extraction fail: a
    missing [name] gives the empty path, a missing [length] gives expected
    length 0 and [total_size] 0, a missing [piece length] gives 0. *)
Theorem single_file_defaults (d : dict value) (self : TorrentVerifier) :
  info self = Some (VDict d) ->
  dict_get d (b "files") = None ->
  (dict_get d (b "name") = None ->
   _extract_file_info self
   = (Done tt,
      set_total_size (get_default d (b "length") (VInt 0))
        (files_append
           (file_info.mk [] (get_default d (b "length") (VInt 0))
                         (get_default d (b "piece length") (VInt 0)))
           self))) /\
  (dict_get d (b "length") = None ->
   forall name, get_default d (b "name") (VBytes []) = VBytes name ->
   _extract_file_info self
   = (Done tt,
      set_total_size (VInt 0)
        (files_append
           (file_info.mk (Utf8.decode_ignore name) (VInt 0)
                         (get_default d (b "piece length") (VInt 0)))
           self))).
Proof.
  intros Hinfo Hfiles.
  assert (G : forall k dflt,
             match dict_get d k with
             | Some w => Done w
             | None => Done dflt
             end = Done (get_default d k dflt)).
  { intros k dflt. unfold get_default. now destruct (dict_get d k). }
  split.
  - intros Hname. unfold _extract_file_info. run_meth. rewrite Hinfo.
    cbn [py_contains]. unfold dict_mem. rewrite Hfiles. cbn [negb py_get]. rewrite !G.
    unfold get_default at 1. rewrite Hname. reflexivity.
  - intros Hlen name Hname. unfold _extract_file_info. run_meth.
    rewrite Hinfo. cbn [py_contains]. unfold dict_mem. rewrite Hfiles. cbn [negb py_get]. rewrite !G.
    rewrite Hname. unfold get_default at 1 3. rewrite Hlen. reflexivity.
Qed.

Lemma single_file_defaults_witness :
  let self := set_info (Some (VDict [])) (__init__ (u "x.torrent")) in
  _extract_file_info self
  = (Done tt,
     set_total_size (VInt 0)
       (files_append (file_info.mk [] (VInt 0) (VInt 0)) self)).
Proof.
  intros self.
  exact (proj1 (single_file_defaults [] self eq_refl eq_refl) eq_refl).
Defined.

End Extraction.

(** ** Loading a torrent *)

Section Loading.

Lemma same_torrent_refl (self : TorrentVerifier) : same_torrent self self.
Proof. now repeat split. Qed.

Lemma same_torrent_trans (s1 s2 s3 : TorrentVerifier) :
  same_torrent s1 s2 -> same_torrent s2 s3 -> same_torrent s1 s3.
Proof.
  unfold same_torrent. intros (A1 & A2 & A3 & A4) (B1 & B2 & B3 & B4).
  repeat split; congruence.
Qed.

Lemma extract_entry_same_torrent (i : value) (base_path : str)
  (file_info : value) (self self' : TorrentVerifier) (r : res unit) :
  extract_entry i base_path file_info self = (r, self') ->
  same_torrent self self'.
Proof.
  unfold extract_entry. run_meth. intros H.
  repeat match type of H with
         | context [match ?x with Done _ => _ | Raise _ => _ | Hang => _ end]
           => destruct x
         end;
    inversion H; subst; now repeat split.
Qed.

Lemma for_each_same_torrent (body : value -> meth unit) (l : list value) :
  (forall x s s' r, body x s = (r, s') -> same_torrent s s') ->
  forall self self' r,
    for_each l body self = (r, self') -> same_torrent self self'.
Proof.
  intros Hbody. induction l as [|x l IH]; intros self self' r H.
  - inversion H. apply same_torrent_refl.
  - cbn [for_each] in H. unfold bind_meth in H.
    destruct (body x self) as [[[]| |] s1] eqn:E;
      try (inversion H; subst; eapply Hbody; eassumption).
    eapply same_torrent_trans; [eapply Hbody; eassumption|].
    eapply IH; eassumption.
Qed.

(** [_extract_file_info] only touches [files] and [total_size]. *)
Lemma _extract_file_info_same_torrent (self self' : TorrentVerifier)
  (r : res unit) :
  _extract_file_info self = (r, self') -> same_torrent self self'.
Proof.
  unfold _extract_file_info. run_meth. intros H.
  destruct (info self) as [i|]; [|inversion H; apply same_torrent_refl].
  destruct (py_contains i (b "files")) as [[|]| |];
    try (inversion H; apply same_torrent_refl); cbn [negb] in H.
  - destruct (name <- py_get i (b "name") (VBytes []) ;; py_decode name);
      try (inversion H; apply same_torrent_refl).
    destruct (fl <- py_subscript i (b "files") ;; py_iter fl);
      try (inversion H; apply same_torrent_refl).
    eapply for_each_same_torrent; [|exact H].
    intros. eapply extract_entry_same_torrent; eassumption.
  - repeat match type of H with
           | context [match ?x with Done _ => _ | Raise _ => _ | Hang => _ end]
             => destruct x
           end;
      inversion H; subst; now repeat split.
Qed.

Lemma sum_lengths_app (l : list file_info.t) (f : file_info.t) :
  sum_lengths (l ++ [f]) =
  match sum_lengths l, file_info.length f with
  | Some n, VInt m => Some (n + m)
  | _, _ => None
  end.
Proof.
  induction l as [|g l IH]; cbn [app sum_lengths].
  - destruct (file_info.length f); try reflexivity. f_equal. lia.
  - rewrite IH. destruct (file_info.length g); try reflexivity;
      destruct (sum_lengths l); try reflexivity;
      destruct (file_info.length f); try reflexivity.
    f_equal. lia.
Qed.

(** One turn of the loop keeps [total_size] equal to the sum. *)
Lemma extract_entry_sum (i : value) (base_path : str) (file_info : value)
  (self self' : TorrentVerifier) :
  total_is_sum self ->
  extract_entry i base_path file_info self = (Done tt, self') ->
  total_is_sum self'.
Proof.
  intros (n & Hsum & Htot). unfold extract_entry. run_meth. intros H.
  destruct (py_subscript file_info (b "path")) as [parts| |];
    cbn [bind] in H; try discriminate.
  destruct (py_iter parts) as [parts'| |]; cbn [bind] in H; try discriminate.
  destruct (mapM py_decode parts') as [path_parts| |]; cbn [bind] in H;
    try discriminate.
  destruct (py_subscript file_info (b "length")) as [length| |];
    cbn [bind] in H; try discriminate.
  destruct (py_get i (b "piece length") (VInt 0)) as [pl| |];
    cbn [bind] in H; try discriminate.
  cbn [total_size files_append] in H. rewrite Htot in H.
  destruct length as [m| | |]; cbn [py_iadd] in H; try discriminate.
  inversion H; subst. exists (n + m). split; [|reflexivity].
  cbn [files set_total_size files_append].
  now rewrite sum_lengths_app, Hsum.
Qed.

Lemma for_each_sum (i : value) (base_path : str) (l : list value) :
  forall self self',
    total_is_sum self ->
    for_each l (extract_entry i base_path) self = (Done tt, self') ->
    total_is_sum self'.
Proof.
  induction l as [|x l IH]; intros self self' Hs H.
  - inversion H. now subst.
  - cbn [for_each] in H. unfold bind_meth in H.
    destruct (extract_entry i base_path x self) as [[[]| |] s1] eqn:E;
      try discriminate.
    eapply IH; [|exact H]. eapply extract_entry_sum; eassumption.
Qed.

(** What [_extract_file_info] leaves in [files] and [total_size] when it
    starts from the empty list and 0. *)
Lemma _extract_file_info_sum (self self' : TorrentVerifier) (i : value) :
  info self = Some i -> files self = [] -> total_size self = VInt 0 ->
  _extract_file_info self = (Done tt, self') ->
  (exists has_files, py_contains i (b "files") = Done has_files) /\
  (py_contains i (b "files") = Done true -> total_is_sum self') /\
  (py_contains i (b "files") = Done false ->
   exists e, files self' = [e] /\ total_size self' = file_info.length e) /\
  ((fl <- py_subscript i (b "files") ;; py_iter fl) = Done [] ->
   py_contains i (b "files") = Done true ->
   files self' = [] /\ total_size self' = VInt 0).
Proof.
  intros Hinfo Hfiles Htot. unfold _extract_file_info. run_meth.
  rewrite Hinfo. intros H.
  destruct (py_contains i (b "files")) as [[|]| |]; try discriminate;
    cbn [negb] in H.
  - destruct (name <- py_get i (b "name") (VBytes []) ;; py_decode name);
      try discriminate.
    destruct (fl <- py_subscript i (b "files") ;; py_iter fl) as [l| |];
      try discriminate.
    split; [now exists true|]. split; [|split]; try discriminate.
    + intros _. eapply for_each_sum; [|exact H].
      exists 0. now rewrite Hfiles, Htot.
    + intros E _. inversion E; subst. inversion H; subst. now split.
  - split; [now exists false|].
    split; [discriminate|split]; [|discriminate]. intros _.
    destruct (py_get i (b "name") (VBytes [])) as [name| |];
      cbn [bind] in H; try discriminate.
    destruct (py_decode name) as [p| |]; cbn [bind] in H; try discriminate.
    destruct (py_get i (b "length") (VInt 0)) as [length| |];
      cbn [bind] in H; try discriminate.
    destruct (py_get i (b "piece length") (VInt 0)) as [pl| |];
      cbn [bind] in H; try discriminate.
    inversion H; subst. eexists. cbn [files total_size set_total_size
                                       files_append].
    rewrite Hfiles. split; reflexivity.
Qed.

(** A successful [load_torrent] went through every step. *)
Lemma load_torrent_true (fuel : nat) (HAS_BENCODE : option bencodepy)
  (fs : filesystem) (self self' : TorrentVerifier) :
  load_torrent fuel HAS_BENCODE fs self = (Done true, self') ->
  exists data root i info_bencoded,
    os_path.exists_ fs (torrent_path self) = true /\
    open_read fs (torrent_path self) = Done data /\
    match HAS_BENCODE with
    | Some lib => bencodepy_decode lib data = Done root
    | None => _decode_bencode fuel data = Done (Some root)
    end /\
    truthy root = true /\
    py_contains root (b "info") = Done true /\
    py_subscript root (b "info") = Done i /\
    match HAS_BENCODE with
    | Some lib => bencodepy_encode lib i = Done info_bencoded
    | None => info_bencoded = _encode_bencode i
    end /\
    _extract_file_info (loaded root i info_bencoded self) = (Done tt, self').
Proof.
  unfold load_torrent, try_except, load_torrent_try. run_meth. intros H.
  destruct (os_path.exists_ fs (torrent_path self)) eqn:Hex;
    cbn [negb] in H; [|discriminate].
  destruct (open_read fs (torrent_path self)) as [data| |] eqn:Hread;
    try discriminate.
  destruct (match HAS_BENCODE with
            | Some lib => v <- bencodepy_decode lib data ;; Done (Some v)
            | None => _decode_bencode fuel data
            end) as [[root|]| |] eqn:Hdec; try discriminate.
  destruct (truthy root) eqn:Htruthy; cbn [negb] in H; [|discriminate].
  destruct (py_contains root (b "info")) as [[|]| |] eqn:Hcont;
    try discriminate; cbn [negb] in H.
  destruct (py_subscript root (b "info")) as [i| |] eqn:Hsub;
    try discriminate.
  destruct (match HAS_BENCODE with
            | Some lib => bencodepy_encode lib i
            | None => Done (_encode_bencode i)
            end) as [enc| |] eqn:Henc; try discriminate.
  match type of H with
  | context [_extract_file_info ?s] =>
      destruct (_extract_file_info s) as [[[]| |] s1] eqn:Hext;
      try discriminate
  end.
  inversion H; subst.
  exists data, root, i, enc. repeat split; try assumption.
  - destruct HAS_BENCODE as [lib|]; [|assumption].
    destruct (bencodepy_decode lib data); cbn [bind] in Hdec; congruence.
  - destruct HAS_BENCODE as [lib|]; [assumption|congruence].
Qed.

End Loading.

(** ** Order independence of the encoder and of the digest *)

Section OrderIndependence.

Lemma well_formed_dict_get (d : dict value) (k : bytes) (v : value) :
  well_formed (VDict d) = true -> dict_get d k = Some v ->
  well_formed v = true.
Proof.
  cbn [well_formed]. intros H Hget. apply andb_true_iff in H.
  destruct H as [_ H]. rewrite forallb_forall in H.
  apply dict_get_some_in in Hget. exact (H _ Hget).
Qed.

Lemma py_eq_keys (d d' : dict value) :
  well_formed (VDict d) = true ->
  py_eq (VDict d) (VDict d') = true ->
  Permutation (dict_keys d) (dict_keys d').
Proof.
  cbn [well_formed py_eq]. intros Hd H.
  apply andb_true_iff in Hd. destruct Hd as [Hd _].
  apply andb_true_iff in H. destruct H as [Hlen H].
  apply Nat.eqb_eq in Hlen. rewrite forallb_forall in H.
  apply NoDup_Permutation_bis.
  - now apply distinct_NoDup.
  - unfold dict_keys. rewrite !length_map. lia.
  - intros k Hk. unfold dict_keys in Hk. apply in_map_iff in Hk.
    destruct Hk as ([k' v] & <- & Hin). specialize (H _ Hin). cbn [fst] in *.
    destruct (dict_get d' k') as [y|] eqn:E; [|discriminate].
    apply dict_get_some_in in E. unfold dict_keys.
    change k' with (fst (k', y)). now apply in_map.
Qed.

(** Equal values have the same encoding, whatever the insertion order of
    their dictionaries. *)
Lemma py_eq_encode (v : value) :
  forall w,
    well_formed v = true -> well_formed w = true -> py_eq v w = true ->
    _encode_bencode v = _encode_bencode w.
Proof.
  induction v as [n|s|l IH|d IH] using value_induction;
    intros [m|t|l'|d'] Wv Ww E; cbn [py_eq] in E; try discriminate.
  - apply Z.eqb_eq in E. now subst.
  - apply bytes_eqb_eq in E. now subst.
  - cbn [_encode_bencode]. do 3 f_equal.
    cbn [well_formed] in Wv, Ww. revert l' Ww E.
    induction IH as [|x l Hx _ IHl]; intros [|y l'] Ww E;
      cbn [all2] in E; try discriminate; [reflexivity|].
    cbn [forallb] in Wv, Ww.
    apply andb_true_iff in Wv, Ww, E.
    destruct Wv as [Wx Wl], Ww as [Wy Wl'], E as [Exy El].
    cbn [map]. f_equal; [now apply Hx|now apply IHl].
  - pose proof (py_eq_keys d d' Wv E) as P.
    rewrite !_encode_bencode_dict, (sorted_permutation _ _ P).
    do 3 f_equal. apply map_ext_in. intros key Hkey. f_equal.
    assert (Hin : In key (dict_keys d)).
    { eapply Permutation_in; [apply Permutation_sym; exact P|].
      eapply Permutation_in; [apply Permutation_sym, sorted_perm|exact Hkey]. }
    unfold dict_keys in Hin. apply in_map_iff in Hin.
    destruct Hin as ([k v] & Hk & Hin). cbn [fst] in Hk. subst k.
    assert (Hd : distinct (dict_keys d) = true).
    { cbn [well_formed] in Wv. now apply andb_true_iff in Wv. }
    rewrite (dict_get_in d key v Hd Hin).
    cbn [py_eq] in E. apply andb_true_iff in E. destruct E as [_ E].
    rewrite forallb_forall in E. specialize (E _ Hin). cbn [fst snd] in E.
    destruct (dict_get d' key) as [y|] eqn:Ey; [|discriminate].
    rewrite Forall_forall in IH. apply (IH _ Hin); [|eapply well_formed_dict_get; eassumption|assumption].
    cbn [well_formed] in Wv. apply andb_true_iff in Wv. destruct Wv as [_ Wv].
    rewrite forallb_forall in Wv. exact (Wv _ Hin).
Qed.

Lemma dict_set_well_formed (d : dict value) (k : bytes) (v : value) :
  well_formed (VDict d) = true -> well_formed v = true ->
  well_formed (VDict (dict_set d k v)) = true.
Proof.
  cbn [well_formed]. intros H Hv. apply andb_true_iff in H.
  destruct H as [H1 H2]. apply andb_true_iff. split.
  - now apply dict_set_distinct.
  - rewrite forallb_forall in *. intros kv Hin.
    apply dict_set_in in Hin. destruct Hin as [Hin| ->]; auto.
Qed.

(** The decoder only builds dictionaries with pairwise distinct keys. *)
Lemma decode_well_formed (fuel : nat) :
  (forall x i v j, decode fuel x i = Done (v, j) -> well_formed v = true) /\
  (forall x i acc l j,
      forallb well_formed acc = true ->
      decode_list_loop fuel x i acc = Done (l, j) ->
      forallb well_formed l = true) /\
  (forall x i acc d j,
      well_formed (VDict acc) = true ->
      decode_dict_loop fuel x i acc = Done (d, j) ->
      well_formed (VDict d) = true).
Proof.
  induction fuel as [|fuel (IH1 & IH2 & IH3)];
    [repeat split; intros; discriminate|].
  split; [|split].
  - intros x i v j H. cbn [decode] in H.
    destruct (i >=? len x); [discriminate|].
    destruct (Py.getitem x i) as [c| |]; cbn [bind] in H; try discriminate.
    destruct (ord c =? ord "d"%byte).
    { destruct (decode_dict_loop fuel x (i + 1) []) as [[d j']| |] eqn:E;
        cbn [bind] in H; try discriminate.
      inversion H; subst. eapply IH3; [|exact E]. reflexivity. }
    destruct (ord c =? ord "l"%byte).
    { destruct (decode_list_loop fuel x (i + 1) []) as [[l j']| |] eqn:E;
        cbn [bind] in H; try discriminate.
      inversion H; subst. cbn [well_formed]. eapply IH2; [|exact E].
      reflexivity. }
    destruct (ord c =? ord "i"%byte).
    { unfold decode_int in H.
      destruct (Py.find x "e"%byte (i + 1) =? -1); [discriminate|].
      destruct (Py.int _); cbn [bind] in H; try discriminate.
      now inversion H. }
    destruct ((48 <=? ord c) && (ord c <=? 57)); [|discriminate].
    unfold decode_string in H.
    destruct (Py.find x ":"%byte i =? -1); [discriminate|].
    destruct (Py.int _); cbn [bind] in H; try discriminate.
    destruct (_ >? _); [discriminate|]. now inversion H.
  - intros x i acc l j Hacc H. cbn [decode_list_loop] in H.
    destruct (i <? len x); [|inversion H; now subst].
    destruct (Py.getitem x i) as [c| |]; cbn [bind] in H; try discriminate.
    destruct (negb (ord c =? ord "e"%byte)); [|inversion H; now subst].
    destruct (decode fuel x i) as [[item i']| |] eqn:E; cbn [bind] in H;
      try discriminate.
    eapply IH2; [|exact H]. rewrite forallb_app, Hacc. cbn [forallb].
    now rewrite (IH1 _ _ _ _ E).
  - intros x i acc d j Hacc H. cbn [decode_dict_loop] in H.
    destruct (i <? len x); [|inversion H; now subst].
    destruct (Py.getitem x i) as [c| |]; cbn [bind] in H; try discriminate.
    destruct (negb (ord c =? ord "e"%byte)); [|inversion H; now subst].
    destruct (decode_string x i) as [[key i1]| |]; cbn [bind] in H;
      try discriminate.
    destruct (decode fuel x i1) as [[val i2]| |] eqn:E; cbn [bind] in H;
      try discriminate.
    eapply IH3; [|exact H]. apply dict_set_well_formed; [assumption|].
    exact (IH1 _ _ _ _ E).
Qed.

Lemma _decode_bencode_well_formed (fuel : nat) (data : bytes) (v : value) :
  _decode_bencode fuel data = Done (Some v) -> well_formed v = true.
Proof.
  unfold _decode_bencode.
  destruct (decode fuel data 0) as [[r j]| |] eqn:E; try discriminate.
  intros H. inversion H; subst.
  exact (proj1 (decode_well_formed fuel) _ _ _ _ E).
Qed.

(** After a successful load through the fallback codec. *)
Lemma load_torrent_info_hash (fuel : nat) (fs : filesystem)
  (self self' : TorrentVerifier) :
  load_torrent fuel None fs self = (Done true, self') ->
  exists i,
    info self' = Some i /\ well_formed i = true /\
    info_hash self' = Some (hashlib.sha1_hexdigest (_encode_bencode i)).
Proof.
  intros H. apply load_torrent_true in H.
  destruct H as (data & root & i & enc & _ & _ & Hdec & _ & _ & Hsub & -> & Hext).
  apply _extract_file_info_same_torrent in Hext.
  destruct Hext as (_ & _ & Hi & Hh). exists i.
  rewrite Hi, Hh. repeat split.
  apply _decode_bencode_well_formed in Hdec.
  destruct root as [| | |d]; try discriminate. cbn [py_subscript] in Hsub.
  destruct (dict_get d (b "info")) eqn:E; [|discriminate].
  inversion Hsub; subst. eapply well_formed_dict_get; eassumption.
Qed.

(** C2: dictionaries with the same keys and equal values have the same
    encoding whatever their insertion order, and therefore two torrents
    whose [info] dictionaries are equal in this sense get the same
    [info_hash], the SHA-1 of that encoding in lowercase hexadecimal. *)
Theorem info_hash_order_independent :
  (forall d d' : dict value,
      well_formed (VDict d) = true -> well_formed (VDict d') = true ->
      py_eq (VDict d) (VDict d') = true ->
      _encode_bencode (VDict d) = _encode_bencode (VDict d')) /\
  (forall fuel1 fuel2 fs1 fs2 self1 self2 self1' self2' i1 i2,
      load_torrent fuel1 None fs1 self1 = (Done true, self1') ->
      load_torrent fuel2 None fs2 self2 = (Done true, self2') ->
      info self1' = Some i1 -> info self2' = Some i2 ->
      py_eq i1 i2 = true ->
      info_hash self1' = Some (hashlib.sha1_hexdigest (_encode_bencode i1)) /\
      info_hash self2' = info_hash self1').
Proof.
  split.
  - intros d d'. apply py_eq_encode.
  - intros fuel1 fuel2 fs1 fs2 self1 self2 self1' self2' i1 i2 L1 L2 I1 I2 E.
    apply load_torrent_info_hash in L1, L2.
    destruct L1 as (j1 & J1 & W1 & H1), L2 as (j2 & J2 & W2 & H2).
    assert (j1 = i1) by congruence. assert (j2 = i2) by congruence. subst.
    split; [exact H1|]. rewrite H1, H2. do 2 f_equal. symmetry.
    now apply py_eq_encode.
Qed.

End OrderIndependence.

Lemma info_hash_order_independent_witness :
  info (snd (load_sample torrent_unsorted))
  <> info (snd (load_sample torrent_sorted)) /\
  info_hash (snd (load_sample torrent_unsorted))
  = info_hash (snd (load_sample torrent_sorted)) /\
  _encode_bencode (VDict [(b "name", VBytes (b "a")); (b "length", VInt 5)])
  = _encode_bencode (VDict [(b "length", VInt 5); (b "name", VBytes (b "a"))]).
Proof.
  split; [vm_compute; discriminate|]. split.
  - apply (proj2 info_hash_order_independent 10%nat 10%nat
             (torrent_fs (u "x.torrent") torrent_sorted)
             (torrent_fs (u "x.torrent") torrent_unsorted)
             (__init__ (u "x.torrent")) (__init__ (u "x.torrent"))
             (snd (load_sample torrent_sorted))
             (snd (load_sample torrent_unsorted))
             (VDict [(b "length", VInt 5); (b "name", VBytes (b "a"))])
             (VDict [(b "name", VBytes (b "a")); (b "length", VInt 5)]));
      vm_compute; reflexivity.
  - apply (proj1 info_hash_order_independent); vm_compute; reflexivity.
Defined.

(** ** The sum of the lengths and the failure behaviour of [load_torrent] *)

Section LoadTorrent.

Variable fuel : nat.
Variable HAS_BENCODE : option bencodepy.
Variable fs : filesystem.

(** C6, as the code has it: after a successful load of a fresh verifier,
    [total_size] is the sum of the [length] fields whenever these are
    integers.  With a [files] key they always are (and an empty [files]
    list gives no entry and 0); without one there is a single entry and
    [total_size] is the value of its [length] field, of whatever type. *)
Theorem total_size_is_sum (path : str) (self' : TorrentVerifier) :
  load_torrent fuel HAS_BENCODE fs (__init__ path) = (Done true, self') ->
  exists i,
    info self' = Some i /\
    (forall n, sum_lengths (files self') = Some n ->
               total_size self' = VInt n) /\
    (py_contains i (b "files") = Done true -> total_is_sum self') /\
    (py_contains i (b "files") = Done false ->
     exists e, files self' = [e] /\ total_size self' = file_info.length e) /\
    ((fl <- py_subscript i (b "files") ;; py_iter fl) = Done [] ->
     py_contains i (b "files") = Done true ->
     files self' = [] /\ total_size self' = VInt 0).
Proof.
  intros H. apply load_torrent_true in H.
  destruct H as (data & root & i & enc & _ & _ & _ & _ & _ & _ & _ & Hext).
  pose proof (_extract_file_info_same_torrent _ _ _ Hext) as (_ & _ & Hi & _).
  pose proof (_extract_file_info_sum
                (loaded root i enc (__init__ path)) self' i
                eq_refl eq_refl eq_refl Hext)
    as ([has Hhas] & Hmulti & Hsingle & Hempty).
  exists i. split; [exact Hi|].
  split; [|exact (conj Hmulti (conj Hsingle Hempty))].
  intros n Hn. destruct has.
  - destruct (Hmulti Hhas) as (m & Hm & Ht). congruence.
  - destruct (Hsingle Hhas) as (e & He & Ht). rewrite Ht.
    rewrite He in Hn. cbn [sum_lengths] in Hn.
    destruct (file_info.length e); try discriminate.
    inversion Hn. f_equal. lia.
Qed.

(** C10: [load_torrent] never raises: whatever is raised inside is caught
    and makes it return [False]; and it returns [True] only after
    [torrent_data], [info] and [info_hash] were set and
    [_extract_file_info] ran to its end. *)
Theorem load_torrent_catches (self : TorrentVerifier) :
  (forall e, fst (load_torrent fuel HAS_BENCODE fs self) <> Raise e) /\
  (forall e self1,
      load_torrent_try fuel HAS_BENCODE fs self = (Raise e, self1) ->
      load_torrent fuel HAS_BENCODE fs self = (Done false, self1)) /\
  (forall self',
      load_torrent fuel HAS_BENCODE fs self = (Done true, self') ->
      exists root i info_bencoded,
        py_subscript root (b "info") = Done i /\
        match HAS_BENCODE with
        | Some lib => bencodepy_encode lib i = Done info_bencoded
        | None => info_bencoded = _encode_bencode i
        end /\
        _extract_file_info (loaded root i info_bencoded self)
        = (Done tt, self') /\
        torrent_data self' = Some root /\
        info self' = Some i /\
        info_hash self' = Some (hashlib.sha1_hexdigest info_bencoded)).
Proof.
  split; [|split].
  - intros e. unfold load_torrent, try_except.
    destruct (load_torrent_try fuel HAS_BENCODE fs self) as [[| |] s];
      discriminate.
  - intros e self1 H. unfold load_torrent, try_except. now rewrite H.
  - intros self' H. apply load_torrent_true in H.
    destruct H as (data & root & i & enc & _ & _ & _ & _ & _ & Hsub & Henc
                   & Hext).
    pose proof (_extract_file_info_same_torrent _ _ _ Hext)
      as (_ & Hd & Hi & Hh).
    exists root, i, enc. repeat split; assumption.
Qed.

End LoadTorrent.

Lemma total_size_is_sum_witness :
  fst (load_sample torrent_sorted) = Done true /\
  sum_lengths (files (snd (load_sample torrent_sorted))) = Some 5 /\
  total_size (snd (load_sample torrent_sorted)) = VInt 5.
Proof.
  split; [reflexivity|]. split; [reflexivity|].
  destruct (total_size_is_sum 10 None
              (torrent_fs (u "x.torrent") torrent_sorted) (u "x.torrent")
              (snd (load_sample torrent_sorted)) eq_refl)
    as (i & _ & Hsum & _).
  apply Hsum. reflexivity.
Defined.

(** A [length] that is a byte string is taken over as it is: the load
    succeeds and [total_size] is that byte string, not a sum. *)
Lemma total_size_not_a_sum :
  fst (load_sample torrent_text_length) = Done true /\
  total_size (snd (load_sample torrent_text_length)) = VBytes (b "abc") /\
  ~ total_is_sum (snd (load_sample torrent_text_length)).
Proof.
  split; [reflexivity|]. split; [reflexivity|].
  intros (n & H & _). vm_compute in H. discriminate.
Qed.

Lemma load_torrent_catches_witness :
  load_torrent_try 10 None (torrent_fs (u "x.torrent") (b "i5e"))
                   (__init__ (u "x.torrent"))
  = (Raise TypeError,
     set_torrent_data (Some (VInt 5)) (__init__ (u "x.torrent"))) /\
  load_torrent 10 None (torrent_fs (u "x.torrent") (b "i5e"))
               (__init__ (u "x.torrent"))
  = (Done false,
     set_torrent_data (Some (VInt 5)) (__init__ (u "x.torrent"))).
Proof.
  split; [reflexivity|].
  apply (proj1 (proj2 (load_torrent_catches 10 None
                         (torrent_fs (u "x.torrent") (b "i5e"))
                         (__init__ (u "x.torrent")))) TypeError).
  reflexivity.
Defined.

Lemma verify_files_exist_partition_witness :
  exists r,
    verify_files_exist locked_fs (one_entry (u "a.txt") 5) (u ".") = Done r /\
    report_size r = 1%nat /\
    in_missing r (u ".") (file_info.mk (u "a.txt") (VInt 5) (VInt 0)) /\
    ~ in_valid r (u ".") (file_info.mk (u "a.txt") (VInt 5) (VInt 0)).
Proof.
  destruct (verify_files_exist_partition locked_fs (u ".")
              (one_entry (u "a.txt") 5))
    as (r & Hr & _ & _ & _ & Hsize & Hone).
  exists r. split; [exact Hr|]. split; [exact Hsize|].
  destruct (Hone (file_info.mk (u "a.txt") (VInt 5) (VInt 0)))
    as [(A & _ & C)|[(A & B & _)|(A & _ & C)]].
  - left. reflexivity.
  - now split.
  - exfalso. apply A. unfold in_missing.
    vm_compute in Hr. inversion Hr; subst. left. reflexivity.
  - exfalso. apply A. unfold in_missing.
    vm_compute in Hr. inversion Hr; subst. left. reflexivity.
Defined.

(** ** The decoder can loop for ever *)

(** A dictionary key with a negative length moves the cursor backwards;
    on this input [decode_dict] reads the same item again and again, so
    [_decode_bencode] neither returns nor raises, whatever the fuel. *)
Remark decode_dict_loops (fuel : nat) :
  _decode_bencode fuel (b "d1:ai0e-6:") = Hang.
Proof.
  set (x := b "d1:ai0e-6:").
  set (r := [(b "a", VInt 0); ([], VInt 0)]).
  assert (L : forall n, decode_dict_loop n x 7 r = Hang).
  { induction n as [|n IH]; [reflexivity|].
    destruct n as [|n]; [reflexivity|].
    change (decode_dict_loop (S (S n)) x 7 r)
      with (decode_dict_loop (S n) x 7 r). exact IH. }
  unfold _decode_bencode.
  destruct fuel as [|[|[|[|n]]]]; try reflexivity.
  change (decode (S (S (S (S n)))) x 0)
    with ('(d, j) <- decode_dict_loop (S n) x 7 r ;; Done (VDict d, j + 1)).
  now rewrite L.
Qed.

(** * Further properties of the codec *)

(** ** Decoding keeps the order of the items *)

Section InsertionOrder.

Lemma decodes_in_place_to (v : value) : decodes_in_place v -> decodes_to v v.
Proof. intros H. exact H. Qed.

Lemma decode_list_loop_rebuilt (l : list value) :
  Forall (fun x => decodes_to x (rebuilt x)) l ->
  forall (pre rest : bytes) (acc : list value) (fuel : nat),
    closes rest ->
    (loop_size (fun x => x) l <= fuel)%nat ->
    decode_list_loop fuel
      (pre ++ concat (map canonical_encoding l) ++ rest) (len pre) acc
    = Done (acc ++ map rebuilt l,
            len pre + len (concat (map canonical_encoding l))).
Proof.
  unfold loop_size.
  induction 1 as [|x l Hx _ IH]; intros pre rest acc fuel Hrest Hfuel;
    (destruct fuel as [|fuel]; [cbn in Hfuel; lia|]);
    cbn [map concat fold_right] in *.
  - cbn [decode_list_loop]. rewrite app_nil_r, Z.add_0_r. cbn [app].
    destruct Hrest as [->|[r ->]].
    + now rewrite app_nil_r, Z.ltb_irrefl.
    + rewrite getitem_at. cbn [bind].
      change (negb (ord "e"%byte =? ord "e"%byte)) with false.
      now destruct (_ <? _).
  - destruct (canonical_encoding_head x) as (c & r & E & D).
    set (tail := concat (map canonical_encoding l)) in *.
    set (buf := pre ++ (canonical_encoding x ++ tail) ++ rest).
    assert (Hbuf : buf = pre ++ canonical_encoding x ++ tail ++ rest)
      by (unfold buf; now rewrite <- app_assoc).
    assert (Hlt : (len pre <? len buf) = true).
    { apply Z.ltb_lt. rewrite Hbuf, E, len_app. cbn [app]. rewrite len_cons.
      pose proof (len_nonneg (r ++ tail ++ rest)). lia. }
    assert (Hget : Py.getitem buf (len pre) = Done c)
      by (rewrite Hbuf, E; apply getitem_at).
    assert (Hdec : decode fuel buf (len pre)
                   = Done (rebuilt x, len (pre ++ canonical_encoding x)))
      by (rewrite Hbuf, len_app; apply Hx; lia).
    assert (Hloop : decode_list_loop fuel buf
                      (len (pre ++ canonical_encoding x))
                      (acc ++ [rebuilt x])
                    = Done ((acc ++ [rebuilt x]) ++ map rebuilt l,
                            len (pre ++ canonical_encoding x) + len tail)).
    { rewrite Hbuf, app_assoc. apply IH; [assumption|lia]. }
    cbn [decode_list_loop]. rewrite Hlt, Hget. cbn [bind]. rewrite D.
    cbn [negb]. rewrite Hdec. cbn [bind]. rewrite Hloop.
    rewrite <- app_assoc. cbn [app]. rewrite !len_app. do 2 f_equal. lia.
Qed.

Lemma decode_dict_loop_rebuilt (d : dict value) :
  Forall (fun kv => decodes_to (snd kv) (rebuilt (snd kv))) d ->
  forall (pre rest : bytes) (acc : dict value) (fuel : nat),
    closes rest ->
    (loop_size snd d <= fuel)%nat ->
    decode_dict_loop fuel
      (pre ++ concat (map encode_item d) ++ rest) (len pre) acc
    = Done (assign_all (map (fun kv => (fst kv, rebuilt (snd kv))) d) acc,
            len pre + len (concat (map encode_item d))).
Proof.
  unfold loop_size.
  induction 1 as [|[k v] d Hv _ IH]; intros pre rest acc fuel Hrest Hfuel;
    (destruct fuel as [|fuel]; [cbn in Hfuel; lia|]);
    cbn [map concat fold_right snd fst] in *.
  - cbn [decode_dict_loop]. rewrite Z.add_0_r. cbn [app].
    unfold assign_all. cbn [fold_left].
    destruct Hrest as [->|[r ->]].
    + now rewrite app_nil_r, Z.ltb_irrefl.
    + rewrite getitem_at. cbn [bind].
      change (negb (ord "e"%byte =? ord "e"%byte)) with false.
      now destruct (_ <? _).
  - destruct (encode_item_head (k, v)) as (c & r & E & D).
    set (tail := concat (map encode_item d)) in *.
    set (buf := pre ++ (encode_item (k, v) ++ tail) ++ rest).
    set (pre' := pre ++ Py.str_int (len k) ++ ":"%byte :: k).
    assert (Hbuf : buf = pre ++ encode_item (k, v) ++ tail ++ rest)
      by (unfold buf; now rewrite <- app_assoc).
    assert (Hbuf1 : buf = pre ++ Py.str_int (len k) ++ ":"%byte :: k
                            ++ canonical_encoding v ++ tail ++ rest).
    { rewrite Hbuf. unfold encode_item. cbn [fst snd].
      rewrite <- !app_assoc. reflexivity. }
    assert (Hbuf2 : buf = pre' ++ canonical_encoding v ++ tail ++ rest).
    { rewrite Hbuf1. unfold pre'. rewrite <- !app_assoc. reflexivity. }
    assert (Hpre' : len pre + len (Py.str_int (len k)) + 1 + len k = len pre')
      by (unfold pre'; rewrite !len_app, len_cons; lia).
    assert (Hlt : (len pre <? len buf) = true).
    { apply Z.ltb_lt. rewrite Hbuf, E, len_app. cbn [app]. rewrite len_cons.
      pose proof (len_nonneg (r ++ tail ++ rest)). lia. }
    assert (Hget : Py.getitem buf (len pre) = Done c)
      by (rewrite Hbuf, E; apply getitem_at).
    assert (Hkey : decode_string buf (len pre) = Done (VBytes k, len pre'))
      by (rewrite Hbuf1, <- Hpre'; apply decode_string_at).
    assert (Hdec : decode fuel buf (len pre')
                   = Done (rebuilt v, len (pre' ++ canonical_encoding v)))
      by (rewrite Hbuf2, len_app; apply Hv; lia).
    assert (Hloop : decode_dict_loop fuel buf
                      (len (pre' ++ canonical_encoding v))
                      (dict_set acc k (rebuilt v))
                    = Done (assign_all
                              (map (fun kv => (fst kv, rebuilt (snd kv))) d)
                              (dict_set acc k (rebuilt v)),
                            len (pre' ++ canonical_encoding v) + len tail)).
    { rewrite Hbuf2, app_assoc. apply IH; [assumption|lia]. }
    cbn [decode_dict_loop]. rewrite Hlt, Hget. cbn [bind]. rewrite D.
    cbn [negb]. rewrite Hkey. cbn [bind key_of]. rewrite Hdec. cbn [bind].
    rewrite Hloop. unfold assign_all. cbn [fold_left fst snd].
    do 2 f_equal.
    rewrite !len_app, <- Hpre'. unfold encode_item. cbn [fst snd].
    rewrite !len_app. change (len (b ":")) with 1. lia.
Qed.

Lemma rebuilt_decodes (v : value) : decodes_to v (rebuilt v).
Proof.
  induction v as [n|s|l IH|d IH] using value_induction.
  - exact (canonical_decodes_in_place (VInt n) eq_refl).
  - exact (canonical_decodes_in_place (VBytes s) eq_refl).
  - intros pre rest fuel Hfuel.
    destruct fuel as [|fuel]; [cbn in Hfuel; lia|].
    cbn [canonical_encoding]. set (body := concat (map canonical_encoding l)).
    set (buf := pre ++ (b "l" ++ body ++ b "e") ++ rest).
    assert (Hbuf : buf = (pre ++ b "l") ++ body ++ "e"%byte :: rest)
      by (unfold buf; now rewrite <- !app_assoc).
    assert (Hget : Py.getitem buf (len pre) = Done "l"%byte).
    { unfold buf. rewrite <- !app_assoc. apply getitem_at. }
    assert (Hlen : (len pre >=? len buf) = false).
    { unfold buf. rewrite !len_app. change (len (b "l")) with 1.
      pose proof (len_nonneg body). pose proof (len_nonneg rest).
      pose proof (len_nonneg (b "e")).
      destruct (Z.geb_spec (len pre)
                  (len pre + (1 + (len body + len (b "e")) + len rest)));
        [lia|reflexivity]. }
    assert (Hloop : decode_list_loop fuel buf (len pre + 1) []
                    = Done ([] ++ map rebuilt l,
                            len (pre ++ b "l") + len body)).
    { rewrite Hbuf.
      replace (len pre + 1) with (len (pre ++ b "l"))
        by (rewrite len_app; reflexivity).
      apply decode_list_loop_rebuilt; [assumption|right; eauto|].
      cbn [size] in Hfuel. unfold loop_size. lia. }
    cbn [decode]. rewrite Hlen, Hget. cbn [bind].
    change (ord "l"%byte =? ord "d"%byte) with false.
    change (ord "l"%byte =? ord "l"%byte) with true. cbv iota.
    rewrite Hloop. cbn [bind app rebuilt]. do 2 f_equal.
    rewrite !len_app. change (len (b "l")) with 1. change (len (b "e")) with 1.
    lia.
  - intros pre rest fuel Hfuel.
    destruct fuel as [|fuel]; [cbn in Hfuel; lia|].
    change (canonical_encoding (VDict d))
      with (b "d" ++ concat (map encode_item d) ++ b "e").
    set (body := concat (map encode_item d)).
    set (buf := pre ++ (b "d" ++ body ++ b "e") ++ rest).
    assert (Hbuf : buf = (pre ++ b "d") ++ body ++ "e"%byte :: rest)
      by (unfold buf; now rewrite <- !app_assoc).
    assert (Hget : Py.getitem buf (len pre) = Done "d"%byte).
    { unfold buf. rewrite <- !app_assoc. apply getitem_at. }
    assert (Hlen : (len pre >=? len buf) = false).
    { unfold buf. rewrite !len_app. change (len (b "d")) with 1.
      pose proof (len_nonneg body). pose proof (len_nonneg rest).
      pose proof (len_nonneg (b "e")).
      destruct (Z.geb_spec (len pre)
                  (len pre + (1 + (len body + len (b "e")) + len rest)));
        [lia|reflexivity]. }
    assert (Hloop : decode_dict_loop fuel buf (len pre + 1) []
                    = Done (assign_all
                              (map (fun kv => (fst kv, rebuilt (snd kv))) d)
                              [],
                            len (pre ++ b "d") + len body)).
    { rewrite Hbuf.
      replace (len pre + 1) with (len (pre ++ b "d"))
        by (rewrite len_app; reflexivity).
      apply decode_dict_loop_rebuilt; [assumption|right; eauto|].
      cbn [size] in Hfuel. unfold loop_size. lia. }
    cbn [decode]. rewrite Hlen, Hget. cbn [bind].
    change (ord "d"%byte =? ord "d"%byte) with true. cbv iota.
    rewrite Hloop. cbn [bind app rebuilt]. do 2 f_equal.
    rewrite !len_app. change (len (b "d")) with 1. change (len (b "e")) with 1.
    lia.
Qed.

Lemma assign_all_fresh {V : Type} (d acc : dict V) :
  distinct (dict_keys (acc ++ d)) = true -> assign_all d acc = acc ++ d.
Proof.
  revert acc. induction d as [|[k v] d IH]; intros acc H.
  - now rewrite app_nil_r.
  - unfold assign_all. cbn [fold_left fst snd].
    assert (Hnew : ~ In k (dict_keys acc)).
    { unfold dict_keys in *. rewrite map_app in H. cbn [map fst] in H.
      apply distinct_NoDup, NoDup_remove_2 in H.
      intros Hin. apply H, in_or_app. now left. }
    rewrite dict_set_new by assumption.
    change (assign_all d (acc ++ [(k, v)]) = acc ++ (k, v) :: d).
    rewrite IH; rewrite <- app_assoc; [reflexivity|exact H].
Qed.

Lemma rebuilt_well_formed (v : value) :
  well_formed v = true -> rebuilt v = v.
Proof.
  induction v as [n|s|l IH|d IH] using value_induction; intros W;
    try reflexivity; cbn [rebuilt well_formed] in *.
  - f_equal. rewrite forallb_forall in W. rewrite Forall_forall in IH.
    rewrite <- (map_id l) at 2. apply map_ext_in. auto.
  - apply andb_true_iff in W. destruct W as [D W].
    rewrite forallb_forall in W. rewrite Forall_forall in IH.
    assert (E : map (fun kv => (fst kv, rebuilt (snd kv))) d = d).
    { rewrite <- (map_id d) at 2. apply map_ext_in.
      intros [k x] Hin. cbn [fst snd]. f_equal. apply (IH _ Hin), (W _ Hin). }
    rewrite E. f_equal. now apply (assign_all_fresh d []).
Qed.

(** X1: a dictionary whose keys are pairwise distinct but in any order
    decodes to exactly the items as written: the decoder does not ask for
    sorted keys and keeps their order. *)
Theorem decode_keeps_insertion_order (v : value) (rest : bytes)
  (fuel : nat) :
  well_formed v = true -> (size v <= fuel)%nat ->
  _decode_bencode fuel (canonical_encoding v ++ rest) = Done (Some v).
Proof.
  intros W Hfuel. unfold _decode_bencode.
  pose proof (rebuilt_decodes v [] rest fuel Hfuel) as H.
  cbn [app] in H. change (len []) with 0 in H.
  rewrite H. now rewrite rebuilt_well_formed.
Qed.

Lemma decode_keeps_insertion_order_witness :
  _decode_bencode 6 (b "d4:name1:a6:lengthi5ee")
  = Done (Some (VDict [(b "name", VBytes (b "a")); (b "length", VInt 5)])).
Proof.
  apply (decode_keeps_insertion_order
           (VDict [(b "name", VBytes (b "a")); (b "length", VInt 5)]) [] 6).
  - reflexivity.
  - vm_compute. lia.
Defined.

(** X2: an encoding in which a key occurs more than once decodes without
    error to the dictionary that assigning the items in turn builds: the
    key stays where it first stood and holds the value given last. *)
Theorem decode_repeated_keys (v : value) (rest : bytes) (fuel : nat) :
  (size v <= fuel)%nat ->
  _decode_bencode fuel (canonical_encoding v ++ rest)
  = Done (Some (rebuilt v)).
Proof.
  intros Hfuel. unfold _decode_bencode.
  pose proof (rebuilt_decodes v [] rest fuel Hfuel) as H.
  cbn [app] in H. change (len []) with 0 in H. now rewrite H.
Qed.

Lemma decode_repeated_keys_witness :
  _decode_bencode 8 (b "d1:ai1e1:bi2e1:ai3ee")
  = Done (Some (VDict [(b "a", VInt 3); (b "b", VInt 2)])).
Proof.
  apply (decode_repeated_keys
           (VDict [(b "a", VInt 1); (b "b", VInt 2); (b "a", VInt 3)]) [] 8).
  vm_compute. lia.
Defined.

End InsertionOrder.

(** ** What the encoder writes *)

Section Normalisation.

Lemma insert_item_keys (kv : bytes * value) (l : dict value) :
  dict_keys (insert_item kv l) = Py.insert_sorted (fst kv) (dict_keys l).
Proof.
  induction l as [|kv' l IH]; cbn [insert_item dict_keys map Py.insert_sorted];
    [reflexivity|].
  destruct (Py.bytes_leb (fst kv) (fst kv')); cbn [map]; [reflexivity|].
  f_equal. exact IH.
Qed.

Lemma sort_items_keys (d : dict value) :
  dict_keys (sort_items d) = Py.sorted (dict_keys d).
Proof.
  induction d as [|kv d IH]; [reflexivity|].
  cbn [sort_items]. rewrite insert_item_keys, IH. reflexivity.
Qed.

Lemma insert_item_perm (kv : bytes * value) (l : dict value) :
  Permutation (kv :: l) (insert_item kv l).
Proof.
  induction l as [|a l IH]; cbn [insert_item]; [reflexivity|].
  destruct (Py.bytes_leb (fst kv) (fst a)); [reflexivity|].
  rewrite perm_swap. now constructor.
Qed.

Lemma sort_items_perm (d : dict value) : Permutation d (sort_items d).
Proof.
  induction d as [|kv d IH]; cbn [sort_items]; [constructor|].
  rewrite <- insert_item_perm. now constructor.
Qed.

Lemma bytes_leb_ltb (x y : bytes) :
  Py.bytes_leb x y = true -> x <> y -> bytes_ltb x y = true.
Proof.
  revert y. induction x as [|c x IH]; intros [|d y]; simpl;
    try discriminate; try reflexivity; try congruence.
  intros H N.
  destruct (Z.ltb_spec (ord c) (ord d)); [reflexivity|].
  destruct (Z.ltb_spec (ord d) (ord c)); [discriminate|].
  assert (c = d) by (apply ord_inj; lia). subst.
  apply IH; [assumption|congruence].
Qed.

Lemma ordered_distinct_ascending (l : list bytes) :
  StronglySorted leb_rel l -> NoDup l -> ascending l = true.
Proof.
  induction 1 as [|a l Hl IH Ha]; intros N; [reflexivity|].
  inversion N as [|? ? Hnot Nl]; subst.
  destruct l as [|a' l']; [reflexivity|].
  cbn [ascending]. apply andb_true_iff. split; [|now apply IH].
  inversion Ha as [|? ? Haa' _]; subst.
  apply bytes_leb_ltb; [exact Haa'|]. intros ->. apply Hnot. now left.
Qed.

(** Sorted keys that were pairwise distinct are strictly ascending. *)
Lemma sorted_distinct_ascending (l : list bytes) :
  distinct l = true -> ascending (Py.sorted l) = true.
Proof.
  intros D. apply ordered_distinct_ascending; [apply sorted_ordered|].
  eapply Permutation_NoDup; [apply sorted_perm|]. now apply distinct_NoDup.
Qed.

Lemma map_value_keys (f : value -> value) (d : dict value) :
  dict_keys (map (fun kv => (fst kv, f (snd kv))) d) = dict_keys d.
Proof. unfold dict_keys. rewrite map_map. reflexivity. Qed.

Lemma normalize_canonical (v : value) :
  well_formed v = true -> canonical (normalize v) = true.
Proof.
  induction v as [n|s|l IH|d IH] using value_induction; intros W;
    try reflexivity; cbn [normalize canonical well_formed] in *.
  - rewrite forallb_forall in *. rewrite Forall_forall in IH.
    intros y Hy. apply in_map_iff in Hy. destruct Hy as (x & <- & Hx). auto.
  - apply andb_true_iff in W. destruct W as [D W].
    rewrite forallb_forall in W. rewrite Forall_forall in IH.
    apply andb_true_iff. split.
    + rewrite sort_items_keys, map_value_keys.
      now apply sorted_distinct_ascending.
    + apply forallb_forall. intros kv Hkv.
      eapply Permutation_in in Hkv;
        [|apply Permutation_sym, sort_items_perm].
      apply in_map_iff in Hkv. destruct Hkv as (x & <- & Hx).
      cbn [snd]. apply (IH _ Hx), (W _ Hx).
Qed.

Lemma normalize_encode (v : value) :
  well_formed v = true ->
  _encode_bencode v = canonical_encoding (normalize v).
Proof.
  induction v as [n|s|l IH|d IH] using value_induction; intros W;
    try reflexivity; cbn [well_formed] in W.
  - cbn [_encode_bencode normalize canonical_encoding]. do 3 f_equal.
    rewrite map_map. rewrite forallb_forall in W. rewrite Forall_forall in IH.
    apply map_ext_in. auto.
  - apply andb_true_iff in W. destruct W as [D W].
    rewrite forallb_forall in W. rewrite Forall_forall in IH.
    rewrite _encode_bencode_dict. cbn [normalize].
    change (canonical_encoding
              (VDict (sort_items
                        (map (fun kv => (fst kv, normalize (snd kv))) d))))
      with (b "d"
              ++ concat (map encode_item
                           (sort_items
                              (map (fun kv => (fst kv, normalize (snd kv)))
                                   d)))
              ++ b "e").
    do 3 f_equal.
    rewrite <- (map_value_keys normalize d), <- sort_items_keys.
    unfold dict_keys. rewrite map_map. apply map_ext_in.
    intros kv Hkv.
    eapply Permutation_in in Hkv; [|apply Permutation_sym, sort_items_perm].
    apply in_map_iff in Hkv. destruct Hkv as ([k x] & <- & Hx).
    cbn [fst snd]. rewrite (dict_get_in d k x D Hx).
    unfold encode_item. cbn [fst snd _encode_bencode].
    f_equal. apply (IH _ Hx), (W _ Hx).
Qed.

Lemma items_size_perm (l l' : dict value) :
  Permutation l l' ->
  fold_right (fun kv n => 1 + size (snd kv) + n)%nat 0%nat l
  = fold_right (fun kv n => 1 + size (snd kv) + n)%nat 0%nat l'.
Proof.
  induction 1; cbn [fold_right]; try lia.
Qed.

Lemma normalize_size (v : value) : size (normalize v) = size v.
Proof.
  induction v as [n|s|l IH|d IH] using value_induction; try reflexivity;
    cbn [normalize size]; apply (f_equal (Nat.add 2)).
  - induction IH as [|x l Hx _ IHl]; cbn [map fold_right]; [reflexivity|].
    now rewrite Hx, IHl.
  - rewrite <- (items_size_perm _ _ (sort_items_perm _)).
    induction IH as [|x l Hx _ IHl]; cbn [map fold_right snd];
      [reflexivity|].
    now rewrite Hx, IHl.
Qed.

Lemma _decode_bencode_encoded (v : value) (fuel : nat) :
  well_formed v = true -> (size v <= fuel)%nat ->
  _decode_bencode fuel (_encode_bencode v) = Done (Some (normalize v)).
Proof.
  intros W Hfuel. rewrite normalize_encode by assumption.
  rewrite <- (app_nil_r (canonical_encoding (normalize v))).
  apply _decode_bencode_prefix; [now apply normalize_canonical|].
  now rewrite normalize_size.
Qed.

(** X3: what [_encode_bencode] writes always decodes again, to the same
    value with its dictionaries in sorted key order, and encoding that
    gives the same bytes: the encoder's output is canonical. *)
Theorem encoder_output_is_canonical (v : value) (fuel : nat) :
  well_formed v = true -> (size v <= fuel)%nat ->
  _decode_bencode fuel (_encode_bencode v) = Done (Some (normalize v)) /\
  canonical (normalize v) = true /\
  reencode fuel (_encode_bencode v) = Done (_encode_bencode v).
Proof.
  intros W Hfuel.
  pose proof (_decode_bencode_encoded v fuel W Hfuel) as H.
  split; [exact H|]. split; [now apply normalize_canonical|].
  unfold reencode. rewrite H. cbn [bind]. f_equal.
  rewrite _encode_bencode_canonical by now apply normalize_canonical.
  symmetry. now apply normalize_encode.
Qed.

Lemma encoder_output_is_canonical_witness :
  let v := VDict [(b "name", VBytes (b "a")); (b "length", VInt 5)] in
  _encode_bencode v = b "d6:lengthi5e4:name1:ae" /\
  reencode 6 (_encode_bencode v) = Done (_encode_bencode v).
Proof.
  intros v. split; [reflexivity|].
  apply (encoder_output_is_canonical v 6).
  - reflexivity.
  - vm_compute. lia.
Defined.

Lemma normalize_py_eq (v : value) :
  forall w,
    well_formed v = true -> well_formed w = true ->
    normalize v = normalize w -> py_eq v w = true.
Proof.
  induction v as [n|s|l IH|d IH] using value_induction;
    intros [m|t|l'|d'] Wv Ww E; cbn [normalize] in E; try discriminate.
  - inversion E. apply Z.eqb_refl.
  - inversion E. apply bytes_eqb_refl.
  - inversion E as [E']. clear E. cbn [py_eq]. cbn [well_formed] in Wv, Ww.
    revert l' Ww E'.
    induction IH as [|x l Hx _ IHl]; intros [|y l'] Ww E';
      cbn [map] in E'; try discriminate; [reflexivity|].
    cbn [forallb] in Wv, Ww. apply andb_true_iff in Wv, Ww.
    destruct Wv as [Wx Wl], Ww as [Wy Wl']. inversion E'.
    cbn [all2]. apply andb_true_iff. split; [now apply Hx|now apply IHl].
  - inversion E as [E']. clear E. cbn [py_eq].
    assert (P : Permutation
                  (map (fun kv => (fst kv, normalize (snd kv))) d)
                  (map (fun kv => (fst kv, normalize (snd kv))) d')).
    { rewrite (sort_items_perm (map _ d)), E'.
      apply Permutation_sym, sort_items_perm. }
    cbn [well_formed] in Wv, Ww. apply andb_true_iff in Wv, Ww.
    destruct Wv as [Dv Wv], Ww as [Dw Ww].
    rewrite forallb_forall in Wv, Ww. rewrite Forall_forall in IH.
    apply andb_true_iff. split.
    + apply Nat.eqb_eq. apply Permutation_length in P.
      now rewrite !length_map in P.
    + apply forallb_forall. intros [k x] Hx. cbn [fst snd].
      assert (Hin : In (k, normalize x)
                       (map (fun kv => (fst kv, normalize (snd kv))) d')).
      { eapply Permutation_in; [exact P|].
        apply in_map_iff. exists (k, x). now split. }
      apply in_map_iff in Hin. destruct Hin as ([k' y] & Ey & Hy).
      cbn [fst snd] in Ey. injection Ey as Ek En. subst k'.
      rewrite (dict_get_in d' k y Dw Hy).
      apply (IH _ Hx); [exact (Wv _ Hx)|exact (Ww _ Hy)|].
      cbn [snd]. now symmetry.
Qed.

(** X4: two values have the same encoding exactly when they are equal in
    Python's sense ([==], which ignores the insertion order of
    dictionaries): nothing but the key order is lost in [_encode_bencode],
    the input of [info_hash]. *)
Theorem same_encoding_iff_equal (v w : value) :
  well_formed v = true -> well_formed w = true ->
  (_encode_bencode v = _encode_bencode w <-> py_eq v w = true).
Proof.
  intros Wv Ww. split.
  - intros E. apply normalize_py_eq; try assumption.
    pose proof (_decode_bencode_encoded v (Nat.max (size v) (size w)) Wv
                  (Nat.le_max_l _ _)) as Hv.
    pose proof (_decode_bencode_encoded w (Nat.max (size v) (size w)) Ww
                  (Nat.le_max_r _ _)) as Hw.
    rewrite E in Hv. congruence.
  - now apply py_eq_encode.
Qed.

Lemma same_encoding_iff_equal_witness :
  _encode_bencode (VDict [(b "a", VInt 1); (b "b", VInt 2)])
  <> _encode_bencode (VDict [(b "b", VInt 2); (b "a", VInt 3)]).
Proof.
  intros E.
  apply (same_encoding_iff_equal
           (VDict [(b "a", VInt 1); (b "b", VInt 2)])
           (VDict [(b "b", VInt 2); (b "a", VInt 3)]) eq_refl eq_refl) in E.
  vm_compute in E. discriminate.
Defined.

End Normalisation.

(** ** What the decoder refuses and what it lets through *)

Section Leniency.

(** X5: an empty input, and an input whose first byte is none of [d],
    [l], [i] or a digit, is a decode failure: [_decode_bencode] returns
    [None]. *)
Theorem unknown_marker_fails (data : bytes) (fuel : nat) :
  (forall c rest, data = c :: rest -> is_marker c = false) ->
  _decode_bencode (S fuel) data = Done None.
Proof.
  intros H. unfold _decode_bencode. destruct data as [|c rest].
  - reflexivity.
  - specialize (H c rest eq_refl). unfold is_marker, is_digit in H.
    apply orb_false_iff in H. destruct H as [H Hd].
    apply orb_false_iff in H. destruct H as [H Hi].
    apply orb_false_iff in H. destruct H as [Hdd Hl].
    cbn [decode].
    pose proof (getitem_at [] c rest) as G. cbn [app] in G.
    change (len []) with 0 in G. rewrite G.
    destruct (Z.geb_spec 0 (len (c :: rest))) as [L|L].
    { rewrite len_cons in L. pose proof (len_nonneg rest). lia. }
    cbn [bind]. change (ord "d"%byte) with 100.
    change (ord "l"%byte) with 108. change (ord "i"%byte) with 105.
    now rewrite Hdd, Hl, Hi, Hd.
Qed.

Lemma unknown_marker_fails_witness :
  _decode_bencode 1 [] = Done None /\
  _decode_bencode 1 (b "e") = Done None /\
  _decode_bencode 1 (b "x3:abc") = Done None.
Proof.
  split; [|split].
  - apply (unknown_marker_fails [] 0). discriminate.
  - apply (unknown_marker_fails (b "e") 0).
    intros c rest E. inversion E. reflexivity.
  - apply (unknown_marker_fails (b "x3:abc") 0).
    intros c rest E. inversion E. reflexivity.
Defined.

Lemma parse_digits_zeros (k : nat) (x : bytes) :
  Py.parse_digits (repeat "0"%byte k ++ x) 0 false
  = Py.parse_digits x 0 false.
Proof. induction k as [|k IH]; [reflexivity|exact IH]. Qed.

Lemma str_int_nonneg_digits (n : Z) :
  0 <= n ->
  Forall (fun c => is_digit c = true) (Py.str_int n) /\
  Py.parse_digits (Py.str_int n) 0 false = Some n.
Proof.
  intros Hn. pose proof (DecimalZ.of_to n) as E. unfold Py.str_int.
  destruct n as [|p|p]; [| |lia]; cbn [Z.to_int Z.of_int] in *.
  - split; [repeat constructor|reflexivity].
  - split; [apply bytes_of_uint_digits|].
    rewrite parse_digits_uint, uint_val_of_uint. now f_equal.
Qed.

(** [int()] takes leading zeros. *)
Lemma int_leading_zeros_any (k : nat) (n : Z) :
  0 <= n -> Py.int (repeat "0"%byte k ++ Py.str_int n) = Done n.
Proof.
  intros Hn. destruct (str_int_nonneg_digits n Hn) as [Hdig Hparse].
  assert (D : Forall (fun c => is_digit c = true)
                     (repeat "0"%byte k ++ Py.str_int n)).
  { apply Forall_app. split; [|assumption].
    apply Forall_forall. intros c Hc. apply repeat_spec in Hc. now subst. }
  unfold Py.int.
  rewrite strip_digits
    by (eapply Forall_impl; [|exact D]; apply digit_not_space).
  pose proof (parse_digits_zeros k (Py.str_int n)) as Hz.
  rewrite Hparse in Hz.
  destruct (repeat "0"%byte k ++ Py.str_int n) as [|c r] eqn:E.
  - destruct (str_int_nonneg_head n Hn) as (c & r & E' & _).
    rewrite E' in E. destruct k; discriminate.
  - inversion D as [|? ? Hc _]; subst.
    rewrite !(digit_not c) by (assumption || reflexivity).
    rewrite Hz. f_equal. lia.
Qed.

Lemma decode_int_payload (s rest : bytes) (fuel : nat) :
  Py.index_of "e"%byte s = None ->
  decode (S fuel) (b "i" ++ s ++ b "e" ++ rest) 0
  = n <- Py.int s ;; Done (VInt n, 2 + len s).
Proof.
  intros He. cbn [decode].
  change (b "i" ++ s ++ b "e" ++ rest)
    with ([] ++ "i"%byte :: s ++ "e"%byte :: rest).
  rewrite (getitem_at [] "i"%byte). cbn [app].
  destruct (Z.geb_spec 0 (len ("i"%byte :: s ++ "e"%byte :: rest))) as [L|L].
  { rewrite len_cons in L.
    pose proof (len_nonneg (s ++ "e"%byte :: rest)). lia. }
  cbn [bind].
  change (ord "i"%byte =? ord "d"%byte) with false.
  change (ord "i"%byte =? ord "l"%byte) with false.
  change (ord "i"%byte =? ord "i"%byte) with true. cbv iota.
  unfold decode_int.
  change ("i"%byte :: s ++ "e"%byte :: rest)
    with (["i"%byte] ++ s ++ "e"%byte :: rest).
  change (0 + 1) with (len ["i"%byte]).
  rewrite find_at by assumption.
  pose proof (len_nonneg s).
  destruct (Z.eqb_spec (len ["i"%byte] + len s) (-1));
    [change (len ["i"%byte]) with 1 in *; lia|].
  rewrite slice_at.
  destruct (Py.int s); cbn [bind]; try reflexivity.
  do 2 f_equal. change (len ["i"%byte]) with 1. lia.
Qed.

(** X6: the digits of an integer go to [int()] as they are, up to the
    first [e]: the value is whatever [int()] reads and the input is
    refused only when [int()] refuses it.  In particular leading zeros are
    accepted. *)
Theorem integer_payload_parsed_by_int (s rest : bytes) (fuel : nat) :
  (Py.index_of "e"%byte s = None ->
   _decode_bencode (S fuel) (b "i" ++ s ++ b "e" ++ rest)
   = match Py.int s with
     | Done n => Done (Some (VInt n))
     | _ => Done None
     end) /\
  (forall (k : nat) (n : Z),
      0 <= n ->
      _decode_bencode (S fuel)
        (b "i" ++ (repeat "0"%byte k ++ Py.str_int n) ++ b "e" ++ rest)
      = Done (Some (VInt n))).
Proof.
  split.
  - intros He. unfold _decode_bencode.
    rewrite decode_int_payload by assumption.
    unfold Py.int.
    destruct (Py.rstrip (Py.lstrip s)) as [|c r]; [reflexivity|].
    destruct (Byte.eqb c "+"%byte), (Byte.eqb c "-"%byte);
      repeat match goal with
             | |- context [match ?l with [] => _ | _ :: _ => _ end] =>
                 destruct l
             | |- context [if ?c then _ else _] => destruct c
             | |- context [match Py.parse_digits ?a ?b ?c with _ => _ end] =>
                 destruct (Py.parse_digits a b c)
             end; reflexivity.
  - intros k n Hn. unfold _decode_bencode.
    rewrite decode_int_payload.
    + now rewrite int_leading_zeros_any.
    + apply index_of_none. apply Forall_app. split.
      * apply Forall_forall. intros c Hc. apply repeat_spec in Hc.
        subst. discriminate.
      * eapply Forall_impl; [|apply (str_int_nonneg_digits n Hn)].
        intros c Hc ->. discriminate.
Qed.

Lemma integer_payload_parsed_by_int_witness :
  _decode_bencode 1 (b "i +0_7 e") = Done (Some (VInt 7)) /\
  _decode_bencode 1 (b "ie") = Done None /\
  _decode_bencode 1 (b "i00012e") = Done (Some (VInt 12)).
Proof.
  split; [|split].
  - exact (proj1 (integer_payload_parsed_by_int (b " +0_7 ") [] 0) eq_refl).
  - exact (proj1 (integer_payload_parsed_by_int [] [] 0) eq_refl).
  - exact (proj2 (integer_payload_parsed_by_int [] [] 0)
             3%nat 12 ltac:(lia)).
Defined.

End Leniency.

(** * Further properties of loading *)

Section LoadedState.

Lemma hex_digit_is_hex (d : Z) :
  0 <= d < 16 -> is_hex (hashlib.hex_digit d) = true.
Proof.
  intros H.
  assert (C : d = 0 \/ d = 1 \/ d = 2 \/ d = 3 \/ d = 4 \/ d = 5 \/ d = 6
              \/ d = 7 \/ d = 8 \/ d = 9 \/ d = 10 \/ d = 11 \/ d = 12
              \/ d = 13 \/ d = 14 \/ d = 15) by lia.
  repeat (destruct C as [->|C]; [reflexivity|]). now subst.
Qed.

Lemma hex_word_format (w : Z) :
  List.length (hashlib.hex_word w) = 8%nat /\
  forallb is_hex (hashlib.hex_word w) = true.
Proof.
  split; [reflexivity|]. unfold hashlib.hex_word.
  apply forallb_forall. intros c Hc. apply in_map_iff in Hc.
  destruct Hc as (k & <- & _). apply hex_digit_is_hex.
  apply Z.mod_pos_bound. lia.
Qed.

(** The digest is 40 lowercase hexadecimal digits, whatever the data. *)
Lemma sha1_hexdigest_format (data : bytes) :
  List.length (hashlib.sha1_hexdigest data) = 40%nat /\
  forallb is_hex (hashlib.sha1_hexdigest data) = true.
Proof.
  unfold hashlib.sha1_hexdigest.
  destruct (fold_left hashlib.compress _ hashlib.init)
    as [[[[h0 h1] h2] h3] h4].
  split.
  - rewrite !length_app, !(proj1 (hex_word_format _)). reflexivity.
  - rewrite !forallb_app, !(proj2 (hex_word_format _)). reflexivity.
Qed.

Lemma _extract_file_info_needs_dict (self self' : TorrentVerifier)
  (i : value) :
  info self = Some i ->
  _extract_file_info self = (Done tt, self') ->
  exists d, i = VDict d.
Proof.
  intros Hi. unfold _extract_file_info. run_meth. rewrite Hi.
  destruct i as [n|s|l|d]; [| | |now exists d]; cbn [py_contains py_get bind];
    try discriminate;
    match goal with
    | |- context [negb ?c] => destruct c
    end; discriminate.
Qed.

(** X7: a successful [load_torrent] leaves a dictionary in
    [torrent_data], its [info] entry, again a dictionary, in [info], and
    40 lowercase hexadecimal digits in [info_hash], although the code
    never tests a type. *)
Theorem loaded_state_shape (fuel : nat) (HAS_BENCODE : option bencodepy)
  (fs : filesystem) (self self' : TorrentVerifier) :
  load_torrent fuel HAS_BENCODE fs self = (Done true, self') ->
  exists root i h,
    torrent_data self' = Some (VDict root) /\
    dict_get root (b "info") = Some (VDict i) /\
    info self' = Some (VDict i) /\
    info_hash self' = Some h /\
    List.length h = 40%nat /\ forallb is_hex h = true.
Proof.
  intros H. apply load_torrent_true in H.
  destruct H as (data & root & i & enc & _ & _ & _ & _ & _ & Hsub & _ & Hext).
  pose proof (_extract_file_info_same_torrent _ _ _ Hext)
    as (_ & Hd & Hi & Hh).
  destruct (_extract_file_info_needs_dict (loaded root i enc self) self' i
              eq_refl Hext) as [di ->].
  destruct root as [| | |d]; try discriminate. cbn [py_subscript] in Hsub.
  destruct (dict_get d (b "info")) as [w|] eqn:E; [|discriminate].
  inversion Hsub; subst w.
  exists d, di, (hashlib.sha1_hexdigest enc).
  repeat split; try assumption; apply sha1_hexdigest_format.
Qed.

Lemma loaded_state_shape_witness :
  exists h,
    info_hash (snd (load_sample torrent_sorted)) = Some h /\
    List.length h = 40%nat /\ forallb is_hex h = true.
Proof.
  destruct (loaded_state_shape 10 None
              (torrent_fs (u "x.torrent") torrent_sorted)
              (__init__ (u "x.torrent"))
              (snd (load_sample torrent_sorted)) eq_refl)
    as (root & i & h & _ & _ & _ & Hh & Hlen & Hhex).
  exists h. repeat split; assumption.
Defined.









End LoadedState.

(** * Further properties of the file list and of the verification *)

Section FileList.

(** Settles one direction of a criterion once the outcome of [os.stat]
    and the class are known. *)
Ltac criterion :=
  let H := fresh "H" in
  let E := fresh "E" in
  let x := fresh "x" in
  intros H;
  first
    [ discriminate H
    | reflexivity
    | lazymatch type of H with
      | ex _ =>
          destruct H as [x H];
          first [ discriminate H
                | lazymatch type of H with
                  | _ /\ _ =>
                      destruct H as [H E];
                      first [ discriminate H
                            | inversion H; subst; contradiction ]
                  end ]
      end
    | eexists; first [ reflexivity | split; [reflexivity|assumption] ] ].

Lemma extract_entry_describes (i : value) (base_path : str)
  (file_info : value) (self self' : TorrentVerifier) (t : Z) :
  total_size self = VInt t ->
  extract_entry i base_path file_info self = (Done tt, self') ->
  exists e n,
    files self' = files self ++ [e] /\
    describes i base_path file_info e /\
    file_info.length e = VInt n /\
    total_size self' = VInt (t + n).
Proof.
  intros Htot. unfold extract_entry. run_meth. intros H.
  destruct (py_subscript file_info (b "path")) as [parts| |] eqn:E1;
    cbn [bind] in H; try discriminate.
  destruct (py_iter parts) as [parts'| |] eqn:E2; cbn [bind] in H;
    try discriminate.
  destruct (mapM py_decode parts') as [path_parts| |] eqn:E3;
    cbn [bind] in H; try discriminate.
  destruct (py_subscript file_info (b "length")) as [length| |] eqn:E4;
    cbn [bind] in H; try discriminate.
  destruct (py_get i (b "piece length") (VInt 0)) as [pl| |] eqn:E5;
    cbn [bind] in H; try discriminate.
  cbn [total_size files_append] in H. rewrite Htot in H.
  destruct length as [m| | |]; cbn [py_iadd] in H; try discriminate.
  inversion H; subst.
  exists (file_info.mk (os_path.join base_path path_parts) (VInt m) pl), m.
  repeat split.
  exists path_parts, m. rewrite E1. cbn [bind]. rewrite E2. cbn [bind].
  now repeat split.
Qed.

Lemma sum_lengths_cons (e : file_info.t) (l : list file_info.t) (n s : Z) :
  file_info.length e = VInt n -> sum_lengths l = Some s ->
  sum_lengths (e :: l) = Some (n + s).
Proof. intros He Hl. cbn [sum_lengths]. now rewrite He, Hl. Qed.

Lemma for_each_describes (i : value) (base_path : str) (fl : list value) :
  forall (self self' : TorrentVerifier) (t : Z),
    total_size self = VInt t ->
    for_each fl (extract_entry i base_path) self = (Done tt, self') ->
    exists new s,
      files self' = files self ++ new /\
      Forall2 (describes i base_path) fl new /\
      sum_lengths new = Some s /\
      total_size self' = VInt (t + s).
Proof.
  induction fl as [|fi fl IH]; intros self self' t Htot H.
  - inversion H; subst. exists [], 0. rewrite app_nil_r, Z.add_0_r.
    repeat split; [constructor|assumption].
  - cbn [for_each] in H. unfold bind_meth in H.
    destruct (extract_entry i base_path fi self) as [[[]| |] s1] eqn:E;
      try discriminate.
    destruct (extract_entry_describes _ _ _ _ _ t Htot E)
      as (e & n & Hf & Hd & He & Ht).
    destruct (IH s1 self' (t + n) Ht H) as (new & s & Hf' & Hall & Hs & Ht').
    exists (e :: new), (n + s). repeat split.
    + rewrite Hf', Hf, <- app_assoc. reflexivity.
    + now constructor.
    + now apply sum_lengths_cons.
    + rewrite Ht'. f_equal. lia.
Qed.

(** X9: when [info] has a [files] key and extraction succeeds, it has
    added one entry per element of the list, in the order of the list:
    each with the path [name/part/.../part] of the decoded segments and
    an integer [length], and [total_size] has grown by their sum. *)
Theorem multi_file_entries_in_order (i : value)
  (self self' : TorrentVerifier) (t : Z) :
  info self = Some i ->
  py_contains i (b "files") = Done true ->
  total_size self = VInt t ->
  _extract_file_info self = (Done tt, self') ->
  exists name fl new s,
    py_get i (b "name") (VBytes []) = Done (VBytes name) /\
    (l <- py_subscript i (b "files") ;; py_iter l) = Done fl /\
    files self' = files self ++ new /\
    Forall2 (describes i (Utf8.decode_ignore name)) fl new /\
    sum_lengths new = Some s /\
    total_size self' = VInt (t + s).
Proof.
  intros Hi Hfiles Htot. unfold _extract_file_info. run_meth.
  rewrite Hi, Hfiles. cbn [negb]. intros H.
  destruct (py_get i (b "name") (VBytes [])) as [name| |] eqn:En;
    cbn [bind] in H; try discriminate.
  destruct name as [|name| |]; cbn [py_decode] in H; try discriminate.
  destruct (l <- py_subscript i (b "files") ;; py_iter l) as [fl| |] eqn:Ef;
    try discriminate.
  destruct (for_each_describes _ _ _ _ _ t Htot H)
    as (new & s & Hf & Hall & Hs & Ht).
  exists name, fl, new, s. now repeat split.
Qed.

Lemma multi_file_entries_in_order_witness :
  let i := VDict [(b "files",
                   VList [VDict [(b "length", VInt 3);
                                 (b "path", VList [VBytes (b "a")])];
                          VDict [(b "length", VInt 4);
                                 (b "path", VList [VBytes (b "d");
                                                   VBytes (b "c")])]]);
                  (b "name", VBytes (b "pkg"))] in
  let self := set_info (Some i) (__init__ (u "x.torrent")) in
  let self' := snd (_extract_file_info self) in
  map file_info.path (files self') = [u "pkg/a"; u "pkg/d/c"] /\
  exists name fl new s,
    py_get i (b "name") (VBytes []) = Done (VBytes name) /\
    (l <- py_subscript i (b "files") ;; py_iter l) = Done fl /\
    files self' = files self ++ new /\
    Forall2 (describes i (Utf8.decode_ignore name)) fl new /\
    sum_lengths new = Some s /\
    total_size self' = VInt (0 + s).
Proof.
  intros i self self'. split; [reflexivity|].
  apply (multi_file_entries_in_order i self self' 0); try reflexivity.
Defined.

Lemma mapM_decode_bytes (l : list bytes) :
  mapM py_decode (map VBytes l) = Done (map Utf8.decode_ignore l).
Proof.
  induction l as [|s l IH]; [reflexivity|].
  cbn [map mapM py_decode bind]. now rewrite IH.
Qed.

Lemma join_absolute_segment (a : str) (ps qs : list str) (c : str) :
  os_path.startswith_sep c = true ->
  os_path.join a (ps ++ c :: qs) = os_path.join c qs.
Proof.
  intros Hc. revert a. induction ps as [|p ps IH]; intros a.
  - cbn [app os_path.join]. now rewrite Hc.
  - cbn [app os_path.join]. apply IH.
Qed.

Lemma join_keeps_root (a : str) (qs : list str) :
  os_path.startswith_sep a = true ->
  os_path.startswith_sep (os_path.join a qs) = true.
Proof.
  revert a. induction qs as [|q qs IH]; intros a Ha; [exact Ha|].
  cbn [os_path.join]. apply IH.
  destruct (os_path.startswith_sep q) eqn:Hq; [exact Hq|].
  destruct a as [|c a]; [discriminate|].
  destruct (os_path.endswith_sep (c :: a)); exact Ha.
Qed.

Lemma decode_ignore_slash (s : bytes) :
  os_path.startswith_sep (Utf8.decode_ignore ("/"%byte :: s)) = true.
Proof. reflexivity. Qed.

(** X10: a path segment that begins with [/] throws away the torrent's
    name and every segment before it, and the entry it gives is looked up
    as it stands, whatever [base_dir] is: such an entry names a file
    outside the directory that is being verified. *)
Theorem absolute_segment_escapes (i : dict value) (base_path : str)
  (fd : dict value) (before after : list bytes) (seg : bytes) (n t : Z)
  (self : TorrentVerifier) (base_dir : str) :
  dict_get fd (b "path")
  = Some (VList (map VBytes (before ++ ("/"%byte :: seg) :: after))) ->
  dict_get fd (b "length") = Some (VInt n) ->
  total_size self = VInt t ->
  exists self' e,
    extract_entry (VDict i) base_path (VDict fd) self = (Done tt, self') /\
    files self' = files self ++ [e] /\
    file_info.path e
    = os_path.join (Utf8.decode_ignore ("/"%byte :: seg))
                   (map Utf8.decode_ignore after) /\
    os_path.startswith_sep (file_info.path e) = true /\
    os_path.join base_dir [file_info.path e] = file_info.path e.
Proof.
  intros Hpath Hlen Htot.
  set (p := os_path.join (Utf8.decode_ignore ("/"%byte :: seg))
                         (map Utf8.decode_ignore after)).
  assert (Hp : os_path.startswith_sep p = true)
    by (apply join_keeps_root, decode_ignore_slash).
  exists (set_total_size (VInt (t + n))
            (files_append
               (file_info.mk p (VInt n)
                             (get_default i (b "piece length") (VInt 0)))
               self)),
    (file_info.mk p (VInt n) (get_default i (b "piece length") (VInt 0))).
  split; [|repeat split; try assumption].
  - unfold extract_entry. run_meth. cbn [py_subscript py_get].
    rewrite Hpath, Hlen. cbn [bind py_iter]. rewrite mapM_decode_bytes.
    cbn [bind]. rewrite map_app. cbn [map].
    rewrite join_absolute_segment by apply decode_ignore_slash. fold p.
    replace (match dict_get i (b "piece length") with
             | Some w => Done w
             | None => Done (VInt 0)
             end) with (Done (get_default i (b "piece length") (VInt 0)))
      by (unfold get_default; now destruct (dict_get i (b "piece length"))).
    cbn [bind total_size files_append]. rewrite Htot. reflexivity.
  - cbn [file_info.path os_path.join]. now rewrite Hp.
Qed.

Lemma absolute_segment_escapes_witness :
  exists self' e,
    extract_entry (VDict []) (u "pkg")
      (VDict [(b "length", VInt 1);
              (b "path", VList [VBytes (b "sub"); VBytes (b "/etc");
                                VBytes (b "passwd")])])
      (__init__ (u "x.torrent")) = (Done tt, self') /\
    files self' = [e] /\
    file_info.path e = u "/etc/passwd" /\
    os_path.join (u "downloads") [file_info.path e] = u "/etc/passwd".
Proof.
  destruct (absolute_segment_escapes [] (u "pkg")
              [(b "length", VInt 1);
               (b "path", VList [VBytes (b "sub"); VBytes (b "/etc");
                                 VBytes (b "passwd")])]
              [b "sub"] [b "passwd"] (b "etc") 1 0
              (__init__ (u "x.torrent")) (u "downloads")
              eq_refl eq_refl eq_refl)
    as (self' & e & H1 & H2 & H3 & _ & H5).
  exists self', e. split; [exact H1|]. split; [exact H2|].
  split; [exact H3|]. rewrite H5. exact H3.
Defined.

(** X11: what decides the class of an entry: it is [missing] exactly when
    [os.stat] fails on its path, [valid] exactly when the size found is
    the integer [length], and [size_mismatch] otherwise; an entry whose
    [length] is not an integer is never [valid]. *)
Theorem classification_criteria (fs : filesystem) (base_dir : str)
  (self : TorrentVerifier) (f : file_info.t) :
  In f (files self) ->
  exists r,
    verify_files_exist fs self base_dir = Done r /\
    (in_missing r base_dir f <->
     exists e, os.stat fs (os_path.join base_dir [file_info.path f])
               = Raise e) /\
    (in_valid r base_dir f <->
     exists n, os.stat fs (os_path.join base_dir [file_info.path f])
               = Done n /\ file_info.length f = VInt n) /\
    (in_size_mismatch r base_dir f <->
     exists n, os.stat fs (os_path.join base_dir [file_info.path f])
               = Done n /\ file_info.length f <> VInt n).
Proof.
  intros Hf. eexists. split.
  { unfold verify_files_exist. apply verify_loop_classify. }
  unfold in_missing, in_valid, in_size_mismatch.
  cbn [report.missing report.size_mismatch report.valid app].
  rewrite (in_missing_iff fs base_dir _ _ Hf),
    (in_valid_iff fs base_dir _ _ Hf).
  assert (M : (exists n,
                 In (report.mk_size_mismatch
                       (os_path.join base_dir [file_info.path f])
                       (file_info.length f) n)
                    (size_mismatch_of fs base_dir (files self)))
              <-> exists n, classify fs base_dir f = SizeMismatch n).
  { split; intros [n H]; exists n;
      now apply (in_size_mismatch_iff fs base_dir (files self) f n Hf). }
  rewrite M. unfold classify, os.stat.
  assert (N : forall n v, py_ne_int n v = false <-> v = VInt n).
  { intros n [m| | |]; cbn [py_ne_int]; split; try discriminate.
    - intros H. apply negb_false_iff, Z.eqb_eq in H. now subst.
    - intros H. inversion H. now rewrite Z.eqb_refl. }
  destruct (os.has_nul (os_path.join base_dir [file_info.path f]));
    [repeat split; criterion|].
  destruct (fs_stat fs (os_path.join base_dir [file_info.path f]))
    as [e|n]; [repeat split; criterion|].
  destruct (py_ne_int n (file_info.length f)) eqn:Hne.
  - assert (Hneq : file_info.length f <> VInt n).
    { intros E. apply N in E. congruence. }
    repeat split; criterion.
  - apply N in Hne. repeat split; criterion.
Qed.

Lemma classification_criteria_witness :
  exists r,
    verify_files_exist (torrent_fs (u "./a.txt") (b "hello"))
                       (one_entry (u "a.txt") 5) (u ".") = Done r /\
    in_valid r (u ".") (file_info.mk (u "a.txt") (VInt 5) (VInt 0)).
Proof.
  destruct (classification_criteria (torrent_fs (u "./a.txt") (b "hello"))
              (u ".") (one_entry (u "a.txt") 5)
              (file_info.mk (u "a.txt") (VInt 5) (VInt 0)))
    as (r & Hr & _ & Hv & _).
  - left. reflexivity.
  - exists r. split; [exact Hr|]. apply Hv. exists 5. split; reflexivity.
Defined.

End FileList.

(** * Trackers and the magnet link *)

Section Trackers.

Lemma str_eqb_eq (x y : str) : str_eqb x y = true <-> x = y.
Proof.
  revert y. induction x as [|c x IH]; intros [|d y]; cbn [str_eqb];
    try (split; discriminate); [tauto|].
  rewrite andb_true_iff, N.eqb_eq, IH. split.
  - intros [-> ->]. reflexivity.
  - intros E. inversion E. now split.
Qed.

Lemma str_in_In (s : str) (l : list str) : str_in s l = true <-> In s l.
Proof.
  unfold str_in. rewrite existsb_exists. split.
  - intros (x & Hx & E). apply str_eqb_eq in E. now subst.
  - intros H. exists s. split; [assumption|now apply str_eqb_eq].
Qed.

Lemma str_in_not_In (s : str) (l : list str) :
  str_in s l = false <-> ~ In s l.
Proof.
  rewrite <- str_in_In. destruct (str_in s l); split; congruence.
Qed.

Lemma NoDup_snoc (l : list str) (s : str) :
  NoDup l -> ~ In s l -> NoDup (l ++ [s]).
Proof.
  intros N H. apply NoDup_rev in N. rewrite <- (rev_involutive (l ++ [s])).
  apply NoDup_rev. rewrite rev_app_distr. cbn [rev app].
  constructor; [now rewrite <- in_rev|assumption].
Qed.

Lemma add_tracker_nodup (acc acc' : list str) (t : value) :
  NoDup acc -> add_tracker acc t = Done acc' -> NoDup acc'.
Proof.
  intros N. unfold add_tracker.
  destruct (truthy t); [|intros H; now inversion H; subst].
  destruct (py_decode t) as [s| |]; cbn [bind]; try discriminate.
  destruct (str_in s acc) eqn:E; cbn [negb]; intros H; inversion H; subst;
    [assumption|].
  apply NoDup_snoc; [assumption|now apply str_in_not_In].
Qed.

Lemma foldM_invariant {A B : Type} (P : B -> Prop) (f : B -> A -> res B)
  (l : list A) :
  (forall acc a acc', P acc -> f acc a = Done acc' -> P acc') ->
  forall acc acc', P acc -> foldM f l acc = Done acc' -> P acc'.
Proof.
  intros Hf. induction l as [|a l IH]; intros acc acc' Hacc H.
  - inversion H. now subst.
  - cbn [foldM] in H. destruct (f acc a) as [acc1| |] eqn:E;
      cbn [bind] in H; try discriminate.
    eapply IH; [|exact H]. eapply Hf; eassumption.
Qed.

Lemma add_tracker_group_nodup (acc acc' : list str) (g : value) :
  NoDup acc -> add_tracker_group acc g = Done acc' -> NoDup acc'.
Proof.
  intros N. unfold add_tracker_group.
  destruct (py_iter g) as [items| |]; cbn [bind]; try discriminate.
  apply (foldM_invariant (@NoDup str)); [|assumption].
  intros a t a'. apply add_tracker_nodup.
Qed.

Lemma collect_trackers_nodup (td : option value) (l : list str) :
  collect_trackers td = Done l -> NoDup l.
Proof.
  unfold collect_trackers.
  destruct (the td) as [root| |]; cbn [bind]; try discriminate.
  destruct (py_contains root (b "announce")) as [has| |]; cbn [bind];
    try discriminate.
  destruct (if has
            then announce <- py_subscript root (b "announce") ;;
                 (if truthy announce
                  then s <- py_decode announce ;; Done [s]
                  else Done [])
            else Done []) as [trackers| |] eqn:E; cbn [bind];
    try discriminate.
  assert (N : NoDup trackers).
  { destruct has; [|inversion E; constructor].
    destruct (py_subscript root (b "announce")) as [a| |]; cbn [bind] in E;
      try discriminate.
    destruct (truthy a); [|inversion E; constructor].
    destruct (py_decode a) as [s| |]; cbn [bind] in E; try discriminate.
    inversion E. repeat constructor. intros []. }
  destruct (py_contains root (b "announce-list")) as [[|]| |]; cbn [bind];
    try discriminate; [|intros H; now inversion H; subst].
  destruct (py_subscript root (b "announce-list")) as [gs| |]; cbn [bind];
    try discriminate.
  destruct (py_iter gs) as [groups| |]; cbn [bind]; try discriminate.
  apply (foldM_invariant (@NoDup str)); [|assumption].
  intros a g a'. apply add_tracker_group_nodup.
Qed.

(** X12: whenever [get_tracker_list] returns, no tracker occurs twice in
    its result, whatever [announce] and [announce-list] hold. *)
Theorem get_tracker_list_no_duplicates (self : TorrentVerifier)
  (l : list str) :
  get_tracker_list self = Done l -> NoDup l.
Proof. apply collect_trackers_nodup. Qed.

Lemma get_tracker_list_no_duplicates_witness :
  let root := VDict [(b "announce", VBytes (b "http://t1"));
                     (b "announce-list",
                      VList [VList [VBytes (b "http://t1")];
                             VList [VBytes (b "http://t2");
                                    VBytes (b "http://t1")]])] in
  let self := set_torrent_data (Some root) (__init__ (u "x.torrent")) in
  get_tracker_list self = Done [u "http://t1"; u "http://t2"] /\
  NoDup [u "http://t1"; u "http://t2"].
Proof.
  intros root self. split; [reflexivity|].
  apply (get_tracker_list_no_duplicates self). reflexivity.
Defined.

Lemma dedup_onto_app (acc : list str) (l1 l2 : list str) :
  dedup_onto acc (l1 ++ l2) = dedup_onto (dedup_onto acc l1) l2.
Proof. unfold dedup_onto. apply fold_left_app. Qed.

Lemma foldM_add_tracker (g : list bytes) (acc : list str) :
  foldM add_tracker (map VBytes g) acc
  = Done (dedup_onto acc (map Utf8.decode_ignore (filter nonempty g))).
Proof.
  revert acc. induction g as [|t g IH]; intros acc; [reflexivity|].
  cbn [map foldM filter]. unfold add_tracker at 1. cbn [truthy].
  destruct t as [|c t]; cbn [nonempty bind py_decode].
  - apply IH.
  - destruct (str_in (Utf8.decode_ignore (c :: t)) acc) eqn:E;
      cbn [negb bind]; rewrite IH; cbn [map]; unfold dedup_onto;
      cbn [fold_left]; now rewrite E.
Qed.

Lemma foldM_add_tracker_group (gs : list (list bytes)) (acc : list str) :
  foldM add_tracker_group (map (fun g => VList (map VBytes g)) gs) acc
  = Done (dedup_onto acc
            (map Utf8.decode_ignore (filter nonempty (concat gs)))).
Proof.
  revert acc. induction gs as [|g gs IH]; intros acc; [reflexivity|].
  cbn [map foldM concat]. unfold add_tracker_group at 1.
  cbn [py_iter bind]. rewrite foldM_add_tracker. cbn [bind].
  rewrite IH, filter_app, map_app, dedup_onto_app. reflexivity.
Qed.

(** X13: for a root dictionary whose [announce] (if any) is a byte string
    and whose [announce-list] (if any) is a list of lists of byte strings,
    [get_tracker_list] returns: [announce] first, then the trackers of the
    tiers in their order, empty strings left out, every one decoded to
    text, and each kept only where it is first seen. *)
Theorem tracker_list_flattened (self : TorrentVerifier) (root : dict value)
  (announce : option bytes) (tiers : option (list (list bytes))) :
  torrent_data self = Some (VDict root) ->
  dict_get root (b "announce") = option_map VBytes announce ->
  dict_get root (b "announce-list")
  = option_map (fun gs => VList (map (fun g => VList (map VBytes g)) gs))
               tiers ->
  get_tracker_list self
  = Done (dedup (map Utf8.decode_ignore
                     (filter nonempty
                             (match announce with
                              | Some a => [a]
                              | None => []
                              end
                              ++ match tiers with
                                 | Some gs => concat gs
                                 | None => []
                                 end)))).
Proof.
  intros Htd Ha Hl. unfold get_tracker_list, collect_trackers.
  rewrite Htd. cbn [the bind py_contains py_subscript]. unfold dict_mem.
  rewrite Ha, Hl. unfold dedup.
  rewrite filter_app, map_app, dedup_onto_app.
  assert (First :
            (if match option_map VBytes announce with
                | Some _ => true
                | None => false
                end
             then
               a <- match option_map VBytes announce with
                    | Some w => Done w
                    | None => Raise KeyError
                    end ;;
               (if truthy a then s <- py_decode a ;; Done [s] else Done [])
             else Done [])
            = Done (dedup_onto []
                      (map Utf8.decode_ignore
                           (filter nonempty
                                   match announce with
                                   | Some a => [a]
                                   | None => []
                                   end)))).
  { destruct announce as [[|c a]|]; reflexivity. }
  rewrite First. cbn [bind].
  destruct tiers as [gs|]; cbn [option_map py_iter bind].
  - apply foldM_add_tracker_group.
  - reflexivity.
Qed.

Lemma tracker_list_flattened_witness :
  let root := [(b "announce", VBytes (b "http://t1"));
               (b "announce-list",
                VList [VList [VBytes (b "http://t1")];
                       VList [VBytes []; VBytes (b "http://t2")]])] in
  get_tracker_list
    (set_torrent_data (Some (VDict root)) (__init__ (u "x.torrent")))
  = Done [u "http://t1"; u "http://t2"].
Proof.
  intros root.
  apply (tracker_list_flattened
           (set_torrent_data (Some (VDict root)) (__init__ (u "x.torrent")))
           root (Some (b "http://t1"))
           (Some [[b "http://t1"]; [[]; b "http://t2"]]));
    reflexivity.
Defined.

End Trackers.

Section MagnetLink.

Lemma magnet_fold (prefix : str) (l : list str) (m : str) :
  fold_left (fun magnet tracker => magnet ++ (prefix ++ tracker)) l m
  = m ++ concat (map (fun t => prefix ++ t) l).
Proof.
  revert m. induction l as [|t l IH]; intros m; cbn [fold_left map concat].
  - now rewrite app_nil_r.
  - now rewrite IH, <- app_assoc.
Qed.

(** The link, for a verifier that has an [info_hash]. *)
Lemma generate_magnet_link_shape (self : TorrentVerifier) (h : str) :
  info_hash self = Some h -> nonempty h = true ->
  generate_magnet_link self
  = trackers <- collect_trackers (torrent_data self) ;;
    Done (u "magnet:?xt=urn:btih:" ++ h ++ u "&dn="
            ++ match files self with
               | [] => u "unknown"
               | first :: more =>
                   match more with
                   | [] => file_info.path first
                   | _ :: _ =>
                       if existsb (N.eqb os.sep) (file_info.path first)
                       then posixpath.dirname (file_info.path first)
                       else file_info.path first
                   end
               end
            ++ concat (map (fun t => u "&tr=" ++ t) (firstn 5 trackers))).
Proof.
  intros Hh Hne. unfold generate_magnet_link. rewrite Hh.
  destruct h as [|c h]; [discriminate|].
  destruct (collect_trackers (torrent_data self)); cbn [bind];
    try reflexivity.
  rewrite magnet_fold, <- !app_assoc. reflexivity.
Qed.

(** What [_extract_file_info] does without a [files] key. *)
Lemma _extract_file_info_single (d : dict value)
  (self self' : TorrentVerifier) :
  info self = Some (VDict d) ->
  dict_get d (b "files") = None ->
  _extract_file_info self = (Done tt, self') ->
  exists name,
    get_default d (b "name") (VBytes []) = VBytes name /\
    self' = set_total_size (get_default d (b "length") (VInt 0))
              (files_append
                 (file_info.mk (Utf8.decode_ignore name)
                               (get_default d (b "length") (VInt 0))
                               (get_default d (b "piece length") (VInt 0)))
                 self).
Proof.
  intros Hi Hf. unfold _extract_file_info. run_meth. rewrite Hi.
  cbn [py_contains]. unfold dict_mem. rewrite Hf. cbn [negb py_get].
  assert (G : forall k dflt,
             match dict_get d k with
             | Some w => Done w
             | None => Done dflt
             end = Done (get_default d k dflt)).
  { intros k dflt. unfold get_default. now destruct (dict_get d k). }
  rewrite !G. cbn [bind].
  destruct (get_default d (b "name") (VBytes [])) as [|name| |];
    cbn [py_decode bind]; try discriminate.
  intros H. inversion H. now exists name.
Qed.

(** X14: after a successful load of a single-file torrent the magnet
    link, when [generate_magnet_link] returns one, is
    [magnet:?xt=urn:btih:] followed by the 40 digits of [info_hash],
    [&dn=] with the decoded name, and one [&tr=] for each of the first
    five trackers of [get_tracker_list], none of them twice. *)
Theorem magnet_link_of_single_file (fuel : nat)
  (HAS_BENCODE : option bencodepy) (fs : filesystem) (path : str)
  (self' : TorrentVerifier) (i : dict value) (m : str) :
  load_torrent fuel HAS_BENCODE fs (__init__ path) = (Done true, self') ->
  info self' = Some (VDict i) ->
  dict_get i (b "files") = None ->
  generate_magnet_link self' = Done m ->
  exists h name trackers,
    info_hash self' = Some h /\ List.length h = 40%nat /\
    get_default i (b "name") (VBytes []) = VBytes name /\
    get_tracker_list self' = Done trackers /\ NoDup trackers /\
    m = u "magnet:?xt=urn:btih:" ++ h
          ++ u "&dn=" ++ Utf8.decode_ignore name
          ++ concat (map (fun t => u "&tr=" ++ t) (firstn 5 trackers)).
Proof.
  intros Hload Hinfo Hfiles Hm. apply load_torrent_true in Hload.
  destruct Hload as (data & root & j & enc & _ & _ & _ & _ & _ & _ & _ & Hext).
  pose proof (_extract_file_info_same_torrent _ _ _ Hext)
    as (_ & _ & Hi & Hh).
  cbn [loaded info info_hash set_info_hash set_info set_torrent_data]
    in Hi, Hh.
  assert (j = VDict i) by congruence. subst j.
  destruct (_extract_file_info_single
              i (loaded root (VDict i) enc (__init__ path)) self'
              eq_refl Hfiles Hext)
    as (name & Hname & Hself).
  pose proof (sha1_hexdigest_format enc) as [Hlen _].
  assert (Hne : nonempty (hashlib.sha1_hexdigest enc) = true)
    by (destruct (hashlib.sha1_hexdigest enc); [discriminate|reflexivity]).
  rewrite (generate_magnet_link_shape self' _ Hh Hne) in Hm.
  assert (Hfs : files self'
                = [file_info.mk (Utf8.decode_ignore name)
                     (get_default i (b "length") (VInt 0))
                     (get_default i (b "piece length") (VInt 0))])
    by (rewrite Hself; reflexivity).
  rewrite Hfs in Hm. cbn [file_info.path] in Hm.
  unfold get_tracker_list.
  destruct (collect_trackers (torrent_data self')) as [trackers| |] eqn:Et;
    cbn [bind] in Hm; try discriminate.
  exists (hashlib.sha1_hexdigest enc), name, trackers.
  repeat split; try assumption.
  - eapply collect_trackers_nodup, Et.
  - congruence.
Qed.

Lemma magnet_link_of_single_file_witness :
  exists h,
    info_hash (snd (load_sample torrent_sorted)) = Some h /\
    generate_magnet_link (snd (load_sample torrent_sorted))
    = Done (u "magnet:?xt=urn:btih:" ++ h ++ u "&dn=a").
Proof.
  destruct (generate_magnet_link (snd (load_sample torrent_sorted)))
    as [m| |] eqn:Em; try (vm_compute in Em; discriminate).
  destruct (magnet_link_of_single_file 10 None
              (torrent_fs (u "x.torrent") torrent_sorted) (u "x.torrent")
              (snd (load_sample torrent_sorted))
              [(b "length", VInt 5); (b "name", VBytes (b "a"))] m
              eq_refl eq_refl eq_refl Em)
    as (h & name & trackers & Hh & _ & Hname & Ht & _ & Hm).
  exists h. split; [exact Hh|].
  vm_compute in Hname. inversion Hname; subst name.
  vm_compute in Ht. inversion Ht; subst trackers.
  rewrite Hm. cbn [firstn map concat]. now rewrite app_nil_r.
Defined.

Lemma rfind_sep_none (l : str) :
  existsb (N.eqb os.sep) l = false -> posixpath.rfind_sep l = -1.
Proof.
  induction l as [|c l IH]; cbn [existsb posixpath.rfind_sep];
    [reflexivity|].
  intros H. apply orb_false_iff in H. destruct H as [Hc Hl].
  rewrite (IH Hl). cbn. now rewrite N.eqb_sym, Hc.
Qed.

Lemma rfind_sep_last (dir last : str) :
  existsb (N.eqb os.sep) last = false ->
  posixpath.rfind_sep (dir ++ os.sep :: last) = len dir.
Proof.
  intros H. induction dir as [|c dir IH]; cbn [app posixpath.rfind_sep].
  - rewrite (rfind_sep_none last H). reflexivity.
  - rewrite IH. pose proof (len_nonneg dir).
    destruct (Z.geb_spec (len dir) 0); [|lia]. rewrite len_cons. lia.
Qed.

Lemma lstrip_sep_keeps (p : str) :
  os_path.startswith_sep p = false -> posixpath.lstrip_sep p = p.
Proof.
  destruct p as [|c p]; [reflexivity|].
  cbn [os_path.startswith_sep posixpath.lstrip_sep]. now intros ->.
Qed.

(** [dirname] of [dir/last] is [dir], for a [dir] that does not end in
    [/] and a [last] without [/]. *)
Lemma dirname_of_child (dir last : str) :
  nonempty dir = true -> os_path.endswith_sep dir = false ->
  existsb (N.eqb os.sep) last = false ->
  posixpath.dirname (dir ++ os.sep :: last) = dir.
Proof.
  intros Hne Hend Hlast. unfold posixpath.dirname.
  rewrite rfind_sep_last by assumption.
  replace (Z.to_nat (len dir + 1)) with (List.length (dir ++ [os.sep]))
    by (rewrite length_app; unfold len; cbn [List.length]; lia).
  change (dir ++ os.sep :: last) with (dir ++ [os.sep] ++ last).
  rewrite app_assoc, firstn_app, Nat.sub_diag, firstn_all, firstn_O,
    app_nil_r.
  assert (Hrev : os_path.startswith_sep (rev dir) = false).
  { unfold os_path.endswith_sep in Hend. unfold os_path.startswith_sep.
    destruct (rev dir); [reflexivity|exact Hend]. }
  assert (Hall : forallb (N.eqb os.sep) (dir ++ [os.sep]) = false).
  { rewrite forallb_app. apply andb_false_iff. left.
    destruct (forallb (N.eqb os.sep) dir) eqn:F; [|reflexivity].
    rewrite forallb_forall in F.
    destruct (rev dir) as [|c r] eqn:Er.
    - apply (f_equal (@rev N)) in Er. rewrite rev_involutive in Er.
      subst dir. discriminate.
    - cbn [os_path.startswith_sep] in Hrev.
      assert (Hc : In c dir) by (apply in_rev; rewrite Er; now left).
      apply F in Hc. rewrite N.eqb_sym in Hc. congruence. }
  rewrite Hall. destruct (dir ++ [os.sep]) as [|c r] eqn:E.
  { destruct dir; discriminate. }
  cbn [negb andb]. rewrite <- E. unfold posixpath.rstrip_sep.
  rewrite rev_app_distr. cbn [rev app posixpath.lstrip_sep].
  rewrite N.eqb_refl, lstrip_sep_keeps by assumption.
  apply rev_involutive.
Qed.

(** X15: with two or more entries the name in the magnet link is the
    directory of the first entry's path: for [pkg/sub/b.bin] it is
    [pkg/sub], which is the torrent's name only if the first file lies
    directly under it. *)
Theorem magnet_name_is_first_directory (self : TorrentVerifier)
  (h : str) (first second : file_info.t) (more : list file_info.t)
  (dir last : str) :
  info_hash self = Some h -> nonempty h = true ->
  files self = first :: second :: more ->
  file_info.path first = dir ++ os.sep :: last ->
  nonempty dir = true -> os_path.endswith_sep dir = false ->
  existsb (N.eqb os.sep) last = false ->
  generate_magnet_link self
  = trackers <- get_tracker_list self ;;
    Done (u "magnet:?xt=urn:btih:" ++ h ++ u "&dn=" ++ dir
            ++ concat (map (fun t => u "&tr=" ++ t) (firstn 5 trackers))).
Proof.
  intros Hh Hne Hfiles Hpath Hdir Hend Hlast.
  rewrite (generate_magnet_link_shape self h Hh Hne).
  unfold get_tracker_list. rewrite Hfiles, Hpath.
  assert (Hsep : existsb (N.eqb os.sep) (dir ++ os.sep :: last) = true).
  { rewrite existsb_app. cbn [existsb]. rewrite N.eqb_refl.
    now rewrite orb_true_r. }
  rewrite Hsep, dirname_of_child by assumption. reflexivity.
Qed.

Lemma magnet_name_is_first_directory_witness :
  let self :=
    set_info_hash (Some (u "0123"))
      (files_append (file_info.mk (u "pkg/a.bin") (VInt 1) (VInt 0))
         (files_append (file_info.mk (u "pkg/sub/b.bin") (VInt 1) (VInt 0))
            (set_torrent_data (Some (VDict []))
                              (__init__ (u "x.torrent"))))) in
  generate_magnet_link self
  = Done (u "magnet:?xt=urn:btih:0123&dn=pkg/sub").
Proof.
  intros self.
  rewrite (magnet_name_is_first_directory self (u "0123")
             (file_info.mk (u "pkg/sub/b.bin") (VInt 1) (VInt 0))
             (file_info.mk (u "pkg/a.bin") (VInt 1) (VInt 0)) []
             (u "pkg/sub") (u "b.bin")); reflexivity.
Defined.

End MagnetLink.
